(** * Tileable routing-resource graph builder and multiplexer bitstream encoder

    A shallow embedding of
    - [vpr7_x2p/vpr/SRC/device/rr_graph/rr_graph_tileable_builder.c]
      (segment allocator, channel builder, node census, graph assembler), and
    - the multiplexer bitstream builder ([find_mux_default_path_id],
      [build_cmos_mux_bitstream], [build_mux_bitstream]),
    followed by the properties of the specification that were checked
    against it.

    Conventions.  A [size_t] is a [Z] in [0, 2^64) and every arithmetic
    operation on it wraps; an [int] converted to [size_t] is reduced modulo
    [2^64].  A [double] is an IEEE-754 binary64 value ([spec_float] with
    precision 53).  A [std::vector] is a list; indexing out of range is
    undefined behaviour and is reported as [Undefined].  [exit(1)] and a
    failed assertion are reported as [Fatal].  Loops whose trip count is not
    bounded by the data take a fuel argument and report [OutOfFuel]. *)

From Stdlib Require Import ZArith List Bool Lia.
From Stdlib Require Import Floats.SpecFloat.
From stdpp Require Import base list.

Local Open Scope Z_scope.

(** ** Outcomes of a run *)

Inductive outcome (A : Type) : Type :=
| Ret (a : A)
| Fatal
| Undefined
| OutOfFuel.

Arguments Ret {A} a.
Arguments Fatal {A}.
Arguments Undefined {A}.
Arguments OutOfFuel {A}.

Definition outcome_bind {A B : Type} (f : A -> outcome B) (m : outcome A) : outcome B :=
  match m with
  | Ret a => f a
  | Fatal => Fatal
  | Undefined => Undefined
  | OutOfFuel => OutOfFuel
  end.

#[export] Instance outcome_mbind : MBind outcome := @outcome_bind.
#[export] Instance outcome_mret : MRet outcome := @Ret.

(** [v[i]] on a vector: out of range is undefined behaviour. *)
Definition vector_at {A : Type} (v : list A) (i : nat) : outcome A :=
  match v !! i with
  | Some a => Ret a
  | None => Undefined
  end.

(** ** Machine integers *)

Definition SIZE_T_MODULUS : Z := 2 ^ 64.

Definition to_size_t (z : Z) : Z := z mod SIZE_T_MODULUS.
Definition size_add (a b : Z) : Z := to_size_t (a + b).
Definition size_sub (a b : Z) : Z := to_size_t (a - b).
Definition size_mul (a b : Z) : Z := to_size_t (a * b).

(** ** Vocabulary of the statements *)

(** The exact sum of a count vector. *)
Definition sum_counts (l : list Z) : Z := foldr Z.add 0 l.

(** An outcome that did not run out of fuel is not changed by more fuel. *)
Definition fuel_stable {A : Type} (f : nat -> outcome A) : Prop :=
  forall fuel extra r, f fuel = r -> r <> OutOfFuel -> f (fuel + extra)%nat = r.

(** ** Doubles *)

Definition double : Type := spec_float.
Definition double_prec : Z := 53.
Definition double_emax : Z := 1024.

Definition double_of_Z (z : Z) : double :=
  binary_normalize double_prec double_emax z 0 false.
Definition double_sub (a b : double) : double := SFsub double_prec double_emax a b.
Definition double_div (a b : double) : double := SFdiv double_prec double_emax a b.
Definition double_lt (a b : double) : bool := SFltb a b.
(** [std::max(a, b)] is [(a < b) ? b : a]. *)
Definition std_max (a b : double) : double := if double_lt a b then b else a.

(** ** Segment descriptors: the fields of [t_segment_inf] the builder reads *)

Module Seg.
Record t_segment_inf : Type := Build {
  frequency : Z;   (* int *)
  length : Z;      (* int *)
  longline : bool  (* boolean *)
}.
End Seg.
Abbreviation t_segment_inf := Seg.t_segment_inf.

(** ** SegmentAllocator: [get_num_tracks_per_seg_type] *)

Module Allocator.

(** First loop: [scale] is the product of the lengths, [freq_sum] the sum
    of the frequencies, both in [size_t]. *)
Fixpoint scale_and_freq_sum (segment_inf : list t_segment_inf) (scale freq_sum : Z) : Z * Z :=
  match segment_inf with
  | [] => (scale, freq_sum)
  | seg :: rest =>
      scale_and_freq_sum rest
        (size_mul scale (to_size_t (Seg.length seg)))
        (size_add freq_sum (to_size_t (Seg.frequency seg)))
  end.

(** Second loop: the initial demand of one segment type. *)
Definition init_demand (scale chan_width : Z) (use_full_seg_groups : bool)
    (seg : t_segment_inf) : double :=
  let d := double_of_Z (size_mul (size_mul scale chan_width) (to_size_t (Seg.frequency seg))) in
  if use_full_seg_groups then double_div d (double_of_Z (Seg.length seg)) else d.

(** The inner [for] of the [while] loop.  [max] starts at [0]; [imax] is
    declared outside the [while] and keeps its previous value when no
    demand is strictly above the running maximum.  [demand] has one entry
    per segment type, so walking it is walking [iseg = 0 .. size-1]. *)
Fixpoint find_max_demand (demand : list double) (iseg : nat) (max : double) (imax : nat) : nat :=
  match demand with
  | [] => imax
  | d :: rest =>
      find_max_demand rest (S iseg) (std_max d max)
        (if double_lt max d then iseg else imax)
  end.

Record loop_state : Type := LoopState {
  demand : list double;
  result : list Z;
  assigned : Z;
  size : Z;
  imax : nat
}.

(** One pass through the body of [while (assigned < chan_width)]. *)
Definition assign_once (segment_inf : list t_segment_inf) (use_full_seg_groups : bool)
    (reduce : Z) (st : loop_state) : outcome loop_state :=
  let imax' := find_max_demand (demand st) 0 (S754_zero false) (imax st) in
  size' ← (if use_full_seg_groups
           then seg ← vector_at segment_inf imax'; mret (to_size_t (Seg.length seg))
           else mret 1);
  d ← vector_at (demand st) imax';
  r ← vector_at (result st) imax';
  mret (LoopState (<[imax' := double_sub d (double_of_Z reduce)]> (demand st))
                  (<[imax' := size_add r size']> (result st))
                  (size_add (assigned st) size')
                  size' imax').

Fixpoint assign_loop (fuel : nat) (chan_width : Z) (segment_inf : list t_segment_inf)
    (use_full_seg_groups : bool) (reduce : Z) (st : loop_state) : outcome loop_state :=
  if assigned st <? chan_width then
    match fuel with
    | O => OutOfFuel
    | S fuel' =>
        st' ← assign_once segment_inf use_full_seg_groups reduce st;
        assign_loop fuel' chan_width segment_inf use_full_seg_groups reduce st'
    end
  else Ret st.

(** "Undo last assignment if we were closer to goal without it". *)
Definition undo_last (chan_width : Z) (st : loop_state) : outcome (list Z) :=
  if size st / 2 <? size_sub (assigned st) chan_width then
    r ← vector_at (result st) (imax st);
    mret (<[imax st := size_sub r (size st)]> (result st))
  else Ret (result st).

Definition get_num_tracks_per_seg_type (fuel : nat) (chan_width : Z)
    (segment_inf : list t_segment_inf) (use_full_seg_groups : bool) : outcome (list Z) :=
  let '(scale, freq_sum) := scale_and_freq_sum segment_inf 1 0 in
  let reduce := size_mul scale freq_sum in
  let st0 := LoopState (map (init_demand scale chan_width use_full_seg_groups) segment_inf)
                       (map (fun _ => 0) segment_inf) 0 0 0%nat in
  st ← assign_loop fuel chan_width segment_inf use_full_seg_groups reduce st0;
  undo_last chan_width st.

(** The sizes one assignment can have: a declared length with full groups,
    1 otherwise. *)
Definition group_size (segment_inf : list t_segment_inf) (use_full_seg_groups : bool)
    (g : Z) : Prop :=
  if use_full_seg_groups then exists s, s ∈ segment_inf /\ g = Seg.length s else g = 1.

(** What holds of the loop state each time [assigned < chan_width] is
    tested: the counts are non-negative and add up to [assigned], and the
    last assignment, if there was one, started below the budget. *)
Record loop_invariant (chan_width : Z) (segment_inf : list t_segment_inf)
    (use_full_seg_groups : bool) (st : loop_state) : Prop := LoopInvariant {
  inv_result_size : List.length (result st) = List.length segment_inf;
  inv_demand_size : List.length (demand st) = List.length segment_inf;
  inv_nonneg : Forall (Z.le 0) (result st);
  inv_sum : sum_counts (result st) = assigned st;
  inv_imax : (imax st < List.length segment_inf)%nat;
  inv_last :
    size st = 0 \/
    (group_size segment_inf use_full_seg_groups (size st) /\ 0 < size st /\
     assigned st - size st < chan_width /\
     exists r, result st !! imax st = Some r /\ size st <= r)
}.

End Allocator.

(** ** Channel tracks: [ChanNodeDetails] *)

Inductive e_side : Type := TOP | RIGHT | BOTTOM | LEFT | NUM_SIDES.
Inductive e_direction : Type := INC_DIRECTION | DEC_DIRECTION | BI_DIRECTION.

Definition e_direction_eqb (a b : e_direction) : bool :=
  match a, b with
  | INC_DIRECTION, INC_DIRECTION | DEC_DIRECTION, DEC_DIRECTION
  | BI_DIRECTION, BI_DIRECTION => true
  | _, _ => false
  end.

Module ChanNodeDetails.

Record track : Type := Track {
  track_node_id : Z;
  track_direction : e_direction;
  seg_length : Z;
  track_start : bool;
  track_end : bool
}.

Definition t : Type := list track.

(** Modelled from the spec: the class [ChanNodeDetails] of
    [chan_node_details.h].  A channel is the ordered sequence of its tracks,
    each with {index, direction, effective length, isStart, isEnd};
    [add_track] appends one track. *)
Definition add_track (ch : t) (track_node_id : Z) (track_direction : e_direction)
    (seg_length : Z) (is_start is_end : bool) : t :=
  ch ++ [Track track_node_id track_direction seg_length is_start is_end].

(** Modelled from the spec: border override of [ChanNodeDetails], "all
    increasing tracks are forced to end-only and all decreasing tracks to
    start-only" on a forward side and the reverse on a backward side.
    [set_tracks_start d] makes every track of direction [d] start-only,
    [set_tracks_end d] makes every track of direction [d] end-only. *)
Definition set_tracks_start (d : e_direction) (ch : t) : t :=
  map (fun tr => if e_direction_eqb d (track_direction tr)
                 then Track (track_node_id tr) (track_direction tr) (seg_length tr) true false
                 else tr) ch.

Definition set_tracks_end (d : e_direction) (ch : t) : t :=
  map (fun tr => if e_direction_eqb d (track_direction tr)
                 then Track (track_node_id tr) (track_direction tr) (seg_length tr) false true
                 else tr) ch.

(** Modelled from the spec: [get_num_starting_tracks] of [ChanNodeDetails],
    "a node is created only for tracks flagged start". *)
Definition get_num_starting_tracks (ch : t) : Z :=
  Z.of_nat (List.length (filter (fun tr => track_start tr = true) ch)).

End ChanNodeDetails.

(** ** ChannelBuilder: [build_unidir_chan_node_details] *)

Module ChannelBuilder.
Import ChanNodeDetails.

(** The inner [for (itrack = 0; itrack < num_tracks[iseg]; ++itrack)]:
    [count] iterations remain, [itrack] is the 0-based position in the
    run.  [itrack % seg_len] with [seg_len = 0] is undefined. *)
Fixpoint add_track_pairs (count : nat) (itrack seg_len cur_track : Z)
    (chan_node_details : ChanNodeDetails.t) : outcome (Z * ChanNodeDetails.t) :=
  match count with
  | O => Ret (cur_track, chan_node_details)
  | S count' =>
      if seg_len =? 0 then Undefined
      else
        let seg_start := (itrack mod seg_len =? 0) in
        let ch1 := add_track chan_node_details cur_track INC_DIRECTION seg_len seg_start false in
        let cur1 := size_add cur_track 1 in
        let ch2 := add_track ch1 cur1 DEC_DIRECTION seg_len seg_start false in
        add_track_pairs count' (itrack + 1) seg_len (size_add cur1 1) ch2
  end.

(** "segment length will be set to maxium segment length if this is a
    longwire". *)
Definition effective_length (max_seg_length : Z) (seg : t_segment_inf) : Z :=
  if Seg.longline seg then max_seg_length else to_size_t (Seg.length seg).

(** The outer [for (iseg = 0; iseg < segment_inf.size(); ++iseg)]. *)
Fixpoint add_tracks (segment_inf : list t_segment_inf) (iseg : nat) (num_tracks : list Z)
    (max_seg_length cur_track : Z) (chan_node_details : ChanNodeDetails.t)
    : outcome (Z * ChanNodeDetails.t) :=
  match segment_inf with
  | [] => Ret (cur_track, chan_node_details)
  | seg :: rest =>
      n ← vector_at num_tracks iseg;
      '(cur_track', chan_node_details') ←
        add_track_pairs (Z.to_nat n) 0 (effective_length max_seg_length seg)
                        cur_track chan_node_details;
      add_tracks rest (S iseg) num_tracks max_seg_length cur_track' chan_node_details'
  end.

(** The [switch (device_side)] at the end.  Every enumerator of [e_side]
    has a case, so the [default] branch is not reachable from a value of
    the enumeration. *)
Definition apply_device_side (device_side : e_side) (ch : ChanNodeDetails.t) : ChanNodeDetails.t :=
  match device_side with
  | TOP | RIGHT => set_tracks_start DEC_DIRECTION (set_tracks_end INC_DIRECTION ch)
  | BOTTOM | LEFT => set_tracks_end DEC_DIRECTION (set_tracks_start INC_DIRECTION ch)
  | NUM_SIDES => ch
  end.

(** "Correct the chan_width: it should be an even number". *)
Definition round_up_to_even (chan_width : Z) : Z :=
  if chan_width mod 2 =? 0 then chan_width else size_add chan_width 1.

(** Tracks as they stand when [assert (cur_track == chan_width)] is
    reached: the final [cur_track] and the track list. *)
Definition build_tracks (fuel : nat) (chan_width max_seg_length : Z)
    (segment_inf : list t_segment_inf) : outcome (Z * ChanNodeDetails.t) :=
  num_tracks ← Allocator.get_num_tracks_per_seg_type fuel (chan_width / 2) segment_inf true;
  add_tracks segment_inf 0 num_tracks max_seg_length 0 [].

Definition build_unidir_chan_node_details (fuel : nat) (chan_width max_seg_length : Z)
    (device_side : e_side) (segment_inf : list t_segment_inf) : outcome ChanNodeDetails.t :=
  let chan_width := round_up_to_even chan_width in
  if negb (chan_width mod 2 =? 0) then Fatal
  else if chan_width =? 0 then Ret []
  else
    '(cur_track, chan_node_details) ← build_tracks fuel chan_width max_seg_length segment_inf;
    if cur_track =? chan_width
    then Ret (apply_device_side device_side chan_node_details)
    else Fatal.

(** Pairs allocated to the segment types before type [iseg]. *)
Definition pairs_before (num_tracks : list Z) (iseg : nat) : nat :=
  sum_list_with Z.to_nat (take iseg num_tracks).

End ChannelBuilder.

(** ** NodeCensus: [estimate_num_rr_nodes_per_type] and its helpers *)

(** [t_rr_type]: "SOURCE = 0, SINK, IPIN, OPIN, CHANX, CHANY,
    INTRA_CLUSTER_EDGE, NUM_RR_TYPES". *)
Inductive t_rr_type : Type :=
  SOURCE | SINK | IPIN | OPIN | CHANX | CHANY | INTRA_CLUSTER_EDGE.

Definition NUM_RR_TYPES : nat := 7.

Definition rr_type_index (t : t_rr_type) : nat :=
  match t with
  | SOURCE => 0 | SINK => 1 | IPIN => 2 | OPIN => 3
  | CHANX => 4 | CHANY => 5 | INTRA_CLUSTER_EDGE => 6
  end%nat.

Definition t_rr_type_eqb (a b : t_rr_type) : bool :=
  Nat.eqb (rr_type_index a) (rr_type_index b).

Module NodeCensus.

Inductive e_pin_type : Type := OPEN | DRIVER | RECEIVER.

Definition e_pin_type_eqb (a b : e_pin_type) : bool :=
  match a, b with
  | OPEN, OPEN | DRIVER, DRIVER | RECEIVER, RECEIVER => true
  | _, _ => false
  end.

(** Which type descriptor a [t_type_ptr] points to; [EMPTY_TYPE] and
    [IO_TYPE] are the two global descriptors the census compares with. *)
Inductive type_ident : Type := EMPTY_TYPE | IO_TYPE | BLOCK_TYPE (n : nat).

Definition type_ident_eqb (a b : type_ident) : bool :=
  match a, b with
  | EMPTY_TYPE, EMPTY_TYPE | IO_TYPE, IO_TYPE => true
  | BLOCK_TYPE n, BLOCK_TYPE m => Nat.eqb n m
  | _, _ => false
  end.

(** The fields of a type descriptor the census reads:
    [pinloc[height][side][pin]] and [pin_class[pin]]. *)
Record t_type_descriptor : Type := TypeDescriptor {
  ident : type_ident;
  num_pins : Z;
  height : Z;
  pinloc : nat -> e_side -> nat -> Z;
  pin_class : nat -> e_pin_type
}.

(** A [t_type_ptr]; [None] is the null pointer. *)
Definition t_type_ptr : Type := option t_type_descriptor.

Record t_grid_tile : Type := GridTile {
  type : t_type_ptr;
  offset : Z
}.

(** [global == p] for one of the two global descriptors. *)
Definition points_to (global : type_ident) (p : t_type_ptr) : bool :=
  match p with
  | Some d => type_ident_eqb global (ident d)
  | None => false
  end.

Record DeviceCoordinator : Type := Coordinator { get_x : Z; get_y : Z }.

(** [Side]: conversion between [e_side] and its position in the
    enumeration, as [Side(size_t)], [to_size_t()] and [get_side()] do. *)
Definition side_to_size_t (s : e_side) : Z :=
  match s with TOP => 0 | RIGHT => 1 | BOTTOM => 2 | LEFT => 3 | NUM_SIDES => 4 end.

Definition all_sides : list e_side := [TOP; RIGHT; BOTTOM; LEFT].

Definition determine_io_grid_pin_side (device_size grid_coordinator : DeviceCoordinator)
    : outcome e_side :=
  if get_y device_size =? get_y grid_coordinator then Ret BOTTOM
  else if get_x device_size =? get_x grid_coordinator then Ret LEFT
  else if 0 =? get_y grid_coordinator then Ret TOP
  else if 0 =? get_x grid_coordinator then Ret RIGHT
  else Fatal.

Definition get_grid_side_pins (ty : t_type_descriptor) (pin_type : e_pin_type)
    (pin_side : e_side) (pin_height : nat) : list nat :=
  List.filter
    (fun ipin => (pinloc ty pin_height pin_side ipin =? 1)
                 && e_pin_type_eqb pin_type (pin_class ty ipin))
    (seq 0 (Z.to_nat (num_pins ty))).

(** Pins of one side, summed over [height = 0 .. type->height - 1]. *)
Definition side_num_pins (ty : t_type_descriptor) (pin_type : e_pin_type)
    (side : e_side) (num_pins : Z) : Z :=
  fold_left
    (fun acc h => size_add acc (Z.of_nat (List.length (get_grid_side_pins ty pin_type side h))))
    (seq 0 (Z.to_nat (height ty))) num_pins.

(** The sides [get_grid_num_pins] does not skip. *)
Definition counted_sides (cur_grid : t_grid_tile) (io_side : e_side) : list e_side :=
  List.filter
    (fun side => negb (points_to IO_TYPE (type cur_grid)
                       && negb (side_to_size_t side =? side_to_size_t io_side)))
    all_sides.

Definition get_grid_num_pins (cur_grid : t_grid_tile) (pin_type : e_pin_type)
    (io_side : e_side) : outcome Z :=
  match type cur_grid with
  | None => Undefined
  | Some ty =>
      Ret (fold_left (fun acc side => side_num_pins ty pin_type side acc)
                     (counted_sides cur_grid io_side) 0)
  end.

(** [num_rr_nodes_per_type[t] += k]. *)
Definition counts_add (t : t_rr_type) (k : Z) (counts : list Z) : list Z :=
  alter (fun v => size_add v k) (rr_type_index t) counts.

Definition counts_get (t : t_rr_type) (counts : list Z) : Z :=
  default 0 (counts !! rr_type_index t).

(** [grid[ix][iy]] on the global [struct s_grid_tile **grid]. *)
Definition grid_at (grid : list (list t_grid_tile)) (ix iy : nat) : outcome t_grid_tile :=
  column ← vector_at grid ix; vector_at column iy.

(** The body of the pin-counting loops for the cell [(ix, iy)].  The tile
    is [grids[ix][iy]]; the IO test reads the global [grid[ix][iy]].  The
    source also builds [io_device_size(get_x() - 1, get_y() - 1)] here and
    does not use it: [determine_io_grid_pin_side] is called on
    [device_size]. *)
Definition count_cell_pins (device_size : DeviceCoordinator) (grid : list (list t_grid_tile))
    (ix iy : nat) (cell : t_grid_tile) (counts : list Z) : outcome (list Z) :=
  if points_to EMPTY_TYPE (type cell) then Ret counts
  else if 0 <? offset cell then Ret counts
  else
    global_cell ← grid_at grid ix iy;
    io_side ← (if points_to IO_TYPE (type global_cell)
               then determine_io_grid_pin_side device_size
                      (Coordinator (Z.of_nat ix) (Z.of_nat iy))
               else Ret NUM_SIDES);
    opins ← get_grid_num_pins cell DRIVER io_side;
    ipins ← get_grid_num_pins cell RECEIVER io_side;
    Ret (counts_add IPIN ipins (counts_add OPIN opins counts)).

Fixpoint count_column_pins (device_size : DeviceCoordinator) (grid : list (list t_grid_tile))
    (ix iy : nat) (column : list t_grid_tile) (counts : list Z) : outcome (list Z) :=
  match column with
  | [] => Ret counts
  | cell :: rest =>
      counts' ← count_cell_pins device_size grid ix iy cell counts;
      count_column_pins device_size grid ix (S iy) rest counts'
  end.

Fixpoint count_grid_pins (device_size : DeviceCoordinator) (grid : list (list t_grid_tile))
    (ix : nat) (grids : list (list t_grid_tile)) (counts : list Z) : outcome (list Z) :=
  match grids with
  | [] => Ret counts
  | column :: rest =>
      counts' ← count_column_pins device_size grid ix 0 column counts;
      count_grid_pins device_size grid (S ix) rest counts'
  end.

(** Number of passes of [for (i = first; i < bound; ++i)] on [size_t]. *)
Definition trip_count (first bound : Z) : N := Z.to_N (bound - first).

(** A loop whose body is [num_rr_nodes_per_type[t] += k]. *)
Definition add_each_trip (trips : N) (t : t_rr_type) (k : Z) (counts : list Z) : list Z :=
  N.iter trips (counts_add t k) counts.

(** The core loops
    [for (ix = 1; ix < grids.size() - 2; ++ix)
       for (iy = 1; iy < grids[ix].size() - 2; ++iy) counts[t] += k].
    [columns] are the columns from index [ix] on; reading [grids[ix]]
    past the end is undefined. *)
Fixpoint add_core (columns : list (list t_grid_tile)) (ix bound : Z)
    (t : t_rr_type) (k : Z) (counts : list Z) : outcome (list Z) :=
  if ix <? bound then
    match columns with
    | [] => Undefined
    | column :: rest =>
        add_core rest (ix + 1) bound t k
          (add_each_trip (trip_count 1 (size_sub (Z.of_nat (List.length column)) 2)) t k counts)
    end
  else Ret counts.

Definition add_core_channels (grids : list (list t_grid_tile))
    (t : t_rr_type) (k : Z) (counts : list Z) : outcome (list Z) :=
  add_core (drop 1 grids) 1 (size_sub (Z.of_nat (List.length grids)) 2) t k counts.

(** Part 1 of the census: OPIN and IPIN, then SOURCE and SINK. *)
Definition count_pins (device_size : DeviceCoordinator)
    (grid grids : list (list t_grid_tile)) : outcome (list Z) :=
  counts ← count_grid_pins device_size grid 0 grids (replicate NUM_RR_TYPES 0);
  let counts := <[rr_type_index SOURCE := counts_get OPIN counts]> counts in
  Ret (<[rr_type_index SINK := counts_get IPIN counts]> counts).

(** Part 2 of the census: CHANX and CHANY. *)
Definition count_channels (fuel : nat) (device_size : DeviceCoordinator)
    (grids : list (list t_grid_tile)) (chan_width : list Z)
    (segment_infs : list t_segment_inf) (counts : list Z) : outcome (list Z) :=
  let build := ChannelBuilder.build_unidir_chan_node_details fuel in
  let starts := ChanNodeDetails.get_num_starting_tracks in
  let rows := trip_count 0 (size_sub (get_y device_size) 1) in
  let cols := trip_count 0 (size_sub (get_x device_size) 1) in
  let max_x := size_sub (get_x device_size) 2 in
  let max_y := size_sub (get_y device_size) 2 in
  w0 ← vector_at chan_width 0;
  left_chanx_details ← build w0 max_x LEFT segment_infs;
  let counts := add_each_trip rows CHANX (starts left_chanx_details) counts in
  w0 ← vector_at chan_width 0;
  right_chanx_details ← build w0 max_x RIGHT segment_infs;
  let counts := add_each_trip rows CHANX (starts right_chanx_details) counts in
  w1 ← vector_at chan_width 1;
  core_chanx_details ← build w1 max_x NUM_SIDES segment_infs;
  counts ← add_core_channels grids CHANX (starts core_chanx_details) counts;
  w1 ← vector_at chan_width 1;
  top_chany_details ← build w1 max_y TOP segment_infs;
  let counts := add_each_trip cols CHANY (starts top_chany_details) counts in
  w1 ← vector_at chan_width 1;
  bottom_chany_details ← build w1 max_y BOTTOM segment_infs;
  let counts := add_each_trip cols CHANY (starts bottom_chany_details) counts in
  w1 ← vector_at chan_width 1;
  core_chany_details ← build w1 max_y NUM_SIDES segment_infs;
  add_core_channels grids CHANY (starts core_chany_details) counts.

(** [grid] is the global tile array the IO test reads ([grid[ix][iy]]);
    [grids] is the function's own argument. *)
Definition estimate_num_rr_nodes_per_type (fuel : nat) (device_size : DeviceCoordinator)
    (grid grids : list (list t_grid_tile)) (chan_width : list Z)
    (segment_infs : list t_segment_inf) : outcome (list Z) :=
  counts ← count_pins device_size grid grids;
  count_channels fuel device_size grids chan_width segment_infs counts.

End NodeCensus.

(** ** GraphAssembler: [build_tileable_unidir_rr_graph] *)

Module GraphAssembler.
Import NodeCensus.

(** A routing-resource node, by its category tag.  [my_calloc] hands out
    nodes whose bytes are all zero, that is, of category [SOURCE = 0]. *)
Record t_rr_node : Type := RRNode { rr_type : t_rr_type }.

Definition zeroed_rr_node : t_rr_node := RRNode SOURCE.

(** The fields of [t_rr_graph] the assembler sets; [None] is [NULL]. *)
Record t_rr_graph : Type := RRGraph {
  rr_node_indices : option unit;
  rr_node : option (list t_rr_node);
  num_rr_nodes : Z
}.

(** A [t_grid_tile] as [std::vector::resize] creates it. *)
Definition value_initialized_tile : t_grid_tile := GridTile None 0.

Definition INT_MAX : Z := 2 ^ 31 - 1.

(** [grid[ix][iy] = tile] on the global array. *)
Definition grid_store (grid : list (list t_grid_tile)) (ix iy : Z) (tile : t_grid_tile)
    : outcome (list (list t_grid_tile)) :=
  if (ix <? 0) || (iy <? 0) then Undefined
  else
    column ← vector_at grid (Z.to_nat ix);
    _ ← vector_at column (Z.to_nat iy);
    Ret (<[Z.to_nat ix := <[Z.to_nat iy := tile]> column]> grid).

Definition raw_grid_at (grid : list (list t_grid_tile)) (ix iy : Z) : outcome t_grid_tile :=
  if (ix <? 0) || (iy <? 0) then Undefined
  else grid_at grid (Z.to_nat ix) (Z.to_nat iy).

(** The inner loop, as written:
    [for (int iy = 0; ix < (L_ny + 2); ++iy) grid[ix][iy] = L_grid[ix][iy];]
    The test is on [ix]; the assignment goes to the global [grid]. *)
Fixpoint copy_column (fuel : nat) (L_ny ix iy : Z) (L_grid grid : list (list t_grid_tile))
    : outcome (list (list t_grid_tile)) :=
  if ix <? L_ny + 2 then
    match fuel with
    | O => OutOfFuel
    | S fuel' =>
        tile ← raw_grid_at L_grid ix iy;
        grid' ← grid_store grid ix iy tile;
        if iy =? INT_MAX then Undefined
        else copy_column fuel' L_ny ix (iy + 1) L_grid grid'
    end
  else Ret grid.

(** [v.resize(n)] with an [int] argument.  A negative [n] converts to a
    [size_t] above [max_size()]: [resize] throws [std::length_error], which
    nothing catches, and the run is terminated. *)
Definition resize_count (n : Z) : outcome nat :=
  if n <? 0 then Fatal else Ret (Z.to_nat n).

(** The outer loop [for (int ix = 0; ix < (L_nx + 2); ++ix)], with
    [count] passes left.  The state is the local [grids] and the global
    [grid]. *)
Fixpoint fill_columns (count fuel : nat) (L_ny ix : Z) (L_grid : list (list t_grid_tile))
    (grids grid : list (list t_grid_tile))
    : outcome (list (list t_grid_tile) * list (list t_grid_tile)) :=
  match count with
  | O => Ret (grids, grid)
  | S count' =>
      _ ← vector_at grids (Z.to_nat ix);
      rows ← resize_count (L_ny + 2);
      let grids' := <[Z.to_nat ix := replicate rows value_initialized_tile]> grids in
      grid' ← copy_column fuel L_ny ix 0 L_grid grid;
      fill_columns count' fuel L_ny (ix + 1) L_grid grids' grid'
  end.

(** "Create a matrix of grid": returns the local [grids] and the global
    [grid] as the loops leave them. *)
Definition build_grids (fuel : nat) (L_nx L_ny : Z) (L_grid grid : list (list t_grid_tile))
    : outcome (list (list t_grid_tile) * list (list t_grid_tile)) :=
  columns ← resize_count (L_nx + 2);
  let grids := replicate columns ([] : list t_grid_tile) in
  fill_columns (Z.to_nat (L_nx + 2)) fuel L_ny 0 L_grid grids grid.

(** [segment_infs.push_back(segment_inf[iseg])] for [iseg < num_seg_types]. *)
Definition copy_segments (segment_inf : list t_segment_inf) (num_seg_types : Z)
    : outcome (list t_segment_inf) :=
  if Z.of_nat (List.length segment_inf) <? num_seg_types then Undefined
  else Ret (take (Z.to_nat num_seg_types) segment_inf).

(** The loop [rr_graph.num_rr_nodes += num_rr_nodes_per_type[i]], from 0;
    the right operand is a [size_t], so each addition is one of [size_t]. *)
Definition sum_node_counts (num_rr_nodes_per_type : list Z) : Z :=
  fold_left size_add num_rr_nodes_per_type 0.

(** Step "3. Allocate the rr_nodes": the count, then [my_calloc]. *)
Definition allocate_rr_nodes (num_rr_nodes_per_type : list Z) (rr_graph : t_rr_graph)
    : t_rr_graph :=
  let num := sum_node_counts num_rr_nodes_per_type in
  RRGraph (rr_node_indices rr_graph)
          (Some (replicate (Z.to_nat num) zeroed_rr_node))
          num.

Definition empty_rr_graph : t_rr_graph := RRGraph None None 0.

Section Collaborators.
(** Functions defined elsewhere in the router, and the two warning
    constants; none of them is handed the local [rr_graph]. *)
Context {Fc directs_table : Type}.
Variable alloc_and_load_actual_fc : Z -> bool -> Fc * bool.
Variable alloc_and_load_clb_to_clb_directs : Z -> directs_table.
Variables RR_GRAPH_NO_WARN RR_GRAPH_WARN_FC_CLIPPED : Z.

(** Everything after the allocation: the two Fc tables, the direct
    connections, and the returned graph with the warning word.
    [rr_graph_externals] fills the router's global cost tables and returns
    nothing; like the others it has no access to [rr_graph]. *)
Definition finish_rr_graph (chan_width num_directs : Z) (rr_graph : t_rr_graph)
    (Warnings : Z) : t_rr_graph * Z :=
  let '(Fc_in, Fc_clipped) := alloc_and_load_actual_fc chan_width false in
  let Warnings := if Fc_clipped then Z.lor Warnings RR_GRAPH_WARN_FC_CLIPPED else Warnings in
  let '(Fc_out, Fc_clipped) := alloc_and_load_actual_fc chan_width true in
  let clb_to_clb_directs :=
    if 0 <? num_directs then Some (alloc_and_load_clb_to_clb_directs num_directs) else None in
  (rr_graph, Warnings).

(** From the census to the returned graph, for given [grids]. *)
Definition census_and_allocate (fuel : nat) (L_nx L_ny : Z)
    (grid grids : list (list t_grid_tile)) (chan_width : Z)
    (segment_inf : list t_segment_inf) (num_seg_types num_directs : Z)
    : outcome (t_rr_graph * Z) :=
  let device_size := Coordinator (to_size_t (L_nx + 2)) (to_size_t (L_ny + 2)) in
  let device_chan_width := [to_size_t chan_width; to_size_t chan_width] in
  segment_infs ← copy_segments segment_inf num_seg_types;
  num_rr_nodes_per_type ←
    estimate_num_rr_nodes_per_type fuel device_size grid grids device_chan_width segment_infs;
  let rr_graph := allocate_rr_nodes num_rr_nodes_per_type empty_rr_graph in
  Ret (finish_rr_graph chan_width num_directs rr_graph RR_GRAPH_NO_WARN).

Definition build_tileable_unidir_rr_graph (fuel : nat) (L_nx L_ny : Z)
    (L_grid grid : list (list t_grid_tile)) (chan_width : Z)
    (segment_inf : list t_segment_inf) (num_seg_types num_directs : Z)
    : outcome (t_rr_graph * Z) :=
  '(grids, grid') ← build_grids fuel L_nx L_ny L_grid grid;
  census_and_allocate fuel L_nx L_ny grid' grids chan_width segment_inf
                      num_seg_types num_directs.
End Collaborators.

(** Number of nodes of one category in the node array. *)
Definition count_nodes_of_type (t : t_rr_type) (rr_graph : t_rr_graph) : Z :=
  match rr_node rr_graph with
  | Some nodes =>
      Z.of_nat (List.length (List.filter (fun n => t_rr_type_eqb t (rr_type n)) nodes))
  | None => 0
  end.

End GraphAssembler.

(** ** MuxPathResolver and MuxBitstreamEncoder *)

Module Mux.

Inductive e_spice_model_design_tech : Type :=
| SPICE_MODEL_DESIGN_CMOS
| SPICE_MODEL_DESIGN_RRAM
| NUM_CIRCUIT_MODEL_DESIGN_TECH_TYPES.

(** What the encoder asks the circuit library about a model. *)
Record circuit_model : Type := CircuitModel {
  design_tech_type : e_spice_model_design_tech;
  mux_add_const_input : bool
}.

(** Modelled from the spec: [find_mux_implementation_num_inputs] of
    [mux_utils], "implemented size (declared size, incremented by one if
    the model adds a constant input)". *)
Definition find_mux_implementation_num_inputs (mux_model : circuit_model) (mux_size : Z) : Z :=
  if mux_add_const_input mux_model then size_add mux_size 1 else mux_size.

Section Encoder.
(** The two macros, the graph library and the operations of [MuxGraph]
    the encoder calls. *)
Variables DEFAULT_PATH_ID DEFAULT_MUX_PATH_ID : Z.
Context {MuxGraph MuxOutputId : Type}.
Variable mux_lib : circuit_model -> Z -> option MuxGraph.
Variable outputs : MuxGraph -> list MuxOutputId.
Variable decode_memory_bits : MuxGraph -> Z -> MuxOutputId -> list bool.

Definition find_mux_default_path_id (mux_model : circuit_model) (mux_size : Z) : Z :=
  if mux_add_const_input mux_model then mux_size
  else to_size_t DEFAULT_MUX_PATH_ID.

(** Modelled from the spec: [MuxLibrary::mux_graph], "look up the cached
    MuxGraph for (model, implementedSize) from the shared library (fatal
    if absent)". *)
Definition lookup_mux_graph (mux_model : circuit_model) (implemented_mux_size : Z)
    : outcome MuxGraph :=
  match mux_lib mux_model implemented_mux_size with
  | Some g => Ret g
  | None => Fatal
  end.

(** "Find the path_id related to the implementation": the value of
    [datapath_id] after the [if] / [else], with its assertion. *)
Definition resolve_datapath_id (mux_model : circuit_model) (mux_size path_id : Z)
    : outcome Z :=
  let implemented_mux_size := find_mux_implementation_num_inputs mux_model mux_size in
  let datapath_id := to_size_t path_id in
  if DEFAULT_PATH_ID =? path_id
  then Ret (find_mux_default_path_id mux_model implemented_mux_size)
  else if datapath_id <? mux_size then Ret datapath_id else Fatal.

Definition build_cmos_mux_bitstream (mux_model : circuit_model) (mux_size path_id : Z)
    : outcome (list bool) :=
  let implemented_mux_size := find_mux_implementation_num_inputs mux_model mux_size in
  mux_graph ← lookup_mux_graph mux_model implemented_mux_size;
  datapath_id ← resolve_datapath_id mux_model mux_size path_id;
  match outputs mux_graph with
  | [out] => Ret (decode_memory_bits mux_graph datapath_id out)
  | _ => Fatal
  end.

Definition build_mux_bitstream (mux_model : circuit_model) (mux_size path_id : Z)
    : outcome (list bool) :=
  match design_tech_type mux_model with
  | SPICE_MODEL_DESIGN_CMOS => build_cmos_mux_bitstream mux_model mux_size path_id
  | SPICE_MODEL_DESIGN_RRAM => Ret []
  | NUM_CIRCUIT_MODEL_DESIGN_TECH_TYPES => Fatal
  end.
End Encoder.

End Mux.

(** ** Further vocabulary *)

(** With full groups every type holds whole groups: each count is a
    multiple of the type's declared length, and the last assignment had the
    length of the type it went to. *)
Definition whole_groups (segment_inf : list t_segment_inf) (st : Allocator.loop_state) : Prop :=
  Forall2 (fun r seg => exists k, 0 <= k /\ r = k * Seg.length seg)
          (Allocator.result st) segment_inf /\
  (Allocator.size st = 0 \/
   exists seg, segment_inf !! Allocator.imax st = Some seg /\
               Allocator.size st = Seg.length seg).

(** The vectors of the loop keep one entry per segment type and [imax]
    stays a valid index. *)
Definition indices_in_range (segment_inf : list t_segment_inf) (st : Allocator.loop_state) : Prop :=
  List.length (Allocator.demand st) = List.length segment_inf /\
  List.length (Allocator.result st) = List.length segment_inf /\
  (Allocator.imax st < List.length segment_inf)%nat.

(** The channel part of the census leaves every entry but CHANX and CHANY
    as it was. *)
Definition keeps_pin_counts (counts counts' : list Z) : Prop :=
  List.length counts' = List.length counts /\
  forall i, i <> rr_type_index CHANX -> i <> rr_type_index CHANY ->
            counts' !! i = counts !! i.

(** The pins of one class on the given sides of a type, over all heights,
    as an exact integer. *)
Definition exact_grid_num_pins (ty : NodeCensus.t_type_descriptor)
    (pin_type : NodeCensus.e_pin_type) (sides : list e_side) : Z :=
  sum_counts
    (map (fun side =>
            sum_counts
              (map (fun h => Z.of_nat (List.length
                                         (NodeCensus.get_grid_side_pins ty pin_type side h)))
                   (seq 0 (Z.to_nat (NodeCensus.height ty)))))
         sides).

(** ** Example devices *)

Module Examples.
Import NodeCensus.

Definition empty_type : t_type_descriptor :=
  TypeDescriptor EMPTY_TYPE 0 0 (fun _ _ _ => 0) (fun _ => OPEN).

(** An IO block with one driver pin (pin 0) and one receiver pin (pin 1),
    both present on every side. *)
Definition io_type : t_type_descriptor :=
  TypeDescriptor IO_TYPE 2 1 (fun _ _ _ => 1)
                 (fun ipin => if Nat.eqb ipin 0 then DRIVER else RECEIVER).

(** A logic block with one driver pin on its top side and one receiver pin
    on its left side. *)
Definition clb_type : t_type_descriptor :=
  TypeDescriptor (BLOCK_TYPE 0) 2 1
                 (fun _ side ipin =>
                    match side, ipin with
                    | TOP, O => 1
                    | LEFT, S O => 1
                    | _, _ => 0
                    end)
                 (fun ipin => if Nat.eqb ipin 0 then DRIVER else RECEIVER).

Definition empty_tile : t_grid_tile := GridTile (Some empty_type) 0.
Definition io_tile : t_grid_tile := GridTile (Some io_type) 0.
Definition clb_tile : t_grid_tile := GridTile (Some clb_type) 0.

(** [L_nx = L_ny = 1]: one logic block, IO blocks on the four edges, empty
    corners.  Indexed [[ix][iy]]. *)
Definition io_ring_3x3 : list (list t_grid_tile) :=
  [ [empty_tile; io_tile; empty_tile];
    [io_tile; clb_tile; io_tile];
    [empty_tile; io_tile; empty_tile] ].

(** [L_nx = L_ny = 1] with the logic block only. *)
Definition lone_clb_3x3 : list (list t_grid_tile) :=
  [ [empty_tile; empty_tile; empty_tile];
    [empty_tile; clb_tile; empty_tile];
    [empty_tile; empty_tile; empty_tile] ].

(** [L_nx = L_ny = 2], no blocks at all. *)
Definition empty_4x4 : list (list t_grid_tile) := replicate 4 (replicate 4 empty_tile).

(** [L_nx = L_ny = 0]. *)
Definition empty_2x2 : list (list t_grid_tile) := replicate 2 (replicate 2 empty_tile).

Definition unit_segments : list t_segment_inf := [Seg.Build 1 1 false].

(** [L_nx = L_ny = 1] with IO blocks in column 0 and in row 0 only. *)
Definition io_low_edges_3x3 : list (list t_grid_tile) :=
  [ [empty_tile; io_tile; empty_tile];
    [io_tile; clb_tile; empty_tile];
    [empty_tile; empty_tile; empty_tile] ].

(** The channel the builder returns for width 12 on the left border, with
    a type of length 2 and a longline type, the fallback maximum being 3. *)
Definition left_channel_of_width_12 : ChanNodeDetails.t :=
  Eval vm_compute in
    match ChannelBuilder.build_unidir_chan_node_details
            6 12 3 LEFT [Seg.Build 1 2 false; Seg.Build 1 4 true] with
    | Ret chan_node_details => chan_node_details
    | _ => []
    end.

End Examples.

(** * Properties *)

(** ** Size arithmetic and vectors *)

Lemma to_size_t_small (z : Z) : 0 <= z < SIZE_T_MODULUS -> to_size_t z = z.
Proof. intros H. unfold to_size_t. now apply Z.mod_small. Qed.

Lemma to_size_t_range (z : Z) : 0 <= to_size_t z < SIZE_T_MODULUS.
Proof. unfold to_size_t, SIZE_T_MODULUS. apply Z.mod_pos_bound. lia. Qed.

Lemma size_add_small (a b : Z) : 0 <= a + b < SIZE_T_MODULUS -> size_add a b = a + b.
Proof. apply to_size_t_small. Qed.

Lemma size_sub_small (a b : Z) : 0 <= a - b < SIZE_T_MODULUS -> size_sub a b = a - b.
Proof. apply to_size_t_small. Qed.

Lemma bind_Ret {A B : Type} (a : A) (f : A -> outcome B) : (Ret a ≫= f) = f a.
Proof. reflexivity. Qed.

Lemma fuel_stable_const {A : Type} (m : outcome A) : fuel_stable (fun _ => m).
Proof. intros fuel extra r H _. exact H. Qed.

Lemma fuel_stable_bind {A B : Type} (f : nat -> outcome A) (g : A -> nat -> outcome B) :
  fuel_stable f -> (forall a, fuel_stable (g a)) ->
  fuel_stable (fun fuel => f fuel ≫= fun a => g a fuel).
Proof.
  unfold fuel_stable. intros Hf Hg fuel extra r H Hr.
  destruct (f fuel) as [a| | |] eqn:E; simpl in H.
  - rewrite (Hf fuel extra (Ret a) E) by discriminate. simpl. now apply Hg.
  - rewrite (Hf fuel extra Fatal E) by discriminate. exact H.
  - rewrite (Hf fuel extra Undefined E) by discriminate. exact H.
  - congruence.
Qed.

Lemma vector_at_Some {A : Type} (v : list A) (i : nat) (a : A) :
  v !! i = Some a -> vector_at v i = Ret a.
Proof. intros H. unfold vector_at. now rewrite H. Qed.

Lemma sum_counts_insert (l : list Z) (i : nat) (x y : Z) :
  l !! i = Some x -> sum_counts (<[i := y]> l) = sum_counts l - x + y.
Proof.
  revert i. induction l as [|a l IH]; intros [|i] H; simpl in *; try discriminate.
  - injection H as ->. lia.
  - rewrite (IH i H). lia.
Qed.

Lemma lookup_le_sum_counts (l : list Z) (i : nat) (x : Z) :
  Forall (Z.le 0) l -> l !! i = Some x -> x <= sum_counts l.
Proof.
  intros Hall. revert i. induction Hall as [|a l Ha Hall IH]; intros [|i] H;
    simpl in *; try discriminate.
  - injection H as ->.
    assert (0 <= sum_counts l) by (clear -Hall; induction Hall; simpl; lia). lia.
  - specialize (IH i H). lia.
Qed.

Lemma sum_counts_zeros {A : Type} (l : list A) : sum_counts (map (fun _ => 0) l) = 0.
Proof. induction l; simpl; lia. Qed.

(** ** SegmentAllocator *)

Module AllocatorFacts.
Import Allocator.

Lemma find_max_demand_bound (demand : list double) (iseg : nat) (max : double) (imax : nat) :
  find_max_demand demand iseg max imax = imax \/
  (iseg <= find_max_demand demand iseg max imax < iseg + List.length demand)%nat.
Proof.
  revert iseg max imax. induction demand as [|d rest IH]; intros iseg max imax; simpl.
  - now left.
  - destruct (IH (S iseg) (std_max d max) (if double_lt max d then iseg else imax)) as [E|B].
    + rewrite E. destruct (double_lt max d); [right; lia | now left].
    + right. lia.
Qed.

(** More fuel does not change an outcome that did not run out of it. *)
Lemma assign_loop_more_fuel (W : Z) (segment_inf : list t_segment_inf)
    (use_full_seg_groups : bool) (reduce : Z) (fuel extra : nat) :
  forall (st : loop_state) (r : outcome loop_state),
    assign_loop fuel W segment_inf use_full_seg_groups reduce st = r ->
    r <> OutOfFuel ->
    assign_loop (fuel + extra) W segment_inf use_full_seg_groups reduce st = r.
Proof.
  induction fuel as [|fuel IH]; intros st r H Hr.
  - simpl in H. destruct (assigned st <? W) eqn:E; [congruence|].
    destruct extra; simpl; rewrite E; exact H.
  - simpl in *. destruct (assigned st <? W); [|exact H].
    destruct (assign_once segment_inf use_full_seg_groups reduce st) as [st1| | |];
      try exact H.
    simpl in *. now apply IH.
Qed.

Lemma get_num_tracks_more_fuel (fuel extra : nat) (W : Z) (segment_inf : list t_segment_inf)
    (use_full_seg_groups : bool) (r : outcome (list Z)) :
  get_num_tracks_per_seg_type fuel W segment_inf use_full_seg_groups = r ->
  r <> OutOfFuel ->
  get_num_tracks_per_seg_type (fuel + extra) W segment_inf use_full_seg_groups = r.
Proof.
  unfold get_num_tracks_per_seg_type.
  destruct (scale_and_freq_sum segment_inf 1 0) as [scale freq_sum].
  intros H Hr.
  destruct (assign_loop fuel W segment_inf use_full_seg_groups _ _) as [st| | |] eqn:E;
    try (rewrite (assign_loop_more_fuel _ _ _ _ _ extra _ _ E) by discriminate; exact H).
  simpl in H. congruence.
Qed.

(** The allocator never changes the size of [result]. *)
Lemma assign_once_result_size (segment_inf : list t_segment_inf) (use_full_seg_groups : bool)
    (reduce : Z) (st st' : loop_state) :
  assign_once segment_inf use_full_seg_groups reduce st = Ret st' ->
  List.length (result st') = List.length (result st).
Proof.
  unfold assign_once. intros H.
  destruct (if use_full_seg_groups then _ else _) as [g| | |]; try discriminate.
  simpl in H. destruct (vector_at (demand st) _) as [d| | |]; try discriminate.
  simpl in H. destruct (vector_at (result st) _) as [r| | |]; try discriminate.
  simpl in H. injection H as <-. simpl. apply length_insert.
Qed.

Lemma assign_loop_result_size (W : Z) (segment_inf : list t_segment_inf)
    (use_full_seg_groups : bool) (reduce : Z) (fuel : nat) :
  forall st st',
    assign_loop fuel W segment_inf use_full_seg_groups reduce st = Ret st' ->
    List.length (result st') = List.length (result st).
Proof.
  induction fuel as [|fuel IH]; intros st st' H; simpl in H;
    destruct (assigned st <? W); try discriminate; try (injection H as <-; reflexivity).
  destruct (assign_once segment_inf use_full_seg_groups reduce st) as [st1| | |] eqn:E;
    try discriminate.
  simpl in H. rewrite (IH _ _ H). eapply assign_once_result_size; eassumption.
Qed.

Lemma get_num_tracks_result_size (fuel : nat) (W : Z) (segment_inf : list t_segment_inf)
    (use_full_seg_groups : bool) (num_tracks : list Z) :
  get_num_tracks_per_seg_type fuel W segment_inf use_full_seg_groups = Ret num_tracks ->
  List.length num_tracks = List.length segment_inf.
Proof.
  unfold get_num_tracks_per_seg_type.
  destruct (scale_and_freq_sum segment_inf 1 0) as [scale freq_sum]. intros H.
  destruct (assign_loop fuel W segment_inf use_full_seg_groups _ _) as [st| | |] eqn:E;
    try discriminate.
  apply assign_loop_result_size in E. simpl in E, H. rewrite List.length_map in E.
  unfold undo_last in H. destruct (_ <? _).
  - destruct (vector_at (result st) (imax st)); try discriminate.
    simpl in H. injection H as <-. now rewrite length_insert.
  - injection H as <-. exact E.
Qed.

Section Loop.
Variables (W : Z) (segment_inf : list t_segment_inf) (use_full_seg_groups : bool).
Variable reduce : Z.
Hypothesis W_pos : 0 < W.
Hypothesis W_room : W + 1 <= SIZE_T_MODULUS.
Hypothesis lengths_ok :
  Forall (fun s => 0 < Seg.length s /\ W + Seg.length s <= SIZE_T_MODULUS) segment_inf.

Local Abbreviation group := (group_size segment_inf use_full_seg_groups).
Local Abbreviation invariant := (loop_invariant W segment_inf use_full_seg_groups).

Lemma group_size_bounds (g : Z) : group g -> 0 < g /\ W + g <= SIZE_T_MODULUS.
Proof.
  unfold group_size. destruct use_full_seg_groups.
  - intros (s & Hin & ->). rewrite Forall_forall in lengths_ok. now apply lengths_ok.
  - intros ->. lia.
Qed.

Lemma assign_once_spec (st : loop_state) :
  invariant st -> assigned st < W ->
  exists st', assign_once segment_inf use_full_seg_groups reduce st = Ret st' /\
              invariant st' /\ assigned st' = assigned st + size st' /\
              0 < size st'.
Proof.
  intros [Hr Hd Hnn Hsum Himax Hlast] Hlt.
  unfold assign_once.
  set (j := find_max_demand (demand st) 0 (S754_zero false) (imax st)).
  assert (Hj : (j < List.length segment_inf)%nat).
  { destruct (find_max_demand_bound (demand st) 0 (S754_zero false) (imax st)) as [E|B];
      fold j in E || fold j in B; lia. }
  destruct (lookup_lt_is_Some_2 segment_inf j Hj) as [seg Hseg].
  destruct (lookup_lt_is_Some_2 (demand st) j ltac:(lia)) as [d Hdj].
  destruct (lookup_lt_is_Some_2 (result st) j ltac:(lia)) as [r Hrj].
  set (g := if use_full_seg_groups then to_size_t (Seg.length seg) else 1).
  assert (Hg : group g /\ g = (if use_full_seg_groups then Seg.length seg else 1)).
  { unfold g, group_size. destruct use_full_seg_groups; [|auto].
    assert (Hs : 0 < Seg.length seg /\ W + Seg.length seg <= SIZE_T_MODULUS).
    { rewrite Forall_forall in lengths_ok. apply lengths_ok.
      eapply list_elem_of_lookup_2; eauto. }
    rewrite to_size_t_small by lia. split; [|reflexivity].
    exists seg. split; [eapply list_elem_of_lookup_2; eauto | reflexivity]. }
  destruct Hg as [Hg _]. destruct (group_size_bounds g Hg) as [Hg0 Hg1].
  assert (Hrle : 0 <= r <= assigned st).
  { split.
    - rewrite Forall_forall in Hnn. apply Hnn. eapply list_elem_of_lookup_2; eauto.
    - rewrite <- Hsum. eapply lookup_le_sum_counts; eauto. }
  exists (LoopState (<[j := double_sub d (double_of_Z reduce)]> (demand st))
                    (<[j := r + g]> (result st)) (assigned st + g) g j).
  split; [|split; [|split; [reflexivity|assumption]]].
  - replace (if use_full_seg_groups
             then seg0 ← vector_at segment_inf j; mret (to_size_t (Seg.length seg0))
             else mret 1) with (Ret g : outcome Z).
    2:{ unfold g. destruct use_full_seg_groups; [|reflexivity].
        now rewrite (vector_at_Some _ _ _ Hseg). }
    rewrite bind_Ret, (vector_at_Some _ _ _ Hdj), bind_Ret,
      (vector_at_Some _ _ _ Hrj), bind_Ret.
    rewrite !size_add_small by lia. reflexivity.
  - constructor; simpl.
    + now rewrite length_insert.
    + now rewrite length_insert.
    + apply Forall_insert; [assumption | lia].
    + rewrite (sum_counts_insert _ _ _ _ Hrj). lia.
    + assumption.
    + right. repeat split; try assumption; try lia.
      exists (r + g). split; [|lia].
      apply list_lookup_insert_eq. lia.
Qed.

Lemma assign_loop_spec (fuel : nat) (st : loop_state) :
  invariant st -> (Z.to_nat (W - assigned st) <= fuel)%nat ->
  exists st', assign_loop fuel W segment_inf use_full_seg_groups reduce st = Ret st' /\
              invariant st' /\ W <= assigned st' /\
              (st' = st \/ 0 < size st').
Proof.
  revert st. induction fuel as [|fuel IH]; intros st Hinv Hfuel.
  - exists st. simpl. destruct (assigned st <? W) eqn:E; [apply Z.ltb_lt in E; lia|].
    apply Z.ltb_ge in E. auto.
  - simpl. destruct (assigned st <? W) eqn:E.
    + apply Z.ltb_lt in E.
      destruct (assign_once_spec st Hinv E) as (st1 & Hstep & Hinv1 & Hassigned & Hsize1).
      rewrite Hstep, bind_Ret.
      destruct (IH st1 Hinv1 ltac:(lia)) as (st' & Hloop & Hinv' & Hge & Hor).
      exists st'. split; [assumption|]. split; [assumption|]. split; [assumption|].
      right. destruct Hor as [->|]; assumption.
    + apply Z.ltb_ge in E. exists st. auto.
Qed.
End Loop.

End AllocatorFacts.

Lemma Forall_nonneg_zeros {A : Type} (l : list A) : Forall (Z.le 0) (map (fun _ => 0) l).
Proof. induction l; simpl; constructor; [lia | assumption]. Qed.

(** C2.  For every positive track budget [W] and every non-empty segment
    list with positive lengths (and [W] plus a length within [size_t]), the
    allocator returns, as soon as the fuel covers [W] loop passes, one count
    per segment type; the counts are non-negative and their sum is within
    one group size [g] of [W] (indeed within [g / 2], because of the undo
    step), where [g] is the size of an assignment: a declared length with
    full groups, and 1 otherwise.  When every group size is 1 the sum is
    exactly [W]. *)
Theorem get_num_tracks_per_seg_type_sum_within_group
    (W : Z) (segment_inf : list t_segment_inf) (use_full_seg_groups : bool) (fuel : nat) :
  0 < W ->
  segment_inf <> [] ->
  Forall (fun s => 0 < Seg.length s /\ W + Seg.length s <= SIZE_T_MODULUS) segment_inf ->
  (Z.to_nat W <= fuel)%nat ->
  exists num_tracks g,
    Allocator.get_num_tracks_per_seg_type fuel W segment_inf use_full_seg_groups
      = Ret num_tracks /\
    List.length num_tracks = List.length segment_inf /\
    Forall (Z.le 0) num_tracks /\
    Allocator.group_size segment_inf use_full_seg_groups g /\
    Z.abs (sum_counts num_tracks - W) <= g / 2 /\
    Z.abs (sum_counts num_tracks - W) < g /\
    (use_full_seg_groups = false \/ Forall (fun s => Seg.length s = 1) segment_inf ->
     sum_counts num_tracks = W).
Proof.
  intros HW Hne Hlen Hfuel.
  assert (Hroom : W + 1 <= SIZE_T_MODULUS).
  { destruct segment_inf as [|s l]; [congruence|].
    apply Forall_cons in Hlen as [[? ?] _]. lia. }
  unfold Allocator.get_num_tracks_per_seg_type.
  destruct (Allocator.scale_and_freq_sum segment_inf 1 0) as [scale freq_sum].
  set (reduce := size_mul scale freq_sum).
  set (st0 := Allocator.LoopState _ _ 0 0 0%nat).
  assert (Hinv0 : Allocator.loop_invariant W segment_inf use_full_seg_groups st0).
  { constructor; simpl.
    - apply List.length_map.
    - apply List.length_map.
    - apply Forall_nonneg_zeros.
    - apply sum_counts_zeros.
    - destruct segment_inf; [congruence | simpl; lia].
    - now left. }
  destruct (AllocatorFacts.assign_loop_spec W segment_inf use_full_seg_groups reduce
              HW Hroom Hlen fuel st0 Hinv0) as (st & Hloop & Hinv & Hge & Hor).
  { simpl. lia. }
  rewrite Hloop, bind_Ret.
  assert (Hsize : 0 < Allocator.size st).
  { destruct Hor as [->|]; [simpl in Hge; lia | assumption]. }
  destruct Hinv as [Hr Hd Hnn Hsum Himax Hlast].
  destruct Hlast as [Hz|(Hg & _ & Hprev & r & Hrj & Hrge)]; [lia|].
  destruct (AllocatorFacts.group_size_bounds W segment_inf use_full_seg_groups Hroom Hlen _ Hg)
    as [_ Hgb].
  assert (Hrle : r <= Allocator.assigned st).
  { rewrite <- Hsum. eapply lookup_le_sum_counts; eauto. }
  assert (Hone : use_full_seg_groups = false \/ Forall (fun s => Seg.length s = 1) segment_inf ->
                 Allocator.size st = 1).
  { intros [->|Hall]; [exact Hg|].
    unfold Allocator.group_size in Hg. destruct use_full_seg_groups; [|exact Hg].
    destruct Hg as (s & Hin & ->). rewrite Forall_forall in Hall. now apply Hall. }
  unfold Allocator.undo_last.
  rewrite size_sub_small by lia.
  destruct (Allocator.size st / 2 <? Allocator.assigned st - W) eqn:E.
  - apply Z.ltb_lt in E.
    rewrite (vector_at_Some _ _ _ Hrj), bind_Ret, size_sub_small by lia.
    eexists _, (Allocator.size st). split; [reflexivity|].
    rewrite length_insert, (sum_counts_insert _ _ _ _ Hrj).
    repeat split; try assumption.
    + apply Forall_insert; [assumption | lia].
    + Z.div_mod_to_equations. lia.
    + Z.div_mod_to_equations. lia.
    + intros H1. apply Hone in H1. rewrite H1 in *. Z.div_mod_to_equations. lia.
  - apply Z.ltb_ge in E.
    exists (Allocator.result st), (Allocator.size st). split; [reflexivity|].
    repeat split; try assumption.
    + Z.div_mod_to_equations. lia.
    + lia.
    + intros H1. apply Hone in H1. rewrite H1 in *. Z.div_mod_to_equations. lia.
Qed.

Lemma get_num_tracks_per_seg_type_sum_within_group_witness :
  exists num_tracks g,
    Allocator.get_num_tracks_per_seg_type 6 6 [Seg.Build 1 2 false; Seg.Build 1 4 false] true
      = Ret num_tracks /\
    List.length num_tracks = 2%nat /\
    Forall (Z.le 0) num_tracks /\
    Allocator.group_size [Seg.Build 1 2 false; Seg.Build 1 4 false] true g /\
    Z.abs (sum_counts num_tracks - 6) <= g / 2 /\
    Z.abs (sum_counts num_tracks - 6) < g /\
    (true = false \/ Forall (fun s => Seg.length s = 1)
                       [Seg.Build 1 2 false; Seg.Build 1 4 false] ->
     sum_counts num_tracks = 6).
Proof.
  apply (get_num_tracks_per_seg_type_sum_within_group
           6 [Seg.Build 1 2 false; Seg.Build 1 4 false] true 6%nat).
  - lia.
  - discriminate.
  - repeat constructor; simpl; unfold SIZE_T_MODULUS; lia.
  - simpl. lia.
Defined.

(** With an empty segment list and a positive budget the first pass of the
    loop indexes [demand] and [result] at [imax = 0], past their end. *)
Lemma get_num_tracks_empty_segments_faults (fuel : nat) (W : Z) (use_full_seg_groups : bool) :
  0 < W ->
  Allocator.get_num_tracks_per_seg_type (S fuel) W [] use_full_seg_groups = Undefined.
Proof.
  intros HW. unfold Allocator.get_num_tracks_per_seg_type. simpl.
  destruct (0 <? W) eqn:E; [|apply Z.ltb_ge in E; lia].
  unfold Allocator.assign_once. simpl.
  destruct use_full_seg_groups; reflexivity.
Qed.

(** C9, as the code has it.  For [W = 0] and any segment list (the empty
    one included) the allocator returns the all-zero vector, one entry per
    segment type.  The assignment loop is not entered: it hands back the
    state it is given, and no fuel is needed. *)
Theorem get_num_tracks_zero_width (fuel : nat) (segment_inf : list t_segment_inf)
    (use_full_seg_groups : bool) :
  Allocator.get_num_tracks_per_seg_type fuel 0 segment_inf use_full_seg_groups
    = Ret (map (fun _ => 0) segment_inf) /\
  Allocator.get_num_tracks_per_seg_type 0 0 segment_inf use_full_seg_groups
    = Ret (map (fun _ => 0) segment_inf) /\
  (forall reduce demand result size imax,
     let st := Allocator.LoopState demand result 0 size imax in
     Allocator.assign_loop fuel 0 segment_inf use_full_seg_groups reduce st = Ret st).
Proof.
  assert (H : forall f, Allocator.get_num_tracks_per_seg_type f 0 segment_inf use_full_seg_groups
                        = Ret (map (fun _ => 0) segment_inf)).
  { intros f. unfold Allocator.get_num_tracks_per_seg_type.
    destruct (Allocator.scale_and_freq_sum segment_inf 1 0) as [scale freq_sum].
    destruct f; reflexivity. }
  split; [apply H|]. split; [apply H|].
  intros reduce demand result size imax st. destruct fuel; reflexivity.
Qed.

(** C9, counterexample.  With an empty segment list and [W = 1] no amount of
    fuel makes the allocator return a vector: the first pass of the loop
    indexes the empty vectors. *)
Lemma get_num_tracks_empty_segments_unsafe :
  ~ exists fuel num_tracks,
      Allocator.get_num_tracks_per_seg_type fuel 1 [] true = Ret num_tracks.
Proof.
  intros (fuel & num_tracks & H). destruct fuel as [|fuel].
  - discriminate H.
  - rewrite get_num_tracks_empty_segments_faults in H by lia. discriminate H.
Qed.

(** ** ChannelBuilder *)

Module ChannelFacts.
Import ChanNodeDetails ChannelBuilder.

Lemma size_add_to_size_t (a b : Z) : size_add (to_size_t a) b = to_size_t (a + b).
Proof. unfold size_add, to_size_t. now rewrite Zplus_mod_idemp_l. Qed.

(** One run: [count] pairs appended to [ch], the run's counter starting
    at [k]. *)
Lemma add_track_pairs_spec (count : nat) :
  forall (k : nat) (L : Z) (ch : ChanNodeDetails.t),
    L <> 0 ->
    exists new,
      add_track_pairs count (Z.of_nat k) L (to_size_t (Z.of_nat (List.length ch))) ch
        = Ret (to_size_t (Z.of_nat (List.length (ch ++ new))), ch ++ new) /\
      List.length new = (2 * count)%nat /\
      forall c, (c < count)%nat ->
        new !! (2 * c)%nat
          = Some (Track (to_size_t (Z.of_nat (List.length ch + 2 * c))) INC_DIRECTION L
                        (Z.of_nat (k + c) mod L =? 0) false) /\
        new !! (S (2 * c))
          = Some (Track (to_size_t (Z.of_nat (List.length ch + S (2 * c)))) DEC_DIRECTION L
                        (Z.of_nat (k + c) mod L =? 0) false).
Proof.
  induction count as [|count IH]; intros k L ch HL.
  - exists []. simpl. rewrite app_nil_r.
    split; [reflexivity|split; [reflexivity|intros c Hc; lia]].
  - simpl add_track_pairs.
    destruct (L =? 0) eqn:E; [apply Z.eqb_eq in E; contradiction|].
    unfold add_track. rewrite !size_add_to_size_t.
    set (t1 := Track _ INC_DIRECTION _ _ _). set (t2 := Track _ DEC_DIRECTION _ _ _).
    destruct (IH (S k) L ((ch ++ [t1]) ++ [t2]) HL) as (new & Hrun & Hlen & Hat).
    replace (Z.of_nat (List.length ((ch ++ [t1]) ++ [t2])))
      with (Z.of_nat (List.length ch) + 1 + 1) in Hrun
      by (rewrite !length_app; simpl; lia).
    replace (Z.of_nat k + 1) with (Z.of_nat (S k)) by lia.
    exists (t1 :: t2 :: new). split; [|split].
    + rewrite Hrun. f_equal. f_equal.
      * rewrite <- !app_assoc. reflexivity.
      * rewrite <- !app_assoc. reflexivity.
    + simpl. lia.
    + intros [|c] Hc.
      * simpl. unfold t1, t2. rewrite !Nat.add_0_r. split; [reflexivity|].
        do 3 f_equal. lia.
      * destruct (Hat c ltac:(lia)) as [H1 H2].
        replace (2 * S c)%nat with (S (S (2 * c))) by lia. simpl lookup.
        change (new !! (c + (c + 0))%nat) with (new !! (2 * c)%nat).
        change (new !! S (c + (c + 0))%nat) with (new !! S (2 * c)%nat).
        rewrite H1, H2, !length_app. simpl List.length.
        split; do 2 f_equal; try (f_equal; lia);
          replace (S k + c)%nat with (k + S c)%nat by lia; reflexivity.
Qed.

Lemma pairs_before_S (num_tracks : list Z) (iseg : nat) (n : Z) :
  num_tracks !! iseg = Some n ->
  pairs_before num_tracks (S iseg) = (pairs_before num_tracks iseg + Z.to_nat n)%nat.
Proof.
  intros H. unfold pairs_before. rewrite (take_S_r _ _ _ H), sum_list_with_app. simpl. lia.
Qed.

(** All runs: the tracks appended for the types [iseg, iseg + 1, ...]. *)
Lemma add_tracks_spec (segment_inf : list t_segment_inf) :
  forall (iseg : nat) (num_tracks : list Z) (max_seg_length : Z) (ch : ChanNodeDetails.t),
    (iseg + List.length segment_inf <= List.length num_tracks)%nat ->
    Forall (fun seg => effective_length max_seg_length seg <> 0) segment_inf ->
    exists new,
      add_tracks segment_inf iseg num_tracks max_seg_length
                 (to_size_t (Z.of_nat (List.length ch))) ch
        = Ret (to_size_t (Z.of_nat (List.length (ch ++ new))), ch ++ new) /\
      forall j seg n c,
        segment_inf !! j = Some seg -> num_tracks !! (iseg + j)%nat = Some n ->
        (c < Z.to_nat n)%nat ->
        let L := effective_length max_seg_length seg in
        let off := (2 * (pairs_before num_tracks (iseg + j) - pairs_before num_tracks iseg))%nat in
        new !! (off + 2 * c)%nat
          = Some (Track (to_size_t (Z.of_nat (List.length ch + off + 2 * c))) INC_DIRECTION L
                        (Z.of_nat c mod L =? 0) false) /\
        new !! (off + S (2 * c))%nat
          = Some (Track (to_size_t (Z.of_nat (List.length ch + off + S (2 * c)))) DEC_DIRECTION L
                        (Z.of_nat c mod L =? 0) false).
Proof.
  induction segment_inf as [|seg rest IH]; intros iseg num_tracks max_seg_length ch Hlen Hall.
  - exists []. simpl. rewrite app_nil_r. split; [reflexivity|]. intros j ? ? ? H. discriminate H.
  - simpl in Hlen. apply Forall_cons in Hall as [HL Hall].
    destruct (lookup_lt_is_Some_2 num_tracks iseg ltac:(lia)) as [n0 Hn0].
    simpl add_tracks. rewrite (vector_at_Some _ _ _ Hn0), bind_Ret.
    destruct (add_track_pairs_spec (Z.to_nat n0) 0 _ ch HL) as (run & Hrun & Hrunlen & Hrunat).
    change (Z.of_nat 0) with 0 in Hrun. rewrite Hrun, bind_Ret.
    destruct (IH (S iseg) num_tracks max_seg_length (ch ++ run) ltac:(lia) Hall)
      as (new & Hnew & Hat).
    exists (run ++ new). rewrite !app_assoc. split; [exact Hnew|].
    intros [|j] seg' n c Hseg Hn Hc L off.
    + simpl in Hseg. injection Hseg as <-. rewrite Nat.add_0_r in Hn.
      rewrite Hn0 in Hn. injection Hn as <-.
      assert (Hoff : off = 0%nat) by (unfold off; rewrite Nat.add_0_r; lia).
      rewrite Hoff.
      destruct (Hrunat c Hc) as [H1 H2].
      replace (0 + 2 * c)%nat with (2 * c)%nat by lia.
      replace (0 + S (2 * c))%nat with (S (2 * c)) by lia.
      rewrite !lookup_app_l by lia. rewrite H1, H2.
      split; repeat (f_equal; try lia).
    + simpl in Hseg.
      replace (iseg + S j)%nat with (S iseg + j)%nat in Hn by lia.
      destruct (Hat j seg' n c Hseg Hn Hc) as [H1 H2].
      pose proof (pairs_before_S num_tracks iseg n0 Hn0) as HS.
      assert (Hmono : (pairs_before num_tracks (S iseg) <= pairs_before num_tracks (S iseg + j))%nat).
      { unfold pairs_before. rewrite <- (take_drop (S iseg) (take (S iseg + j) num_tracks)).
        rewrite take_take, Nat.min_l by lia. rewrite sum_list_with_app. lia. }
      set (off' := (2 * (pairs_before num_tracks (S iseg + j) - pairs_before num_tracks (S iseg)))%nat) in *.
      assert (Hoff : off = (List.length run + off')%nat).
      { unfold off. replace (iseg + S j)%nat with (S iseg + j)%nat by lia.
        fold off'. lia. }
      rewrite Hoff.
      replace (List.length run + off' + 2 * c)%nat
        with (List.length run + (off' + 2 * c))%nat by lia.
      replace (List.length run + off' + S (2 * c))%nat
        with (List.length run + (off' + S (2 * c)))%nat by lia.
      rewrite !lookup_app_r by lia.
      replace (List.length run + (off' + 2 * c) - List.length run)%nat
        with (off' + 2 * c)%nat by lia.
      replace (List.length run + (off' + S (2 * c)) - List.length run)%nat
        with (off' + S (2 * c))%nat by lia.
      rewrite H1, H2, length_app.
      split; repeat (f_equal; try lia).
Qed.

Lemma build_tracks_more_fuel (fuel extra : nat) (chan_width max_seg_length : Z)
    (segment_inf : list t_segment_inf) (r : outcome (Z * ChanNodeDetails.t)) :
  build_tracks fuel chan_width max_seg_length segment_inf = r ->
  r <> OutOfFuel ->
  build_tracks (fuel + extra) chan_width max_seg_length segment_inf = r.
Proof.
  unfold build_tracks. intros H Hr.
  destruct (Allocator.get_num_tracks_per_seg_type fuel _ _ _) as [n| | |] eqn:E;
    try (rewrite (AllocatorFacts.get_num_tracks_more_fuel _ extra _ _ _ _ E) by discriminate;
         exact H).
  simpl in H. congruence.
Qed.

Lemma build_unidir_chan_node_details_more_fuel (fuel extra : nat)
    (chan_width max_seg_length : Z) (device_side : e_side)
    (segment_inf : list t_segment_inf) (r : outcome ChanNodeDetails.t) :
  build_unidir_chan_node_details fuel chan_width max_seg_length device_side segment_inf = r ->
  r <> OutOfFuel ->
  build_unidir_chan_node_details (fuel + extra) chan_width max_seg_length device_side
                                 segment_inf = r.
Proof.
  unfold build_unidir_chan_node_details. intros H Hr.
  destruct (negb _); [exact H|]. destruct (_ =? 0); [exact H|].
  destruct (build_tracks fuel _ _ _) as [p| | |] eqn:E;
    try (rewrite (build_tracks_more_fuel _ extra _ _ _ _ E) by discriminate; exact H).
  simpl in H. congruence.
Qed.

(** The width the builder works with is even. *)
Lemma round_up_to_even_is_even (chan_width : Z) :
  0 <= chan_width < SIZE_T_MODULUS -> round_up_to_even chan_width mod 2 = 0.
Proof.
  intros Hw. unfold round_up_to_even.
  destruct (chan_width mod 2 =? 0) eqn:E; [now apply Z.eqb_eq in E|].
  apply Z.eqb_neq in E. unfold size_add, to_size_t, SIZE_T_MODULUS in *.
  change (2 ^ 64) with 18446744073709551616 in *.
  Z.div_mod_to_equations. lia.
Qed.

(** Whatever the pair counts, a run that returns has appended whole pairs
    and advanced [cur_track] by their number. *)
Lemma add_track_pairs_returns (count : nat) :
  forall (itrack L cur : Z) (ch ch' : ChanNodeDetails.t) (cur' : Z),
    add_track_pairs count itrack L (to_size_t cur) ch = Ret (cur', ch') ->
    exists new, ch' = ch ++ new /\ List.length new = (2 * count)%nat /\
                cur' = to_size_t (cur + Z.of_nat (List.length new)).
Proof.
  induction count as [|count IH]; intros itrack L cur ch ch' cur' H; simpl in H.
  - injection H as <- <-. exists []. rewrite app_nil_r, Z.add_0_r. auto.
  - destruct (L =? 0); [discriminate|].
    rewrite !size_add_to_size_t in H. apply IH in H as (new & -> & Hlen & ->).
    unfold add_track. eexists (_ :: _ :: new). rewrite <- !app_assoc. simpl.
    split; [reflexivity|]. split; [lia|]. f_equal. lia.
Qed.

Lemma add_tracks_returns (segment_inf : list t_segment_inf) :
  forall (iseg : nat) (num_tracks : list Z) (max_seg_length cur : Z)
         (ch ch' : ChanNodeDetails.t) (cur' : Z),
    add_tracks segment_inf iseg num_tracks max_seg_length (to_size_t cur) ch = Ret (cur', ch') ->
    exists new, ch' = ch ++ new /\ Nat.Even (List.length new) /\
                cur' = to_size_t (cur + Z.of_nat (List.length new)).
Proof.
  induction segment_inf as [|seg rest IH];
    intros iseg num_tracks max_seg_length cur ch ch' cur' H; simpl in H.
  - injection H as <- <-. exists []. rewrite app_nil_r, Z.add_0_r.
    split; [reflexivity|]. split; [exists 0%nat; reflexivity | reflexivity].
  - destruct (vector_at num_tracks iseg) as [n| | |]; try discriminate. simpl in H.
    destruct (add_track_pairs _ _ _ _ _) as [[cur1 ch1]| | |] eqn:E; try discriminate.
    simpl in H. apply add_track_pairs_returns in E as (run & -> & Hrun & ->).
    apply IH in H as (new & -> & [k Hk] & ->).
    exists (run ++ new). rewrite app_assoc, length_app.
    split; [reflexivity|]. split.
    + exists (Z.to_nat n + k)%nat. lia.
    + f_equal. lia.
Qed.

(** When the builder returns a channel, the channel has an even number of
    tracks and that number is the rounded-up width. *)
Lemma build_unidir_chan_node_details_track_count (fuel : nat)
    (chan_width max_seg_length : Z) (device_side : e_side)
    (segment_inf : list t_segment_inf) (ch : ChanNodeDetails.t) :
  build_unidir_chan_node_details fuel chan_width max_seg_length device_side segment_inf
    = Ret ch ->
  Nat.Even (List.length ch) /\
  to_size_t (Z.of_nat (List.length ch)) = round_up_to_even chan_width.
Proof.
  unfold build_unidir_chan_node_details, build_tracks. intros H.
  destruct (negb _); [discriminate|].
  destruct (round_up_to_even chan_width =? 0) eqn:E0.
  - injection H as <-. apply Z.eqb_eq in E0. rewrite E0.
    split; [exists 0%nat; reflexivity | reflexivity].
  - destruct (Allocator.get_num_tracks_per_seg_type _ _ _ _) as [n| | |]; try discriminate.
    simpl in H.
    destruct (add_tracks _ _ _ _ _ _) as [[cur tracks]| | |] eqn:E; try discriminate.
    simpl in H. destruct (cur =? round_up_to_even chan_width) eqn:Ecur; [|discriminate].
    injection H as <-. apply Z.eqb_eq in Ecur.
    apply (add_tracks_returns segment_inf 0%nat n max_seg_length 0 [] tracks cur) in E
      as (new & -> & Heven & Hcur).
    simpl in Hcur.
    assert (Hlen : forall l, List.length (apply_device_side device_side l) = List.length l).
    { intros l. destruct device_side; simpl; unfold set_tracks_start, set_tracks_end;
        rewrite ?List.length_map; reflexivity. }
    rewrite Hlen. simpl app. split; [assumption|].
    rewrite Z.add_0_l in Hcur. now rewrite <- Hcur, Ecur.
Qed.

Lemma pairs_before_mono (num_tracks : list Z) (i j : nat) :
  (i <= j)%nat -> (pairs_before num_tracks i <= pairs_before num_tracks j)%nat.
Proof.
  intros Hij. unfold pairs_before.
  rewrite <- (take_drop i (take j num_tracks)), take_take, Nat.min_l by lia.
  rewrite sum_list_with_app. lia.
Qed.

(** The number of tracks the loop has appended when it returns. *)
Lemma add_tracks_length (segment_inf : list t_segment_inf) :
  forall (iseg : nat) (num_tracks : list Z) (max_seg_length cur : Z)
         (ch ch' : ChanNodeDetails.t) (cur' : Z),
    add_tracks segment_inf iseg num_tracks max_seg_length (to_size_t cur) ch = Ret (cur', ch') ->
    List.length ch'
      = (List.length ch
         + 2 * (pairs_before num_tracks (iseg + List.length segment_inf)
                - pairs_before num_tracks iseg))%nat.
Proof.
  induction segment_inf as [|seg rest IH];
    intros iseg num_tracks max_seg_length cur ch ch' cur' H; simpl in H.
  - injection H as <- <-. simpl. rewrite Nat.add_0_r. lia.
  - unfold vector_at in H. destruct (num_tracks !! iseg) as [n|] eqn:Hn; [|discriminate].
    simpl in H.
    destruct (add_track_pairs _ _ _ _ _) as [[cur1 ch1]| | |] eqn:E; try discriminate.
    simpl in H. apply add_track_pairs_returns in E as (run & -> & Hrun & ->).
    apply IH in H. rewrite H, length_app, Hrun.
    pose proof (pairs_before_S num_tracks iseg n Hn) as HS.
    pose proof (pairs_before_mono num_tracks (S iseg) (S iseg + List.length rest) ltac:(lia)).
    simpl List.length. replace (iseg + S (List.length rest))%nat
      with (S iseg + List.length rest)%nat by lia.
    lia.
Qed.

End ChannelFacts.

(** The track-construction loop on any vector of pair counts: it returns,
    and the pair at position [counter] of the run of type [iseg] is an
    increasing track followed by a decreasing one, both of the type's
    effective length [L] and both flagged start exactly when
    [counter mod L == 0]. *)
Lemma add_tracks_start_flags
    (segment_inf : list t_segment_inf) (num_tracks : list Z) (max_seg_length : Z) :
  List.length num_tracks = List.length segment_inf ->
  Forall (fun seg => 0 < ChannelBuilder.effective_length max_seg_length seg) segment_inf ->
  exists cur_track chan_node_details,
    ChannelBuilder.add_tracks segment_inf 0 num_tracks max_seg_length 0 []
      = Ret (cur_track, chan_node_details) /\
    forall iseg seg n counter,
      segment_inf !! iseg = Some seg -> num_tracks !! iseg = Some n -> 0 <= counter < n ->
      let L := ChannelBuilder.effective_length max_seg_length seg in
      let pos := (2 * (ChannelBuilder.pairs_before num_tracks iseg + Z.to_nat counter))%nat in
      let seg_start := (counter mod L =? 0) in
      chan_node_details !! pos
        = Some (ChanNodeDetails.Track (to_size_t (Z.of_nat pos)) INC_DIRECTION L seg_start false) /\
      chan_node_details !! (S pos)
        = Some (ChanNodeDetails.Track (to_size_t (Z.of_nat (S pos))) DEC_DIRECTION L seg_start false) /\
      (seg_start = true ->
       ((counter + L) mod L =? 0) = true /\
       forall d, 0 < d < L -> ((counter + d) mod L =? 0) = false).
Proof.
  intros Hlen Hpos.
  destruct (ChannelFacts.add_tracks_spec segment_inf 0 num_tracks max_seg_length [])
    as (new & Hrun & Hat).
  { simpl. lia. }
  { eapply Forall_impl; [exact Hpos|]. simpl. intros; lia. }
  change (to_size_t (Z.of_nat (List.length ([] : ChanNodeDetails.t)))) with 0 in Hrun.
  simpl app in Hrun. eexists _, new. split; [exact Hrun|].
  intros iseg seg n counter Hseg Hn Hc L pos seg_start.
  assert (HL : 0 < L).
  { rewrite Forall_forall in Hpos. apply Hpos. eapply list_elem_of_lookup_2; eauto. }
  specialize (Hat iseg seg n (Z.to_nat counter) Hseg Hn ltac:(lia)). cbv zeta in Hat.
  assert (Hpb0 : ChannelBuilder.pairs_before num_tracks 0 = 0%nat) by reflexivity.
  replace (0 + iseg)%nat with iseg in Hat by lia.
  rewrite Hpb0, Nat.sub_0_r, Z2Nat.id in Hat by lia.
  change (List.length ([] : ChanNodeDetails.t)) with 0%nat in Hat.
  destruct Hat as [H1 H2].
  split; [|split].
  - unfold pos, seg_start, L.
    replace (2 * (ChannelBuilder.pairs_before num_tracks iseg + Z.to_nat counter))%nat
      with (2 * ChannelBuilder.pairs_before num_tracks iseg + 2 * Z.to_nat counter)%nat by lia.
    refine (eq_trans H1 _). repeat (f_equal; try lia).
  - unfold pos, seg_start, L.
    replace (S (2 * (ChannelBuilder.pairs_before num_tracks iseg + Z.to_nat counter)))%nat
      with (2 * ChannelBuilder.pairs_before num_tracks iseg + S (2 * Z.to_nat counter))%nat by lia.
    refine (eq_trans H2 _). repeat (f_equal; try lia).
  - unfold seg_start. intros Hs. apply Z.eqb_eq in Hs. split.
    + apply Z.eqb_eq. rewrite Z.add_mod, Hs, Z.mod_same, Z.mod_0_l by lia. reflexivity.
    + intros d Hd. apply Z.eqb_neq.
      rewrite Z.add_mod, Hs, Z.add_0_l, Z.mod_mod, Z.mod_small by lia. lia.
Qed.

(** C8.  Whenever the ChannelBuilder returns a channel, that channel is the
    border override of the last step applied to the tracks the loop
    appended (on an interior channel, [NUM_SIDES], those tracks themselves),
    and the appended tracks are these.  For every segment type [seg] with
    [n] allocated pairs, let [L] be the fallback maximum [max_seg_length]
    if [seg] is a longline type and the declared length otherwise.  The
    pair at 0-based position [counter] of the type's run is an increasing
    track followed by a decreasing track, both of length [L], both with end
    flag false and both with start flag [counter mod L == 0].  Hence,
    within one direction of one type, a start at [counter] is followed by
    the next start exactly [L] pairs later. *)
Theorem start_flag_every_effective_length
    (fuel : nat) (chan_width max_seg_length : Z) (device_side : e_side)
    (segment_inf : list t_segment_inf) (chan_node_details : ChanNodeDetails.t) :
  0 < chan_width -> chan_width + 1 < SIZE_T_MODULUS ->
  Forall (fun seg => if Seg.longline seg then 0 < max_seg_length
                     else 0 < Seg.length seg < SIZE_T_MODULUS) segment_inf ->
  ChannelBuilder.build_unidir_chan_node_details
    fuel chan_width max_seg_length device_side segment_inf = Ret chan_node_details ->
  exists num_tracks tracks,
    Allocator.get_num_tracks_per_seg_type
      fuel (ChannelBuilder.round_up_to_even chan_width / 2) segment_inf true = Ret num_tracks /\
    chan_node_details = ChannelBuilder.apply_device_side device_side tracks /\
    List.length tracks
      = (2 * ChannelBuilder.pairs_before num_tracks (List.length segment_inf))%nat /\
    forall iseg seg n counter,
      segment_inf !! iseg = Some seg -> num_tracks !! iseg = Some n -> 0 <= counter < n ->
      let L := if Seg.longline seg then max_seg_length else Seg.length seg in
      let pos := (2 * (ChannelBuilder.pairs_before num_tracks iseg + Z.to_nat counter))%nat in
      let seg_start := (counter mod L =? 0) in
      tracks !! pos
        = Some (ChanNodeDetails.Track (to_size_t (Z.of_nat pos)) INC_DIRECTION L seg_start false) /\
      tracks !! (S pos)
        = Some (ChanNodeDetails.Track (to_size_t (Z.of_nat (S pos))) DEC_DIRECTION L seg_start false) /\
      (seg_start = true ->
       ((counter + L) mod L =? 0) = true /\
       forall d, 0 < d < L -> ((counter + d) mod L =? 0) = false).
Proof.
  intros Hw Hroom Hsegs Hrun.
  assert (Heff : Forall (fun seg => ChannelBuilder.effective_length max_seg_length seg
                                    = (if Seg.longline seg then max_seg_length
                                       else Seg.length seg) /\
                                    0 < ChannelBuilder.effective_length max_seg_length seg)
                        segment_inf).
  { eapply Forall_impl; [exact Hsegs|]. intros seg Hseg. cbv beta in *.
    unfold ChannelBuilder.effective_length. destruct (Seg.longline seg); [auto|].
    rewrite to_size_t_small by lia. split; [reflexivity|lia]. }
  assert (Hpos : Forall (fun seg => 0 < ChannelBuilder.effective_length max_seg_length seg)
                        segment_inf).
  { eapply Forall_impl; [exact Heff|]. cbv beta. tauto. }
  assert (Hnz : ChannelBuilder.round_up_to_even chan_width <> 0).
  { unfold ChannelBuilder.round_up_to_even. destruct (_ =? 0); [lia|].
    rewrite size_add_small by lia. lia. }
  unfold ChannelBuilder.build_unidir_chan_node_details, ChannelBuilder.build_tracks in Hrun.
  rewrite (ChannelFacts.round_up_to_even_is_even chan_width ltac:(lia)) in Hrun.
  simpl negb in Hrun. cbv iota in Hrun.
  destruct (ChannelBuilder.round_up_to_even chan_width =? 0) eqn:E0;
    [apply Z.eqb_eq in E0; contradiction|].
  destruct (Allocator.get_num_tracks_per_seg_type _ _ _ _) as [num_tracks| | |] eqn:Halloc;
    try discriminate.
  rewrite bind_Ret in Hrun.
  destruct (add_tracks_start_flags segment_inf num_tracks max_seg_length)
    as (cur_track & tracks & Hadd & Hat); [|exact Hpos|].
  { eapply AllocatorFacts.get_num_tracks_result_size; eassumption. }
  rewrite Hadd, bind_Ret in Hrun.
  destruct (cur_track =? ChannelBuilder.round_up_to_even chan_width); [|discriminate].
  injection Hrun as <-. exists num_tracks, tracks.
  split; [reflexivity|]. split; [reflexivity|]. split.
  - apply (ChannelFacts.add_tracks_length segment_inf 0%nat num_tracks max_seg_length 0
             [] tracks cur_track) in Hadd.
    rewrite Hadd. unfold ChannelBuilder.pairs_before at 2. simpl. lia.
  - intros iseg seg n counter Hseg Hn Hc.
    destruct (Forall_lookup_1 _ _ _ _ Heff Hseg) as [HL _].
    specialize (Hat iseg seg n counter Hseg Hn Hc). cbv zeta in Hat |- *.
    rewrite HL in Hat. exact Hat.
Qed.

Lemma start_flag_every_effective_length_witness :
  exists num_tracks tracks,
    Allocator.get_num_tracks_per_seg_type
      6 (ChannelBuilder.round_up_to_even 12 / 2) [Seg.Build 1 2 false; Seg.Build 1 4 true] true
      = Ret num_tracks /\
    Examples.left_channel_of_width_12 = ChannelBuilder.apply_device_side LEFT tracks /\
    List.length tracks = (2 * ChannelBuilder.pairs_before num_tracks 2)%nat /\
    forall iseg seg n counter,
      [Seg.Build 1 2 false; Seg.Build 1 4 true] !! iseg = Some seg ->
      num_tracks !! iseg = Some n -> 0 <= counter < n ->
      let L := if Seg.longline seg then 3 else Seg.length seg in
      let pos := (2 * (ChannelBuilder.pairs_before num_tracks iseg + Z.to_nat counter))%nat in
      let seg_start := (counter mod L =? 0) in
      tracks !! pos
        = Some (ChanNodeDetails.Track (to_size_t (Z.of_nat pos)) INC_DIRECTION L seg_start false) /\
      tracks !! (S pos)
        = Some (ChanNodeDetails.Track (to_size_t (Z.of_nat (S pos))) DEC_DIRECTION L seg_start false) /\
      (seg_start = true ->
       ((counter + L) mod L =? 0) = true /\
       forall d, 0 < d < L -> ((counter + d) mod L =? 0) = false).
Proof.
  apply (start_flag_every_effective_length
           6 12 3 LEFT [Seg.Build 1 2 false; Seg.Build 1 4 true]
           Examples.left_channel_of_width_12).
  - lia.
  - unfold SIZE_T_MODULUS. lia.
  - repeat constructor; simpl; unfold SIZE_T_MODULUS; lia.
  - vm_compute. reflexivity.
Defined.

(** C3, at the example the source documents ("Length-4 wires in a W=12
    routing channel").  The allocator is asked for [12 / 2 = 6] pairs in
    groups of 4 and answers 8; the loop appends 16 tracks, and
    [assert (cur_track == chan_width)] fails. *)
Theorem length4_in_width12_fails_track_count (fuel : nat) (device_side : e_side) :
  Allocator.get_num_tracks_per_seg_type (2 + fuel) 6 [Seg.Build 1 4 false] true = Ret [8] /\
  (exists chan_node_details,
     ChannelBuilder.build_tracks (2 + fuel) 12 10 [Seg.Build 1 4 false]
       = Ret (16, chan_node_details) /\
     List.length chan_node_details = 16%nat) /\
  ChannelBuilder.build_unidir_chan_node_details
    (2 + fuel) 12 10 device_side [Seg.Build 1 4 false] = Fatal.
Proof.
  split; [|split].
  - apply AllocatorFacts.get_num_tracks_more_fuel; [vm_compute; reflexivity | discriminate].
  - eexists. split.
    + apply ChannelFacts.build_tracks_more_fuel; [vm_compute; reflexivity | discriminate].
    + reflexivity.
  - apply ChannelFacts.build_unidir_chan_node_details_more_fuel;
      [vm_compute; reflexivity | discriminate].
Qed.

(** ** NodeCensus *)

Module CensusFacts.
Import NodeCensus.

(** The device size handed to the census is [(L_nx + 2, L_ny + 2)], so the
    cells of the top row have [iy = get_y device_size - 1]: strictly inside
    that row, none of the four tests of [determine_io_grid_pin_side]
    holds. *)
Lemma determine_io_grid_pin_side_top_row (device_x device_y ix : Z) :
  0 < ix < device_x -> 1 < device_y ->
  determine_io_grid_pin_side (Coordinator device_x device_y) (Coordinator ix (device_y - 1))
    = Fatal.
Proof.
  intros Hx Hy. unfold determine_io_grid_pin_side. cbn [get_x get_y].
  destruct (device_y =? device_y - 1) eqn:E1; [apply Z.eqb_eq in E1; lia|].
  destruct (device_x =? ix) eqn:E2; [apply Z.eqb_eq in E2; lia|].
  destruct (0 =? device_y - 1) eqn:E3; [apply Z.eqb_eq in E3; lia|].
  destruct (0 =? ix) eqn:E4; [apply Z.eqb_eq in E4; lia|].
  reflexivity.
Qed.

Lemma determine_io_grid_pin_side_right_column (device_x device_y iy : Z) :
  0 < iy < device_y -> 1 < device_x ->
  determine_io_grid_pin_side (Coordinator device_x device_y) (Coordinator (device_x - 1) iy)
    = Fatal.
Proof.
  intros Hy Hx. unfold determine_io_grid_pin_side. cbn [get_x get_y].
  destruct (device_y =? iy) eqn:E1; [apply Z.eqb_eq in E1; lia|].
  destruct (device_x =? device_x - 1) eqn:E2; [apply Z.eqb_eq in E2; lia|].
  destruct (0 =? iy) eqn:E3; [apply Z.eqb_eq in E3; lia|].
  destruct (0 =? device_x - 1) eqn:E4; [apply Z.eqb_eq in E4; lia|].
  reflexivity.
Qed.

(** In bounds, the first two tests never hold: no cell is given the
    [BOTTOM] or the [LEFT] side. *)
Lemma determine_io_grid_pin_side_in_bounds (device_x device_y ix iy : Z) (side : e_side) :
  0 <= ix < device_x -> 0 <= iy < device_y ->
  determine_io_grid_pin_side (Coordinator device_x device_y) (Coordinator ix iy) = Ret side ->
  (side = TOP /\ iy = 0) \/ (side = RIGHT /\ ix = 0 /\ iy <> 0).
Proof.
  intros Hx Hy. unfold determine_io_grid_pin_side. cbn [get_x get_y].
  destruct (device_y =? iy) eqn:E1; [apply Z.eqb_eq in E1; lia|].
  destruct (device_x =? ix) eqn:E2; [apply Z.eqb_eq in E2; lia|].
  destruct (0 =? iy) eqn:E3.
  - apply Z.eqb_eq in E3. intros [= <-]. left. split; [reflexivity | lia].
  - apply Z.eqb_neq in E3. destruct (0 =? ix) eqn:E4; [|discriminate].
    apply Z.eqb_eq in E4. intros [= <-]. right. repeat split; lia.
Qed.

Lemma count_channels_fuel_stable (device_size : DeviceCoordinator)
    (grids : list (list t_grid_tile)) (chan_width : list Z)
    (segment_infs : list t_segment_inf) (counts : list Z) :
  fuel_stable (fun fuel => count_channels fuel device_size grids chan_width segment_infs counts).
Proof.
  assert (Hbuild : forall w m side,
             fuel_stable (fun fuel => ChannelBuilder.build_unidir_chan_node_details
                                        fuel w m side segment_infs)).
  { intros w m side fuel extra r. apply ChannelFacts.build_unidir_chan_node_details_more_fuel. }
  unfold count_channels. cbv zeta.
  repeat (first
    [ apply (fuel_stable_bind (fun _ => vector_at chan_width _));
        [apply fuel_stable_const | intros ?]
    | apply (fuel_stable_bind (fun _ => add_core_channels _ _ _ _));
        [apply fuel_stable_const | intros ?]
    | apply fuel_stable_bind; [apply Hbuild | intros ?]
    | apply fuel_stable_const ]).
Qed.

Lemma estimate_num_rr_nodes_per_type_more_fuel (fuel extra : nat)
    (device_size : DeviceCoordinator) (grid grids : list (list t_grid_tile))
    (chan_width : list Z) (segment_infs : list t_segment_inf) (r : outcome (list Z)) :
  estimate_num_rr_nodes_per_type fuel device_size grid grids chan_width segment_infs = r ->
  r <> OutOfFuel ->
  estimate_num_rr_nodes_per_type (fuel + extra) device_size grid grids chan_width segment_infs
    = r.
Proof.
  revert fuel extra r.
  change (fuel_stable (fun fuel => estimate_num_rr_nodes_per_type
                                     fuel device_size grid grids chan_width segment_infs)).
  unfold estimate_num_rr_nodes_per_type.
  apply (fuel_stable_bind (fun _ => count_pins device_size grid grids)).
  - apply fuel_stable_const.
  - intros counts. apply count_channels_fuel_stable.
Qed.

End CensusFacts.

(** C7, at a 3 x 3 device ([L_nx = L_ny = 1]) with IO blocks on its four
    edges.  The IO cells of the left column and of the bottom row get a
    side; the IO cell [(1, 2)] of the top row and the IO cell [(2, 1)] of
    the right column are refused, and the census of the whole grid ends
    fatally. *)
Theorem io_tile_on_top_or_right_edge_is_fatal
    (fuel : nat) (chan_width : list Z) (segment_infs : list t_segment_inf) :
  NodeCensus.determine_io_grid_pin_side (NodeCensus.Coordinator 3 3) (NodeCensus.Coordinator 0 1)
    = Ret RIGHT /\
  NodeCensus.determine_io_grid_pin_side (NodeCensus.Coordinator 3 3) (NodeCensus.Coordinator 1 0)
    = Ret TOP /\
  NodeCensus.determine_io_grid_pin_side (NodeCensus.Coordinator 3 3) (NodeCensus.Coordinator 1 2)
    = Fatal /\
  NodeCensus.determine_io_grid_pin_side (NodeCensus.Coordinator 3 3) (NodeCensus.Coordinator 2 1)
    = Fatal /\
  NodeCensus.estimate_num_rr_nodes_per_type fuel (NodeCensus.Coordinator 3 3)
    Examples.io_ring_3x3 Examples.io_ring_3x3 chan_width segment_infs = Fatal.
Proof.
  repeat split; try reflexivity.
Qed.

(** C6, at a 4 x 4 device without blocks, one segment type of length 1 and
    an X-axis channel width of 0.  With a Y-axis width of 2 the census
    reports 2 CHANX nodes, with a Y-axis width of 0 it reports none: the
    interior CHANX representative is built from [chan_width[1]], the Y-axis
    width, and not from the X-axis width [chan_width[0]] the two border
    representatives use. *)
Theorem chanx_total_reads_the_y_width (fuel : nat) :
  (exists counts,
     NodeCensus.estimate_num_rr_nodes_per_type (1 + fuel) (NodeCensus.Coordinator 4 4)
       Examples.empty_4x4 Examples.empty_4x4 [0; 2] Examples.unit_segments = Ret counts /\
     NodeCensus.counts_get CHANX counts = 2) /\
  (exists counts,
     NodeCensus.estimate_num_rr_nodes_per_type (1 + fuel) (NodeCensus.Coordinator 4 4)
       Examples.empty_4x4 Examples.empty_4x4 [0; 0] Examples.unit_segments = Ret counts /\
     NodeCensus.counts_get CHANX counts = 0).
Proof.
  split; eexists; (split; [|shelve]);
    apply CensusFacts.estimate_num_rr_nodes_per_type_more_fuel;
    (vm_compute; reflexivity) || discriminate.
  Unshelve. all: reflexivity.
Qed.

(** ** GraphAssembler *)

Module AssemblerFacts.
Import NodeCensus GraphAssembler.

(** While [ix < L_ny + 2] the inner loop has no exit: it stops only by
    leaving the arrays or by running out of fuel. *)
Lemma copy_column_never_returns (fuel : nat) :
  forall (L_ny ix iy : Z) (L_grid grid grid' : list (list t_grid_tile)),
    ix < L_ny + 2 ->
    copy_column fuel L_ny ix iy L_grid grid <> Ret grid'.
Proof.
  induction fuel as [|fuel IH]; intros L_ny ix iy L_grid grid grid' Hix; simpl;
    destruct (ix <? L_ny + 2) eqn:E; try (apply Z.ltb_ge in E; lia); try discriminate.
  destruct (raw_grid_at L_grid ix iy); try discriminate. simpl.
  destruct (grid_store grid ix iy a); try discriminate. simpl.
  destruct (iy =? INT_MAX); [discriminate|]. now apply IH.
Qed.

Lemma resize_count_nonneg (n : Z) : 0 <= n -> resize_count n = Ret (Z.to_nat n).
Proof.
  intros H. unfold resize_count. destruct (n <? 0) eqn:E; [apply Z.ltb_lt in E; lia|reflexivity].
Qed.

(** If the first pass of the outer loop is made at all, the grid phase
    does not return. *)
Lemma build_grids_no_return (fuel : nat) (L_nx L_ny : Z)
    (L_grid grid : list (list t_grid_tile))
    (r : list (list t_grid_tile) * list (list t_grid_tile)) :
  -2 < L_nx -> -2 < L_ny ->
  build_grids fuel L_nx L_ny L_grid grid <> Ret r.
Proof.
  intros Hx Hy. unfold build_grids. rewrite resize_count_nonneg, bind_Ret by lia.
  destruct (Z.to_nat (L_nx + 2)) as [|count] eqn:E; [lia|].
  cbn [fill_columns]. destruct (vector_at _ _); try discriminate.
  rewrite bind_Ret, resize_count_nonneg, bind_Ret by lia.
  destruct (copy_column fuel L_ny 0 0 L_grid grid) as [g| | |] eqn:Ecopy; try discriminate.
  exfalso. eapply copy_column_never_returns; [|exact Ecopy]. lia.
Qed.

Lemma build_grids_never_returns (fuel : nat) (L_nx L_ny : Z)
    (L_grid grid : list (list t_grid_tile))
    (r : list (list t_grid_tile) * list (list t_grid_tile)) :
  0 <= L_nx -> 0 <= L_ny ->
  build_grids fuel L_nx L_ny L_grid grid <> Ret r.
Proof. intros Hx Hy. apply build_grids_no_return; lia. Qed.

Lemma sum_node_counts_from (l : list Z) :
  forall acc, 0 <= acc -> Forall (Z.le 0) l -> acc + sum_counts l < SIZE_T_MODULUS ->
              fold_left size_add l acc = acc + sum_counts l.
Proof.
  induction l as [|a l IH]; intros acc Hacc Hall Hlt; simpl in *; [lia|].
  apply Forall_cons in Hall as [Ha Hall].
  assert (0 <= sum_counts l) by (clear -Hall; induction Hall; simpl; lia).
  rewrite size_add_small by lia. rewrite IH by (assumption || lia). lia.
Qed.

(** Without overflow the loop computes the exact sum. *)
Lemma sum_node_counts_exact (l : list Z) :
  Forall (Z.le 0) l -> sum_counts l < SIZE_T_MODULUS -> sum_node_counts l = sum_counts l.
Proof.
  intros Hall Hlt. unfold sum_node_counts. rewrite sum_node_counts_from; (assumption || lia).
Qed.

Lemma sum_node_counts_nonneg (l : list Z) : 0 <= sum_node_counts l.
Proof.
  unfold sum_node_counts. assert (H : forall acc, 0 <= acc -> 0 <= fold_left size_add l acc).
  { induction l as [|a l IH]; intros acc Hacc; simpl; [assumption|].
    apply IH. apply to_size_t_range. }
  apply H. lia.
Qed.

(** [my_calloc] hands out zeroed nodes and nothing writes to them: every
    allocated node has the category with tag 0. *)
Lemma count_nodes_of_type_allocated (t : t_rr_type) (counts : list Z) (rr_graph : t_rr_graph) :
  count_nodes_of_type t (allocate_rr_nodes counts rr_graph)
    = if t_rr_type_eqb t SOURCE then sum_node_counts counts else 0.
Proof.
  unfold count_nodes_of_type, allocate_rr_nodes. cbn [rr_node].
  assert (H : forall n, List.filter (fun node => t_rr_type_eqb t (rr_type node))
                                    (replicate n zeroed_rr_node)
                        = if t_rr_type_eqb t SOURCE then replicate n zeroed_rr_node else []).
  { induction n as [|n IH]; simpl; [now destruct (t_rr_type_eqb t SOURCE)|].
    rewrite IH. now destruct (t_rr_type_eqb t SOURCE). }
  rewrite H. destruct (t_rr_type_eqb t SOURCE); [|reflexivity].
  rewrite length_replicate, Z2Nat.id; [reflexivity|]. apply sum_node_counts_nonneg.
Qed.

(** The cell [(0, 0)] of a grid that was only resized: its type pointer is
    null, it is not skipped, and counting its pins dereferences it. *)
Lemma count_cell_pins_value_initialized (device_size : DeviceCoordinator)
    (grid : list (list t_grid_tile)) (counts : list Z) :
  count_cell_pins device_size grid 0 0 value_initialized_tile counts = Undefined.
Proof.
  unfold count_cell_pins. cbn [points_to type value_initialized_tile offset]. simpl (0 <? 0).
  cbv iota. destruct (grid_at grid 0 0) as [g| | |] eqn:Eg; try reflexivity.
  - rewrite bind_Ret. destruct (points_to IO_TYPE (type g)); [|reflexivity].
    unfold determine_io_grid_pin_side. cbn [get_x get_y]. change (Z.of_nat 0) with 0.
    destruct (get_y device_size =? 0); [reflexivity|].
    destruct (get_x device_size =? 0); reflexivity.
  - unfold grid_at, vector_at in Eg. destruct (grid !! 0%nat) as [column|]; [|discriminate].
    simpl in Eg. destruct (column !! 0%nat); discriminate.
  - unfold grid_at, vector_at in Eg. destruct (grid !! 0%nat) as [column|]; [|discriminate].
    simpl in Eg. destruct (column !! 0%nat); discriminate.
Qed.

Lemma estimate_on_resized_grids (fuel : nat) (device_size : DeviceCoordinator)
    (grid : list (list t_grid_tile)) (nx ny : nat) (chan_width : list Z)
    (segment_infs : list t_segment_inf) :
  estimate_num_rr_nodes_per_type fuel device_size grid
    (replicate (S nx) (replicate (S ny) value_initialized_tile)) chan_width segment_infs
  = Undefined.
Proof.
  unfold estimate_num_rr_nodes_per_type, count_pins. simpl replicate.
  cbn [count_grid_pins count_column_pins].
  now rewrite count_cell_pins_value_initialized.
Qed.

End AssemblerFacts.

(** C10, at [L_nx = L_ny = 0].  On the 2 x 2 array of empty tiles the
    grid-construction loops copy [L_grid[0][0]] and [L_grid[0][1]] and then
    read [L_grid[0][2]], outside the array; whatever the arrays and the fuel,
    the phase never hands over a grid. *)
Theorem build_grids_does_not_complete (fuel : nat) :
  GraphAssembler.build_grids (3 + fuel) 0 0 Examples.empty_2x2 Examples.empty_2x2 = Undefined /\
  (forall L_grid grid, ~ exists r, GraphAssembler.build_grids fuel 0 0 L_grid grid = Ret r).
Proof.
  split; [reflexivity|].
  intros L_grid grid [r H]. revert H. apply AssemblerFacts.build_grids_never_returns; lia.
Qed.

(** C1.  No run of the assembler fixes a node count, and no node is ever
    given a category.
    - On the 3 x 3 device ([L_nx = L_ny = 1]) with IO blocks on its four
      edges the run ends in undefined behaviour inside the grid loops,
      before the census; for no sizes [L_nx, L_ny >= 0] does a run return.
    - The grids those loops leave for the census are only resized: every
      tile is value-initialised, its type pointer null, and the census on
      them is undefined behaviour at cell [(0, 0)].
    - Step 3 takes whatever count vector it is given, sums it once and
      [my_calloc]s that many nodes; the code after it returns that graph
      untouched, steps 4 and 6 of the header comment ("fill the node
      information") having no code.  So every node has the zero category
      SOURCE and no other category has a node, whatever the census said. *)
Theorem assembler_fixes_no_count_and_populates_no_node {Fc directs_table : Type}
    (alloc_and_load_actual_fc : Z -> bool -> Fc * bool)
    (alloc_and_load_clb_to_clb_directs : Z -> directs_table)
    (RR_GRAPH_NO_WARN RR_GRAPH_WARN_FC_CLIPPED : Z) :
  (forall fuel chan_width segment_inf num_seg_types num_directs,
     GraphAssembler.build_tileable_unidir_rr_graph
       alloc_and_load_actual_fc alloc_and_load_clb_to_clb_directs
       RR_GRAPH_NO_WARN RR_GRAPH_WARN_FC_CLIPPED
       (4 + fuel) 1 1 Examples.io_ring_3x3 Examples.io_ring_3x3
       chan_width segment_inf num_seg_types num_directs = Undefined) /\
  (forall fuel (L_nx L_ny : nat) L_grid grid chan_width segment_inf num_seg_types num_directs,
     ~ exists r,
         GraphAssembler.build_tileable_unidir_rr_graph
           alloc_and_load_actual_fc alloc_and_load_clb_to_clb_directs
           RR_GRAPH_NO_WARN RR_GRAPH_WARN_FC_CLIPPED
           fuel (Z.of_nat L_nx) (Z.of_nat L_ny) L_grid grid
           chan_width segment_inf num_seg_types num_directs = Ret r) /\
  (forall fuel (L_nx L_ny : nat) grid chan_width segment_inf num_seg_types num_directs,
     GraphAssembler.census_and_allocate
       alloc_and_load_actual_fc alloc_and_load_clb_to_clb_directs
       RR_GRAPH_NO_WARN RR_GRAPH_WARN_FC_CLIPPED
       fuel (Z.of_nat L_nx) (Z.of_nat L_ny) grid
       (replicate (Z.to_nat (Z.of_nat L_nx + 2))
                  (replicate (Z.to_nat (Z.of_nat L_ny + 2))
                             GraphAssembler.value_initialized_tile))
       chan_width segment_inf num_seg_types num_directs = Undefined) /\
  (forall counts chan_width num_directs,
     let rr_graph := GraphAssembler.allocate_rr_nodes counts GraphAssembler.empty_rr_graph in
     fst (GraphAssembler.finish_rr_graph
            alloc_and_load_actual_fc alloc_and_load_clb_to_clb_directs RR_GRAPH_WARN_FC_CLIPPED
            chan_width num_directs rr_graph RR_GRAPH_NO_WARN) = rr_graph /\
     GraphAssembler.num_rr_nodes rr_graph = GraphAssembler.sum_node_counts counts /\
     GraphAssembler.count_nodes_of_type SOURCE rr_graph
       = GraphAssembler.sum_node_counts counts /\
     GraphAssembler.count_nodes_of_type SINK rr_graph = 0 /\
     GraphAssembler.count_nodes_of_type IPIN rr_graph = 0 /\
     GraphAssembler.count_nodes_of_type OPIN rr_graph = 0 /\
     GraphAssembler.count_nodes_of_type CHANX rr_graph = 0 /\
     GraphAssembler.count_nodes_of_type CHANY rr_graph = 0 /\
     GraphAssembler.count_nodes_of_type INTRA_CLUSTER_EDGE rr_graph = 0).
Proof.
  split; [|split; [|split]].
  - intros. reflexivity.
  - intros fuel L_nx L_ny L_grid grid chan_width segment_inf num_seg_types num_directs [r H].
    unfold GraphAssembler.build_tileable_unidir_rr_graph in H.
    destruct (GraphAssembler.build_grids fuel (Z.of_nat L_nx) (Z.of_nat L_ny) L_grid grid)
      as [g| | |] eqn:E; try discriminate.
    revert E. apply AssemblerFacts.build_grids_never_returns; lia.
  - intros fuel L_nx L_ny grid chan_width segment_inf num_seg_types num_directs.
    unfold GraphAssembler.census_and_allocate.
    destruct (GraphAssembler.copy_segments segment_inf num_seg_types) as [segs| | |] eqn:E;
      try reflexivity.
    + rewrite bind_Ret.
      replace (Z.to_nat (Z.of_nat L_nx + 2)) with (S (S L_nx)) by lia.
      replace (Z.to_nat (Z.of_nat L_ny + 2)) with (S (S L_ny)) by lia.
      now rewrite AssemblerFacts.estimate_on_resized_grids.
    + unfold GraphAssembler.copy_segments in E. destruct (_ <? _); discriminate.
    + unfold GraphAssembler.copy_segments in E. destruct (_ <? _); discriminate.
  - intros counts chan_width num_directs rr_graph. split; [|split].
    + unfold GraphAssembler.finish_rr_graph.
      destruct (alloc_and_load_actual_fc chan_width false), (alloc_and_load_actual_fc chan_width true).
      reflexivity.
    + reflexivity.
    + unfold rr_graph. rewrite !AssemblerFacts.count_nodes_of_type_allocated.
      repeat split.
Qed.

(** ** MuxPathResolver and MuxBitstreamEncoder *)

Module MuxFacts.
Import Mux.

(** The resolver hands back the size it is given when the model adds a
    constant input, and the first-input macro otherwise. *)
Lemma find_mux_default_path_id_cases (DEFAULT_MUX_PATH_ID : Z)
    (mux_model : circuit_model) (mux_size : Z) :
  find_mux_default_path_id DEFAULT_MUX_PATH_ID mux_model mux_size
    = if mux_add_const_input mux_model then mux_size else to_size_t DEFAULT_MUX_PATH_ID.
Proof. reflexivity. Qed.

Lemma resolve_datapath_id_default (DEFAULT_PATH_ID DEFAULT_MUX_PATH_ID : Z)
    (mux_model : circuit_model) (mux_size : Z) :
  resolve_datapath_id DEFAULT_PATH_ID DEFAULT_MUX_PATH_ID mux_model mux_size DEFAULT_PATH_ID
    = Ret (find_mux_default_path_id DEFAULT_MUX_PATH_ID mux_model
             (find_mux_implementation_num_inputs mux_model mux_size)).
Proof. unfold resolve_datapath_id. now rewrite Z.eqb_refl. Qed.

Lemma resolve_datapath_id_explicit (DEFAULT_PATH_ID DEFAULT_MUX_PATH_ID : Z)
    (mux_model : circuit_model) (mux_size path_id : Z) :
  path_id <> DEFAULT_PATH_ID ->
  resolve_datapath_id DEFAULT_PATH_ID DEFAULT_MUX_PATH_ID mux_model mux_size path_id
    = if to_size_t path_id <? mux_size then Ret (to_size_t path_id) else Fatal.
Proof.
  intros Hne. unfold resolve_datapath_id.
  destruct (DEFAULT_PATH_ID =? path_id) eqn:E; [apply Z.eqb_eq in E; congruence|reflexivity].
Qed.

End MuxFacts.

(** C4, at a CMOS model that adds a constant input, declared size 4.
    Called on the declared size the resolver returns 4; the encoder calls it
    on the implemented size 5, so the default path the encoder resolves is
    5. *)
Theorem encoder_default_path_is_implemented_size (DEFAULT_PATH_ID DEFAULT_MUX_PATH_ID : Z) :
  Mux.find_mux_default_path_id DEFAULT_MUX_PATH_ID
    (Mux.CircuitModel Mux.SPICE_MODEL_DESIGN_CMOS true) 4 = 4 /\
  Mux.find_mux_implementation_num_inputs
    (Mux.CircuitModel Mux.SPICE_MODEL_DESIGN_CMOS true) 4 = 5 /\
  Mux.resolve_datapath_id DEFAULT_PATH_ID DEFAULT_MUX_PATH_ID
    (Mux.CircuitModel Mux.SPICE_MODEL_DESIGN_CMOS true) 4 DEFAULT_PATH_ID = Ret 5.
Proof.
  split; [reflexivity|]. split; [reflexivity|].
  rewrite MuxFacts.resolve_datapath_id_default. reflexivity.
Qed.

(** C5.  For a declared size [mux_size] (a [size_t]) and a path id (an
    [int]):
    - a path id other than the use-default marker that is at least
      [mux_size] ends the run fatally, and so does a negative one: the
      converted value is never brought back into range;
    - a looked-up graph with other than exactly one output ends the run
      fatally, whatever the path id;
    - with exactly one output, a path id in [0, mux_size) returns the bits
      decoded for that input, and the use-default marker returns the bits
      decoded for the resolved default path. *)
Theorem build_cmos_mux_bitstream_checks
    (DEFAULT_PATH_ID DEFAULT_MUX_PATH_ID : Z) {MuxGraph MuxOutputId : Type}
    (mux_lib : Mux.circuit_model -> Z -> option MuxGraph)
    (outputs : MuxGraph -> list MuxOutputId)
    (decode_memory_bits : MuxGraph -> Z -> MuxOutputId -> list bool)
    (mux_model : Mux.circuit_model) (mux_size path_id : Z) :
  0 <= mux_size ->
  - 2 ^ 31 <= path_id < 2 ^ 31 ->
  let run := Mux.build_cmos_mux_bitstream DEFAULT_PATH_ID DEFAULT_MUX_PATH_ID
               mux_lib outputs decode_memory_bits mux_model mux_size path_id in
  let implemented_mux_size := Mux.find_mux_implementation_num_inputs mux_model mux_size in
  (path_id <> DEFAULT_PATH_ID -> mux_size <= path_id -> run = Fatal) /\
  (path_id <> DEFAULT_PATH_ID -> path_id < 0 -> mux_size <= SIZE_T_MODULUS - 2 ^ 31 ->
   run = Fatal) /\
  (forall mux_graph,
     mux_lib mux_model implemented_mux_size = Some mux_graph ->
     List.length (outputs mux_graph) <> 1%nat -> run = Fatal) /\
  (forall mux_graph out,
     mux_lib mux_model implemented_mux_size = Some mux_graph ->
     outputs mux_graph = [out] ->
     path_id <> DEFAULT_PATH_ID -> 0 <= path_id < mux_size ->
     run = Ret (decode_memory_bits mux_graph path_id out)) /\
  (forall mux_graph out,
     mux_lib mux_model implemented_mux_size = Some mux_graph ->
     outputs mux_graph = [out] ->
     path_id = DEFAULT_PATH_ID ->
     run = Ret (decode_memory_bits mux_graph
                  (Mux.find_mux_default_path_id DEFAULT_MUX_PATH_ID mux_model
                     implemented_mux_size) out)).
Proof.
  intros Hsize Hpath run implemented_mux_size.
  assert (Hfatal : path_id <> DEFAULT_PATH_ID -> mux_size <= to_size_t path_id -> run = Fatal).
  { intros Hne Hge. unfold run, Mux.build_cmos_mux_bitstream, Mux.lookup_mux_graph.
    destruct (mux_lib mux_model _) as [g|]; [|reflexivity].
    rewrite bind_Ret, MuxFacts.resolve_datapath_id_explicit by assumption.
    destruct (to_size_t path_id <? mux_size) eqn:E; [apply Z.ltb_lt in E; lia|reflexivity]. }
  unfold run, Mux.build_cmos_mux_bitstream, Mux.lookup_mux_graph in *.
  fold implemented_mux_size.
  split; [|split; [|split; [|split]]].
  - intros Hne Hge. apply Hfatal; [assumption|].
    rewrite to_size_t_small; [assumption|]. unfold SIZE_T_MODULUS. lia.
  - intros Hne Hneg Hroom. apply Hfatal; [assumption|].
    assert (Hwrap : to_size_t path_id = path_id + 1 * SIZE_T_MODULUS).
    { unfold to_size_t. rewrite <- (Z_mod_plus_full path_id 1 SIZE_T_MODULUS).
      apply Z.mod_small. unfold SIZE_T_MODULUS. lia. }
    rewrite Hwrap. unfold SIZE_T_MODULUS in *. lia.
  - intros g Hg Hlen. rewrite Hg, bind_Ret.
    unfold Mux.resolve_datapath_id.
    destruct (DEFAULT_PATH_ID =? path_id); [|destruct (to_size_t path_id <? mux_size)];
      try reflexivity;
      simpl; destruct (outputs g) as [|o [|o' l]]; simpl in *; congruence.
  - intros g out Hg Hout Hne Hrange. rewrite Hg, bind_Ret.
    rewrite MuxFacts.resolve_datapath_id_explicit by assumption.
    rewrite to_size_t_small by (unfold SIZE_T_MODULUS; lia).
    destruct (path_id <? mux_size) eqn:E; [|apply Z.ltb_ge in E; lia].
    simpl. now rewrite Hout.
  - intros g out Hg Hout ->. rewrite Hg, bind_Ret.
    rewrite MuxFacts.resolve_datapath_id_default. simpl. now rewrite Hout.
Qed.

Lemma build_cmos_mux_bitstream_checks_witness :
  let mux_lib := fun (_ : Mux.circuit_model) (_ : Z) => Some 0%nat in
  let outputs := fun (_ : nat) => [0%nat] in
  let decode_memory_bits := fun (_ : nat) (datapath_id : Z) (_ : nat) =>
                              [Z.testbit datapath_id 0; Z.testbit datapath_id 1] in
  let mux_model := Mux.CircuitModel Mux.SPICE_MODEL_DESIGN_CMOS false in
  let run := Mux.build_cmos_mux_bitstream (-1) 0 mux_lib outputs decode_memory_bits
               mux_model 4 2 in
  let implemented_mux_size := Mux.find_mux_implementation_num_inputs mux_model 4 in
  (2 <> -1 -> 4 <= 2 -> run = Fatal) /\
  (2 <> -1 -> 2 < 0 -> 4 <= SIZE_T_MODULUS - 2 ^ 31 -> run = Fatal) /\
  (forall mux_graph,
     mux_lib mux_model implemented_mux_size = Some mux_graph ->
     List.length (outputs mux_graph) <> 1%nat -> run = Fatal) /\
  (forall mux_graph out,
     mux_lib mux_model implemented_mux_size = Some mux_graph ->
     outputs mux_graph = [out] ->
     2 <> -1 -> 0 <= 2 < 4 ->
     run = Ret (decode_memory_bits mux_graph 2 out)) /\
  (forall mux_graph out,
     mux_lib mux_model implemented_mux_size = Some mux_graph ->
     outputs mux_graph = [out] ->
     2 = -1 ->
     run = Ret (decode_memory_bits mux_graph
                  (Mux.find_mux_default_path_id 0 mux_model implemented_mux_size) out)).
Proof.
  apply (build_cmos_mux_bitstream_checks (-1) 0
           (fun (_ : Mux.circuit_model) (_ : Z) => Some 0%nat)
           (fun (_ : nat) => [0%nat])
           (fun (_ : nat) (datapath_id : Z) (_ : nat) =>
              [Z.testbit datapath_id 0; Z.testbit datapath_id 1])
           (Mux.CircuitModel Mux.SPICE_MODEL_DESIGN_CMOS false) 4 2).
  - lia.
  - lia.
Defined.

(** * Further properties of the code *)

(** ** SegmentAllocator *)

Module AllocatorMore.
Import Allocator.

(** What one pass of the loop does, read back from its result. *)
Lemma assign_once_inv (segment_inf : list t_segment_inf) (use_full_seg_groups : bool)
    (reduce : Z) (st st' : loop_state) :
  assign_once segment_inf use_full_seg_groups reduce st = Ret st' ->
  let j := find_max_demand (demand st) 0 (S754_zero false) (imax st) in
  exists g d r,
    (if use_full_seg_groups
     then exists seg, segment_inf !! j = Some seg /\ g = to_size_t (Seg.length seg)
     else g = 1) /\
    demand st !! j = Some d /\ result st !! j = Some r /\
    st' = LoopState (<[j := double_sub d (double_of_Z reduce)]> (demand st))
                    (<[j := size_add r g]> (result st))
                    (size_add (assigned st) g) g j.
Proof.
  intros H j. unfold assign_once in H. fold j in H.
  assert (Hg : exists g, (if use_full_seg_groups
                          then seg ← vector_at segment_inf j; mret (to_size_t (Seg.length seg))
                          else mret 1) = Ret g /\
                         (if use_full_seg_groups
                          then exists seg, segment_inf !! j = Some seg /\
                                           g = to_size_t (Seg.length seg)
                          else g = 1)).
  { destruct use_full_seg_groups.
    - unfold vector_at in *. destruct (segment_inf !! j) as [seg|]; [|discriminate].
      eexists. split; [reflexivity|]. eauto.
    - eexists. split; reflexivity. }
  destruct Hg as (g & Eg & Hg). rewrite Eg, bind_Ret in H.
  unfold vector_at in H.
  destruct (demand st !! j) as [d|]; [|discriminate]. simpl in H.
  destruct (result st !! j) as [r|]; [|discriminate]. simpl in H.
  injection H as <-. exists g, d, r. auto.
Qed.

Lemma assign_once_in_range (segment_inf : list t_segment_inf) (use_full_seg_groups : bool)
    (reduce : Z) (st : loop_state) :
  indices_in_range segment_inf st ->
  exists st', assign_once segment_inf use_full_seg_groups reduce st = Ret st' /\
              indices_in_range segment_inf st'.
Proof.
  intros (Hd & Hr & Hi). unfold assign_once.
  set (j := find_max_demand (demand st) 0 (S754_zero false) (imax st)).
  assert (Hj : (j < List.length segment_inf)%nat).
  { destruct (AllocatorFacts.find_max_demand_bound (demand st) 0 (S754_zero false) (imax st))
      as [E|B]; fold j in E || fold j in B; lia. }
  destruct (lookup_lt_is_Some_2 segment_inf j Hj) as [seg Hseg].
  destruct (lookup_lt_is_Some_2 (demand st) j ltac:(lia)) as [d Hdj].
  destruct (lookup_lt_is_Some_2 (result st) j ltac:(lia)) as [r Hrj].
  rewrite (vector_at_Some _ _ _ Hseg), (vector_at_Some _ _ _ Hdj), (vector_at_Some _ _ _ Hrj).
  destruct use_full_seg_groups; simpl; eexists; (split; [reflexivity|]);
    unfold indices_in_range; simpl; rewrite !length_insert; auto.
Qed.

Lemma assign_loop_in_range (W : Z) (segment_inf : list t_segment_inf)
    (use_full_seg_groups : bool) (reduce : Z) (fuel : nat) :
  forall st,
    indices_in_range segment_inf st ->
    (exists st', assign_loop fuel W segment_inf use_full_seg_groups reduce st = Ret st' /\
                 indices_in_range segment_inf st') \/
    assign_loop fuel W segment_inf use_full_seg_groups reduce st = OutOfFuel.
Proof.
  induction fuel as [|fuel IH]; intros st Hst; simpl; destruct (assigned st <? W); eauto.
  destruct (assign_once_in_range segment_inf use_full_seg_groups reduce st Hst)
    as (st1 & -> & Hst1).
  rewrite bind_Ret. now apply IH.
Qed.

End AllocatorMore.

(** X1.  With a non-empty segment list the allocator never indexes a vector
    out of range and never stops fatally, whatever the budget, the lengths
    and the frequencies (zero, negative or overflowing ones included): it
    either returns one count per segment type or is still looping when the
    fuel ends. *)
Theorem get_num_tracks_nonempty_is_safe (fuel : nat) (W : Z)
    (segment_inf : list t_segment_inf) (use_full_seg_groups : bool) :
  segment_inf <> [] ->
  (exists num_tracks,
     Allocator.get_num_tracks_per_seg_type fuel W segment_inf use_full_seg_groups
       = Ret num_tracks /\
     List.length num_tracks = List.length segment_inf) \/
  Allocator.get_num_tracks_per_seg_type fuel W segment_inf use_full_seg_groups = OutOfFuel.
Proof.
  intros Hne. unfold Allocator.get_num_tracks_per_seg_type.
  destruct (Allocator.scale_and_freq_sum segment_inf 1 0) as [scale freq_sum].
  set (st0 := Allocator.LoopState _ _ 0 0 0%nat).
  assert (H0 : indices_in_range segment_inf st0).
  { unfold indices_in_range. simpl. rewrite !List.length_map.
    destruct segment_inf; [congruence | simpl; lia]. }
  destruct (AllocatorMore.assign_loop_in_range W segment_inf use_full_seg_groups
              (size_mul scale freq_sum) fuel st0 H0) as [(st & -> & Hd & Hr & Hi)| ->];
    [|now right].
  left. rewrite bind_Ret. unfold Allocator.undo_last.
  destruct (_ <? _); [|eauto].
  destruct (lookup_lt_is_Some_2 (Allocator.result st) (Allocator.imax st) ltac:(lia)) as [r Hrj].
  rewrite (vector_at_Some _ _ _ Hrj), bind_Ret. eexists. split; [reflexivity|].
  now rewrite length_insert.
Qed.

Lemma get_num_tracks_nonempty_is_safe_witness :
  (exists num_tracks,
     Allocator.get_num_tracks_per_seg_type 3 5 [Seg.Build 0 0 false; Seg.Build (-1) 3 true] true
       = Ret num_tracks /\
     List.length num_tracks = 2%nat) \/
  Allocator.get_num_tracks_per_seg_type 3 5 [Seg.Build 0 0 false; Seg.Build (-1) 3 true] true
    = OutOfFuel.
Proof.
  apply (get_num_tracks_nonempty_is_safe
           3 5 [Seg.Build 0 0 false; Seg.Build (-1) 3 true] true).
  discriminate.
Defined.

Module GroupFacts.
Import Allocator.

Section FullGroups.
Variables (W : Z) (segment_inf : list t_segment_inf) (reduce : Z).
Hypothesis W_pos : 0 < W.
Hypothesis W_room : W + 1 <= SIZE_T_MODULUS.
Hypothesis lengths_ok :
  Forall (fun s => 0 < Seg.length s /\ W + Seg.length s <= SIZE_T_MODULUS) segment_inf.

Lemma insert_whole_group (result : list Z) (j : nat) (seg : t_segment_inf) (r r' : Z) :
  Forall2 (fun r seg => exists k, 0 <= k /\ r = k * Seg.length seg) result segment_inf ->
  segment_inf !! j = Some seg -> result !! j = Some r ->
  (exists k, 0 <= k /\ r' = k * Seg.length seg) ->
  Forall2 (fun r seg => exists k, 0 <= k /\ r = k * Seg.length seg)
          (<[j := r']> result) segment_inf.
Proof.
  intros Hall Hseg Hr Hk. rewrite <- (list_insert_id segment_inf j seg Hseg).
  now apply Forall2_insert.
Qed.

Lemma assign_once_whole_groups (st st' : loop_state) :
  loop_invariant W segment_inf true st -> whole_groups segment_inf st ->
  assigned st < W ->
  assign_once segment_inf true reduce st = Ret st' ->
  whole_groups segment_inf st'.
Proof.
  intros Hinv [Hall _] Hlt Hstep.
  apply AllocatorMore.assign_once_inv in Hstep
    as (g & d & r & (seg & Hseg & ->) & Hd & Hr & ->).
  assert (Hs : 0 < Seg.length seg /\ W + Seg.length seg <= SIZE_T_MODULUS).
  { rewrite Forall_forall in lengths_ok. apply lengths_ok.
    eapply list_elem_of_lookup_2; eauto. }
  destruct (Forall2_lookup_lr _ _ _ _ _ _ Hall Hr Hseg) as (k & Hk & ->).
  pose proof (lookup_le_sum_counts _ _ _ (inv_nonneg _ _ _ _ Hinv) Hr) as Hle.
  rewrite (inv_sum _ _ _ _ Hinv) in Hle.
  rewrite to_size_t_small by lia.
  assert (0 <= k * Seg.length seg) by nia.
  rewrite size_add_small by lia.
  split; simpl.
  - eapply insert_whole_group; eauto. exists (k + 1). split; lia.
  - right. eauto.
Qed.

Lemma assign_loop_whole_groups (fuel : nat) :
  forall st st',
    loop_invariant W segment_inf true st -> whole_groups segment_inf st ->
    assign_loop fuel W segment_inf true reduce st = Ret st' ->
    whole_groups segment_inf st'.
Proof.
  induction fuel as [|fuel IH]; intros st st' Hinv Hgroups H; simpl in H;
    destruct (assigned st <? W) eqn:E; try discriminate;
    try (injection H as <-; assumption).
  apply Z.ltb_lt in E.
  destruct (AllocatorFacts.assign_once_spec W segment_inf true reduce W_pos W_room lengths_ok
              st Hinv E) as (st1 & Hstep & Hinv1 & _).
  rewrite Hstep, bind_Ret in H.
  eapply IH; [exact Hinv1 | | exact H].
  exact (assign_once_whole_groups st st1 Hinv Hgroups E Hstep).
Qed.
End FullGroups.

End GroupFacts.

(** X2.  With full segment groups and the ranges of C2 (positive budget,
    non-empty list, positive lengths, no [size_t] overflow), the allocator
    hands every segment type whole groups only: each returned count is a
    non-negative multiple of the type's declared length. *)
Theorem get_num_tracks_full_groups_are_whole
    (W : Z) (segment_inf : list t_segment_inf) (fuel : nat) :
  0 < W ->
  segment_inf <> [] ->
  Forall (fun s => 0 < Seg.length s /\ W + Seg.length s <= SIZE_T_MODULUS) segment_inf ->
  (Z.to_nat W <= fuel)%nat ->
  exists num_tracks,
    Allocator.get_num_tracks_per_seg_type fuel W segment_inf true = Ret num_tracks /\
    Forall2 (fun n seg => exists k, 0 <= k /\ n = k * Seg.length seg) num_tracks segment_inf.
Proof.
  intros HW Hne Hlen Hfuel.
  assert (Hroom : W + 1 <= SIZE_T_MODULUS).
  { destruct segment_inf as [|s l]; [congruence|].
    apply Forall_cons in Hlen as [[? ?] _]. lia. }
  unfold Allocator.get_num_tracks_per_seg_type.
  destruct (Allocator.scale_and_freq_sum segment_inf 1 0) as [scale freq_sum].
  set (reduce := size_mul scale freq_sum).
  set (st0 := Allocator.LoopState _ _ 0 0 0%nat).
  assert (Hinv0 : Allocator.loop_invariant W segment_inf true st0).
  { constructor; simpl.
    - apply List.length_map.
    - apply List.length_map.
    - apply Forall_nonneg_zeros.
    - apply sum_counts_zeros.
    - destruct segment_inf; [congruence | simpl; lia].
    - now left. }
  assert (Hgroups0 : whole_groups segment_inf st0).
  { split; [|now left]. simpl. clear. induction segment_inf as [|s l IH]; simpl.
    - constructor.
    - constructor; [exists 0; lia | exact IH]. }
  destruct (AllocatorFacts.assign_loop_spec W segment_inf true reduce
              HW Hroom Hlen fuel st0 Hinv0) as (st & Hloop & Hinv & Hge & Hor).
  { simpl. lia. }
  pose proof (GroupFacts.assign_loop_whole_groups W segment_inf reduce HW Hroom Hlen
                fuel st0 st Hinv0 Hgroups0 Hloop) as [Hall Hlast].
  rewrite Hloop, bind_Ret. unfold Allocator.undo_last.
  destruct (_ <? _); [|eauto].
  assert (Hsize : 0 < Allocator.size st).
  { destruct Hor as [->|]; [simpl in Hge; lia | assumption]. }
  destruct Hlast as [Hz|(seg & Hseg & Hsz)]; [lia|].
  destruct (Allocator.inv_last _ _ _ _ Hinv) as [Hz|(_ & _ & _ & r & Hr & Hrge)]; [lia|].
  pose proof (lookup_le_sum_counts _ _ _ (Allocator.inv_nonneg _ _ _ _ Hinv) Hr) as Hle.
  rewrite (Allocator.inv_sum _ _ _ _ Hinv) in Hle.
  destruct (AllocatorFacts.group_size_bounds W segment_inf true Hroom Hlen (Allocator.size st))
    as [_ Hgb].
  { exists seg. split; [eapply list_elem_of_lookup_2; eauto | assumption]. }
  rewrite (vector_at_Some _ _ _ Hr), bind_Ret, size_sub_small.
  2:{ destruct (Allocator.inv_last _ _ _ _ Hinv) as [Hz|(_ & _ & Hprev & _)]; lia. }
  eexists. split; [reflexivity|].
  destruct (Forall2_lookup_lr _ _ _ _ _ _ Hall Hr Hseg) as (k & Hk & Hrk).
  eapply GroupFacts.insert_whole_group; eauto.
  exists (k - 1). rewrite Hsz in *. split; nia.
Qed.

Lemma get_num_tracks_full_groups_are_whole_witness :
  exists num_tracks,
    Allocator.get_num_tracks_per_seg_type 7 7 [Seg.Build 2 3 false; Seg.Build 1 2 false] true
      = Ret num_tracks /\
    Forall2 (fun n seg => exists k, 0 <= k /\ n = k * Seg.length seg)
            num_tracks [Seg.Build 2 3 false; Seg.Build 1 2 false].
Proof.
  apply (get_num_tracks_full_groups_are_whole 7 [Seg.Build 2 3 false; Seg.Build 1 2 false] 7).
  - lia.
  - discriminate.
  - repeat constructor; simpl; unfold SIZE_T_MODULUS; lia.
  - simpl. lia.
Defined.

(** ** ChannelBuilder *)

Module ChannelMore.
Import ChanNodeDetails ChannelBuilder.

Lemma pairs_before_all (num_tracks : list Z) :
  Forall (Z.le 0) num_tracks ->
  pairs_before num_tracks (List.length num_tracks) = Z.to_nat (sum_counts num_tracks).
Proof.
  intros Hall. unfold pairs_before. rewrite take_ge by lia.
  induction Hall as [|a l Ha Hall IH]; simpl; [reflexivity|].
  assert (0 <= sum_counts l) by (clear -Hall; induction Hall; simpl; lia).
  rewrite IH. lia.
Qed.

(** The outcome of the builder once the allocator has answered: the track
    loop appends twice the allocated pairs, and the assertion compares that
    number with the width. *)
Lemma build_unidir_chan_node_details_outcome (fuel : nat) (chan_width max_seg_length : Z)
    (device_side : e_side) (segment_inf : list t_segment_inf) (num_tracks : list Z) :
  0 <= chan_width < SIZE_T_MODULUS ->
  round_up_to_even chan_width <> 0 ->
  Allocator.get_num_tracks_per_seg_type fuel (round_up_to_even chan_width / 2) segment_inf true
    = Ret num_tracks ->
  Forall (fun seg => 0 < effective_length max_seg_length seg) segment_inf ->
  exists tracks,
    List.length tracks = (2 * pairs_before num_tracks (List.length segment_inf))%nat /\
    build_unidir_chan_node_details fuel chan_width max_seg_length device_side segment_inf
      = if to_size_t (Z.of_nat (List.length tracks)) =? round_up_to_even chan_width
        then Ret (apply_device_side device_side tracks)
        else Fatal.
Proof.
  intros Hw Hnz Halloc Hpos.
  unfold build_unidir_chan_node_details, build_tracks.
  rewrite (ChannelFacts.round_up_to_even_is_even chan_width Hw). simpl negb. cbv iota.
  destruct (round_up_to_even chan_width =? 0) eqn:E0; [apply Z.eqb_eq in E0; contradiction|].
  rewrite Halloc, bind_Ret.
  destruct (ChannelFacts.add_tracks_spec segment_inf 0 num_tracks max_seg_length [])
    as (new & Hrun & _).
  { simpl. rewrite (AllocatorFacts.get_num_tracks_result_size _ _ _ _ _ Halloc). lia. }
  { eapply Forall_impl; [exact Hpos|]. simpl. intros; lia. }
  change (to_size_t (Z.of_nat (List.length ([] : ChanNodeDetails.t)))) with 0 in Hrun.
  simpl app in Hrun. rewrite Hrun, bind_Ret.
  exists new. split; [|reflexivity].
  apply (ChannelFacts.add_tracks_length segment_inf 0%nat num_tracks max_seg_length 0 [] new) in Hrun.
  rewrite Hrun. unfold pairs_before at 2. simpl. lia.
Qed.

(** The allocator with groups of one track reaches the budget exactly. *)
Lemma get_num_tracks_unit_groups (fuel : nat) (W : Z) (segment_inf : list t_segment_inf) :
  0 < W -> W + 1 <= SIZE_T_MODULUS -> segment_inf <> [] ->
  Forall (fun s => Seg.length s = 1) segment_inf ->
  (Z.to_nat W <= fuel)%nat ->
  exists num_tracks,
    Allocator.get_num_tracks_per_seg_type fuel W segment_inf true = Ret num_tracks /\
    List.length num_tracks = List.length segment_inf /\
    Forall (Z.le 0) num_tracks /\ sum_counts num_tracks = W.
Proof.
  intros HW Hroom Hne Hone Hfuel.
  assert (Hlen : Forall (fun s => 0 < Seg.length s /\ W + Seg.length s <= SIZE_T_MODULUS)
                        segment_inf).
  { eapply Forall_impl; [exact Hone|]. simpl. intros s ->. lia. }
  unfold Allocator.get_num_tracks_per_seg_type.
  destruct (Allocator.scale_and_freq_sum segment_inf 1 0) as [scale freq_sum].
  set (st0 := Allocator.LoopState _ _ 0 0 0%nat).
  assert (Hinv0 : Allocator.loop_invariant W segment_inf true st0).
  { constructor; simpl.
    - apply List.length_map.
    - apply List.length_map.
    - apply Forall_nonneg_zeros.
    - apply sum_counts_zeros.
    - destruct segment_inf; [congruence | simpl; lia].
    - now left. }
  destruct (AllocatorFacts.assign_loop_spec W segment_inf true (size_mul scale freq_sum)
              HW Hroom Hlen fuel st0 Hinv0) as (st & Hloop & Hinv & Hge & Hor).
  { simpl. lia. }
  rewrite Hloop, bind_Ret.
  assert (Hsize : 0 < Allocator.size st).
  { destruct Hor as [->|]; [simpl in Hge; lia | assumption]. }
  destruct Hinv as [Hr Hd Hnn Hsum Himax Hlast].
  destruct Hlast as [Hz|((s & Hin & Hs) & _ & Hprev & _)]; [lia|].
  rewrite Forall_forall in Hone. rewrite (Hone s Hin) in Hs.
  unfold Allocator.undo_last. rewrite Hs, size_sub_small by lia.
  destruct (1 / 2 <? Allocator.assigned st - W) eqn:E.
  - apply Z.ltb_lt in E. change (1 / 2) with 0 in E. lia.
  - eexists. split; [reflexivity|]. repeat split; try assumption. lia.
Qed.

End ChannelMore.

(** X3.  Once the allocator has answered (and every effective length is
    positive), the track loop returns its tracks: exactly two per allocated
    pair, with the running index [cur_track] equal to their number.  The
    builder returns those tracks under the border override if [cur_track]
    is the even-rounded width, and stops on its assertion otherwise.  The
    border side plays no part in whether it returns. *)
Theorem build_unidir_chan_node_details_returns_iff_pairs_fit
    (fuel : nat) (chan_width max_seg_length : Z) (device_side : e_side)
    (segment_inf : list t_segment_inf) (num_tracks : list Z) :
  0 <= chan_width < SIZE_T_MODULUS ->
  ChannelBuilder.round_up_to_even chan_width <> 0 ->
  Allocator.get_num_tracks_per_seg_type
    fuel (ChannelBuilder.round_up_to_even chan_width / 2) segment_inf true = Ret num_tracks ->
  Forall (fun seg => 0 < ChannelBuilder.effective_length max_seg_length seg) segment_inf ->
  exists cur_track tracks,
    ChannelBuilder.build_tracks
      fuel (ChannelBuilder.round_up_to_even chan_width) max_seg_length segment_inf
      = Ret (cur_track, tracks) /\
    cur_track = to_size_t (Z.of_nat (List.length tracks)) /\
    List.length tracks
      = (2 * ChannelBuilder.pairs_before num_tracks (List.length segment_inf))%nat /\
    ChannelBuilder.build_unidir_chan_node_details
      fuel chan_width max_seg_length device_side segment_inf
      = if cur_track =? ChannelBuilder.round_up_to_even chan_width
        then Ret (ChannelBuilder.apply_device_side device_side tracks)
        else Fatal.
Proof.
  intros Hw Hnz Halloc Hpos.
  unfold ChannelBuilder.build_unidir_chan_node_details, ChannelBuilder.build_tracks.
  rewrite (ChannelFacts.round_up_to_even_is_even chan_width Hw). simpl negb. cbv iota.
  destruct (ChannelBuilder.round_up_to_even chan_width =? 0) eqn:E0;
    [apply Z.eqb_eq in E0; contradiction|].
  rewrite Halloc, !bind_Ret.
  destruct (ChannelFacts.add_tracks_spec segment_inf 0 num_tracks max_seg_length [])
    as (new & Hrun & _).
  { simpl. rewrite (AllocatorFacts.get_num_tracks_result_size _ _ _ _ _ Halloc). lia. }
  { eapply Forall_impl; [exact Hpos|]. simpl. intros; lia. }
  change (to_size_t (Z.of_nat (List.length ([] : ChanNodeDetails.t)))) with 0 in Hrun.
  simpl app in Hrun. rewrite Hrun, bind_Ret.
  exists (to_size_t (Z.of_nat (List.length new))), new.
  split; [reflexivity|]. split; [reflexivity|]. split; [|reflexivity].
  apply (ChannelFacts.add_tracks_length segment_inf 0%nat num_tracks max_seg_length 0 [] new)
    in Hrun.
  rewrite Hrun. unfold ChannelBuilder.pairs_before at 2. simpl. lia.
Qed.

Lemma build_unidir_chan_node_details_returns_iff_pairs_fit_witness :
  exists cur_track tracks,
    ChannelBuilder.build_tracks
      6 (ChannelBuilder.round_up_to_even 11) 3 [Seg.Build 1 2 false; Seg.Build 1 4 true]
      = Ret (cur_track, tracks) /\
    cur_track = to_size_t (Z.of_nat (List.length tracks)) /\
    List.length tracks = (2 * ChannelBuilder.pairs_before [2%Z; 4%Z] 2)%nat /\
    ChannelBuilder.build_unidir_chan_node_details
      6 11 3 TOP [Seg.Build 1 2 false; Seg.Build 1 4 true]
      = if cur_track =? ChannelBuilder.round_up_to_even 11
        then Ret (ChannelBuilder.apply_device_side TOP tracks)
        else Fatal.
Proof.
  apply (build_unidir_chan_node_details_returns_iff_pairs_fit
           6 11 3 TOP [Seg.Build 1 2 false; Seg.Build 1 4 true] [2; 4]).
  - unfold SIZE_T_MODULUS. lia.
  - discriminate.
  - vm_compute. reflexivity.
  - repeat constructor.
Defined.

(** X4.  When every segment type has declared length 1 (and a positive
    effective length), the builder returns a channel for every positive
    width as soon as the fuel covers half the width, and the channel has
    exactly as many tracks as the even-rounded width: the assertion cannot
    fail. *)
Theorem build_unidir_chan_node_details_unit_lengths
    (fuel : nat) (chan_width max_seg_length : Z) (device_side : e_side)
    (segment_inf : list t_segment_inf) :
  0 < chan_width -> chan_width + 1 < SIZE_T_MODULUS ->
  segment_inf <> [] ->
  Forall (fun seg => Seg.length seg = 1 /\
                     0 < ChannelBuilder.effective_length max_seg_length seg) segment_inf ->
  (Z.to_nat (ChannelBuilder.round_up_to_even chan_width / 2) <= fuel)%nat ->
  exists chan_node_details,
    ChannelBuilder.build_unidir_chan_node_details
      fuel chan_width max_seg_length device_side segment_inf = Ret chan_node_details /\
    Z.of_nat (List.length chan_node_details) = ChannelBuilder.round_up_to_even chan_width.
Proof.
  intros Hw Hroom Hne Hall Hfuel.
  assert (Hround : ChannelBuilder.round_up_to_even chan_width mod 2 = 0 /\
                   chan_width <= ChannelBuilder.round_up_to_even chan_width <= chan_width + 1).
  { split; [apply ChannelFacts.round_up_to_even_is_even; lia|].
    unfold ChannelBuilder.round_up_to_even. destruct (_ =? 0); [lia|].
    rewrite size_add_small by lia. lia. }
  destruct Hround as [Heven Hbounds].
  set (W := ChannelBuilder.round_up_to_even chan_width) in *.
  assert (Hhalf : 0 < W / 2 /\ 2 * (W / 2) = W) by (Z.div_mod_to_equations; lia).
  destruct (ChannelMore.get_num_tracks_unit_groups fuel (W / 2) segment_inf)
    as (num_tracks & Halloc & Hlen & Hnn & Hsum); try lia; try assumption.
  { eapply Forall_impl; [exact Hall|]. simpl. tauto. }
  destruct (ChannelMore.build_unidir_chan_node_details_outcome
              fuel chan_width max_seg_length device_side segment_inf num_tracks)
    as (tracks & Htracks & Hrun); try (fold W; lia); try assumption.
  { eapply Forall_impl; [exact Hall|]. simpl. tauto. }
  fold W in Hrun. rewrite <- Hlen, ChannelMore.pairs_before_all, Hsum in Htracks by assumption.
  assert (Hcount : Z.of_nat (List.length tracks) = W) by lia.
  rewrite Hcount, to_size_t_small, Z.eqb_refl in Hrun by lia.
  eexists. split; [exact Hrun|].
  destruct device_side; simpl;
    unfold ChanNodeDetails.set_tracks_start, ChanNodeDetails.set_tracks_end;
    rewrite ?List.length_map; exact Hcount.
Qed.

Lemma build_unidir_chan_node_details_unit_lengths_witness :
  exists chan_node_details,
    ChannelBuilder.build_unidir_chan_node_details
      3 5 4 LEFT [Seg.Build 2 1 false; Seg.Build 1 1 true] = Ret chan_node_details /\
    Z.of_nat (List.length chan_node_details) = ChannelBuilder.round_up_to_even 5.
Proof.
  apply (build_unidir_chan_node_details_unit_lengths
           3 5 4 LEFT [Seg.Build 2 1 false; Seg.Build 1 1 true]).
  - lia.
  - unfold SIZE_T_MODULUS. lia.
  - discriminate.
  - repeat constructor.
  - vm_compute. lia.
Defined.

(** X5.  An odd width and the even width above it give the same outcome:
    the builder only ever works with the rounded width. *)
Theorem build_unidir_chan_node_details_odd_width
    (fuel : nat) (chan_width max_seg_length : Z) (device_side : e_side)
    (segment_inf : list t_segment_inf) :
  0 <= chan_width -> chan_width mod 2 = 1 -> chan_width + 1 < SIZE_T_MODULUS ->
  ChannelBuilder.build_unidir_chan_node_details
    fuel chan_width max_seg_length device_side segment_inf
  = ChannelBuilder.build_unidir_chan_node_details
      fuel (chan_width + 1) max_seg_length device_side segment_inf.
Proof.
  intros Hw Hodd Hroom. unfold ChannelBuilder.build_unidir_chan_node_details.
  assert (H1 : ChannelBuilder.round_up_to_even chan_width = chan_width + 1).
  { unfold ChannelBuilder.round_up_to_even. rewrite Hodd. simpl.
    apply size_add_small. lia. }
  assert (H2 : ChannelBuilder.round_up_to_even (chan_width + 1) = chan_width + 1).
  { unfold ChannelBuilder.round_up_to_even.
    replace ((chan_width + 1) mod 2) with 0 by (Z.div_mod_to_equations; lia). reflexivity. }
  now rewrite H1, H2.
Qed.

Lemma build_unidir_chan_node_details_odd_width_witness :
  ChannelBuilder.build_unidir_chan_node_details 6 11 3 TOP [Seg.Build 1 2 false]
  = ChannelBuilder.build_unidir_chan_node_details 6 (11 + 1) 3 TOP [Seg.Build 1 2 false].
Proof.
  apply (build_unidir_chan_node_details_odd_width 6 11 3 TOP [Seg.Build 1 2 false]).
  - lia.
  - reflexivity.
  - unfold SIZE_T_MODULUS. lia.
Defined.

(** ** NodeCensus *)

Module CensusMore.
Import NodeCensus.

Lemma bind_Ret_inv {A B : Type} (m : outcome A) (f : A -> outcome B) (b : B) :
  (m ≫= f) = Ret b -> exists a, m = Ret a /\ f a = Ret b.
Proof. destruct m as [a| | |]; simpl; try discriminate. eauto. Qed.

Lemma counts_add_length (t : t_rr_type) (k : Z) (counts : list Z) :
  List.length (counts_add t k counts) = List.length counts.
Proof. apply length_alter. Qed.

Lemma counts_add_other (t : t_rr_type) (k : Z) (counts : list Z) (i : nat) :
  i <> rr_type_index t -> counts_add t k counts !! i = counts !! i.
Proof. intros H. apply list_lookup_alter_ne. congruence. Qed.

Lemma add_each_trip_keeps (trips : N) (t : t_rr_type) (k : Z) (counts : list Z) :
  List.length (add_each_trip trips t k counts) = List.length counts /\
  forall i, i <> rr_type_index t -> add_each_trip trips t k counts !! i = counts !! i.
Proof.
  unfold add_each_trip.
  apply (N.iter_invariant trips (list Z) (counts_add t k)
           (fun c => List.length c = List.length counts /\
                     forall i, i <> rr_type_index t -> c !! i = counts !! i)).
  - intros c [Hlen Hother]. split.
    + now rewrite counts_add_length.
    + intros i Hi. rewrite counts_add_other by assumption. now apply Hother.
  - auto.
Qed.

(** The entry a loop adds to, after the loop. *)
Lemma add_each_trip_total (trips : N) (t : t_rr_type) (k x : Z) (counts : list Z) :
  counts !! rr_type_index t = Some x -> 0 <= x < SIZE_T_MODULUS ->
  add_each_trip trips t k counts !! rr_type_index t = Some (to_size_t (x + Z.of_N trips * k)).
Proof.
  intros Hx Hrange. unfold add_each_trip.
  induction trips as [|n IH] using N.peano_ind.
  - simpl. rewrite Hx, Z.add_0_r, to_size_t_small by assumption. reflexivity.
  - rewrite N.iter_succ. unfold counts_add at 1. rewrite list_lookup_alter_eq, IH. simpl.
    rewrite ChannelFacts.size_add_to_size_t. do 2 f_equal. lia.
Qed.

Lemma add_each_trip_add (a b : N) (t : t_rr_type) (k : Z) (counts : list Z) :
  add_each_trip a t k (add_each_trip b t k counts) = add_each_trip (a + b) t k counts.
Proof. unfold add_each_trip. now rewrite N.iter_add. Qed.

(** The core loops over columns that all have [ny] cells. *)
Lemma add_core_rectangular (ny : nat) (t : t_rr_type) (k : Z)
    (columns : list (list t_grid_tile)) :
  Forall (fun column => List.length column = ny) columns ->
  forall (ix bound : Z) (counts : list Z),
    bound - ix <= Z.of_nat (List.length columns) ->
    add_core columns ix bound t k counts
      = Ret (add_each_trip
               (Z.to_N (bound - ix) * trip_count 1 (size_sub (Z.of_nat ny) 2)) t k counts).
Proof.
  induction 1 as [|column rest Hcol Hrest IH]; intros ix bound counts Hfit; simpl in *.
  - destruct (ix <? bound) eqn:E; [apply Z.ltb_lt in E; lia|].
    apply Z.ltb_ge in E. replace (Z.to_N (bound - ix)) with 0%N by lia. reflexivity.
  - destruct (ix <? bound) eqn:E.
    + apply Z.ltb_lt in E. rewrite IH by lia. rewrite Hcol, add_each_trip_add.
      do 2 f_equal. replace (bound - ix) with (Z.succ (bound - (ix + 1))) by lia.
      rewrite Z2N.inj_succ by lia. lia.
    + apply Z.ltb_ge in E. replace (Z.to_N (bound - ix)) with 0%N by lia. reflexivity.
Qed.

Lemma add_core_channels_rectangular (nx ny : nat) (t : t_rr_type) (k : Z)
    (grids : list (list t_grid_tile)) (counts : list Z) :
  List.length grids = nx -> Forall (fun column => List.length column = ny) grids ->
  (2 <= nx)%nat -> (2 <= ny)%nat ->
  Z.of_nat nx < SIZE_T_MODULUS -> Z.of_nat ny < SIZE_T_MODULUS ->
  add_core_channels grids t k counts
    = Ret (add_each_trip (N.of_nat ((nx - 3) * (ny - 3))) t k counts).
Proof.
  intros Hnx Hny Hx Hy Hxm Hym. unfold add_core_channels.
  rewrite Hnx, size_sub_small by lia.
  rewrite (add_core_rectangular ny).
  - do 2 f_equal. unfold trip_count. rewrite size_sub_small by lia. lia.
  - apply Forall_drop. exact Hny.
  - rewrite length_drop. lia.
Qed.

Lemma add_core_keeps (t : t_rr_type) (k : Z) (columns : list (list t_grid_tile)) :
  forall (ix bound : Z) (counts counts' : list Z),
    add_core columns ix bound t k counts = Ret counts' ->
    List.length counts' = List.length counts /\
    forall i, i <> rr_type_index t -> counts' !! i = counts !! i.
Proof.
  induction columns as [|column rest IH]; intros ix bound counts counts' H; simpl in H;
    destruct (ix <? bound); try discriminate; try (injection H as <-; auto).
  apply IH in H as [Hlen Hother].
  destruct (add_each_trip_keeps (trip_count 1 (size_sub (Z.of_nat (List.length column)) 2))
              t k counts) as [Hlen' Hother'].
  split; [congruence|]. intros i Hi. rewrite Hother by assumption. now apply Hother'.
Qed.

(** The pin-counting loops write the OPIN and IPIN entries only. *)
Lemma count_cell_pins_keeps (device_size : DeviceCoordinator) (grid : list (list t_grid_tile))
    (ix iy : nat) (cell : t_grid_tile) (counts counts' : list Z) :
  count_cell_pins device_size grid ix iy cell counts = Ret counts' ->
  List.length counts' = List.length counts /\
  forall i, i <> rr_type_index IPIN -> i <> rr_type_index OPIN -> counts' !! i = counts !! i.
Proof.
  unfold count_cell_pins. intros H.
  destruct (points_to EMPTY_TYPE (type cell)); [injection H as <-; auto|].
  destruct (0 <? offset cell); [injection H as <-; auto|].
  apply bind_Ret_inv in H as (g & _ & H). apply bind_Ret_inv in H as (side & _ & H).
  apply bind_Ret_inv in H as (opins & _ & H). apply bind_Ret_inv in H as (ipins & _ & H).
  injection H as <-. split.
  - now rewrite !counts_add_length.
  - intros i Hi Ho. now rewrite !counts_add_other.
Qed.

Lemma count_column_pins_keeps (device_size : DeviceCoordinator) (grid : list (list t_grid_tile))
    (ix : nat) (column : list t_grid_tile) :
  forall (iy : nat) (counts counts' : list Z),
    count_column_pins device_size grid ix iy column counts = Ret counts' ->
    List.length counts' = List.length counts /\
    forall i, i <> rr_type_index IPIN -> i <> rr_type_index OPIN -> counts' !! i = counts !! i.
Proof.
  induction column as [|cell rest IH]; intros iy counts counts' H; simpl in H.
  - injection H as <-. auto.
  - apply bind_Ret_inv in H as (c1 & H1 & H). apply count_cell_pins_keeps in H1 as [L1 O1].
    apply IH in H as [L2 O2]. split; [congruence|].
    intros i Hi Ho. rewrite O2, O1; auto.
Qed.

Lemma count_grid_pins_keeps (device_size : DeviceCoordinator) (grid : list (list t_grid_tile))
    (grids : list (list t_grid_tile)) :
  forall (ix : nat) (counts counts' : list Z),
    count_grid_pins device_size grid ix grids counts = Ret counts' ->
    List.length counts' = List.length counts /\
    forall i, i <> rr_type_index IPIN -> i <> rr_type_index OPIN -> counts' !! i = counts !! i.
Proof.
  induction grids as [|column rest IH]; intros ix counts counts' H; simpl in H.
  - injection H as <-. auto.
  - apply bind_Ret_inv in H as (c1 & H1 & H). apply count_column_pins_keeps in H1 as [L1 O1].
    apply IH in H as [L2 O2]. split; [congruence|].
    intros i Hi Ho. rewrite O2, O1; auto.
Qed.

(** What the pin part of the census hands to the channel part. *)
Lemma count_pins_shape (device_size : DeviceCoordinator)
    (grid grids : list (list t_grid_tile)) (counts : list Z) :
  count_pins device_size grid grids = Ret counts ->
  exists opins ipins, counts = [opins; ipins; ipins; opins; 0; 0; 0].
Proof.
  unfold count_pins. intros H. apply bind_Ret_inv in H as (c0 & H0 & H).
  apply count_grid_pins_keeps in H0 as [Hlen Hother]. simpl in Hlen.
  destruct c0 as [|a0 [|a1 [|a2 [|a3 [|a4 [|a5 [|a6 [|]]]]]]]]; try discriminate.
  pose proof (Hother 4%nat ltac:(discriminate) ltac:(discriminate)) as H4.
  pose proof (Hother 5%nat ltac:(discriminate) ltac:(discriminate)) as H5.
  pose proof (Hother 6%nat ltac:(discriminate) ltac:(discriminate)) as H6.
  simpl in H4, H5, H6. injection H4 as ->. injection H5 as ->. injection H6 as ->.
  injection H as <-. exists a3, a2. reflexivity.
Qed.

Lemma keeps_pin_counts_trans (c1 c2 c3 : list Z) :
  keeps_pin_counts c1 c2 -> keeps_pin_counts c2 c3 -> keeps_pin_counts c1 c3.
Proof.
  intros [L1 O1] [L2 O2]. split; [congruence|].
  intros i Hx Hy. rewrite O2, O1; auto.
Qed.

Lemma add_each_trip_keeps_pins (trips : N) (t : t_rr_type) (k : Z) (counts : list Z) :
  t = CHANX \/ t = CHANY -> keeps_pin_counts counts (add_each_trip trips t k counts).
Proof.
  intros Ht. destruct (add_each_trip_keeps trips t k counts) as [Hlen Hother].
  split; [assumption|]. intros i Hx Hy. apply Hother. destruct Ht as [-> | ->]; assumption.
Qed.

Lemma add_core_channels_keeps_pins (grids : list (list t_grid_tile)) (t : t_rr_type) (k : Z)
    (counts counts' : list Z) :
  t = CHANX \/ t = CHANY ->
  add_core_channels grids t k counts = Ret counts' -> keeps_pin_counts counts counts'.
Proof.
  intros Ht H. apply add_core_keeps in H as [Hlen Hother].
  split; [assumption|]. intros i Hx Hy. apply Hother. destruct Ht as [-> | ->]; assumption.
Qed.

Lemma count_channels_keeps (fuel : nat) (device_size : DeviceCoordinator)
    (grids : list (list t_grid_tile)) (chan_width : list Z)
    (segment_infs : list t_segment_inf) (counts counts' : list Z) :
  count_channels fuel device_size grids chan_width segment_infs counts = Ret counts' ->
  keeps_pin_counts counts counts'.
Proof.
  unfold count_channels. cbv zeta. intros H.
  apply bind_Ret_inv in H as (w0 & _ & H). apply bind_Ret_inv in H as (lx & _ & H).
  apply bind_Ret_inv in H as (w0b & _ & H). apply bind_Ret_inv in H as (rx & _ & H).
  apply bind_Ret_inv in H as (w1 & _ & H). apply bind_Ret_inv in H as (cx & _ & H).
  apply bind_Ret_inv in H as (c3 & Hcx & H).
  apply bind_Ret_inv in H as (w1b & _ & H). apply bind_Ret_inv in H as (ty & _ & H).
  apply bind_Ret_inv in H as (w1c & _ & H). apply bind_Ret_inv in H as (bty & _ & H).
  apply bind_Ret_inv in H as (w1d & _ & H). apply bind_Ret_inv in H as (cy & _ & H).
  apply add_core_channels_keeps_pins in H; [|now right].
  apply add_core_channels_keeps_pins in Hcx; [|now left].
  eapply keeps_pin_counts_trans; [|exact H].
  eapply keeps_pin_counts_trans; [|apply add_each_trip_keeps_pins; now right].
  eapply keeps_pin_counts_trans; [|apply add_each_trip_keeps_pins; now right].
  eapply keeps_pin_counts_trans; [|exact Hcx].
  eapply keeps_pin_counts_trans; [|apply add_each_trip_keeps_pins; now left].
  apply add_each_trip_keeps_pins; now left.
Qed.

(** Every cell of a column the loop got through was counted. *)
Lemma count_column_pins_cell (device_size : DeviceCoordinator) (grid : list (list t_grid_tile))
    (ix : nat) (column : list t_grid_tile) :
  forall (iy : nat) (counts counts' : list Z) (j : nat) (cell : t_grid_tile),
    count_column_pins device_size grid ix iy column counts = Ret counts' ->
    column !! j = Some cell ->
    exists c c', count_cell_pins device_size grid ix (iy + j) cell c = Ret c'.
Proof.
  induction column as [|first rest IH]; intros iy counts counts' j cell H Hj;
    [destruct j; discriminate|].
  simpl in H. apply bind_Ret_inv in H as (c1 & H1 & H).
  destruct j as [|j]; simpl in Hj.
  - injection Hj as ->. rewrite Nat.add_0_r. eauto.
  - destruct (IH _ _ _ _ _ H Hj) as (c & c' & Hc). exists c, c'.
    now replace (iy + S j)%nat with (S iy + j)%nat by lia.
Qed.

Lemma count_grid_pins_column (device_size : DeviceCoordinator) (grid : list (list t_grid_tile))
    (grids : list (list t_grid_tile)) :
  forall (ix : nat) (counts counts' : list Z) (i : nat) (column : list t_grid_tile),
    count_grid_pins device_size grid ix grids counts = Ret counts' ->
    grids !! i = Some column ->
    exists c c', count_column_pins device_size grid (ix + i) 0 column c = Ret c'.
Proof.
  induction grids as [|first rest IH]; intros ix counts counts' i column H Hi;
    [destruct i; discriminate|].
  simpl in H. apply bind_Ret_inv in H as (c1 & H1 & H).
  destruct i as [|i]; simpl in Hi.
  - injection Hi as ->. rewrite Nat.add_0_r. eauto.
  - destruct (IH _ _ _ _ _ H Hi) as (c & c' & Hc). exists c, c'.
    now replace (ix + S i)%nat with (S ix + i)%nat by lia.
Qed.

(** A counted cell that the global grid marks as IO went through
    [determine_io_grid_pin_side]. *)
Lemma count_cell_pins_io (device_size : DeviceCoordinator) (grid : list (list t_grid_tile))
    (ix iy : nat) (cell global_cell : t_grid_tile) (counts counts' : list Z) :
  count_cell_pins device_size grid ix iy cell counts = Ret counts' ->
  points_to EMPTY_TYPE (type cell) = false -> offset cell <= 0 ->
  grid_at grid ix iy = Ret global_cell -> points_to IO_TYPE (type global_cell) = true ->
  exists side,
    determine_io_grid_pin_side device_size (Coordinator (Z.of_nat ix) (Z.of_nat iy)) = Ret side.
Proof.
  unfold count_cell_pins. intros H Hempty Hoffset Hglobal Hio.
  rewrite Hempty in H. destruct (0 <? offset cell) eqn:E; [apply Z.ltb_lt in E; lia|].
  rewrite Hglobal, bind_Ret, Hio in H.
  apply bind_Ret_inv in H as (side & Hside & _). eauto.
Qed.

Lemma determine_io_grid_pin_side_returns (device_size gc : DeviceCoordinator) (side : e_side) :
  determine_io_grid_pin_side device_size gc = Ret side ->
  get_y device_size = get_y gc \/ get_x device_size = get_x gc \/
  0 = get_y gc \/ 0 = get_x gc.
Proof.
  unfold determine_io_grid_pin_side. intros H.
  destruct (get_y device_size =? get_y gc) eqn:E1; [apply Z.eqb_eq in E1; auto|].
  destruct (get_x device_size =? get_x gc) eqn:E2; [apply Z.eqb_eq in E2; auto|].
  destruct (0 =? get_y gc) eqn:E3; [apply Z.eqb_eq in E3; auto|].
  destruct (0 =? get_x gc) eqn:E4; [apply Z.eqb_eq in E4; auto|].
  discriminate.
Qed.

(** Cells that are skipped leave the counts alone, whatever the global grid. *)
Lemma count_column_pins_skipped (device_size : DeviceCoordinator)
    (grid : list (list t_grid_tile)) (ix : nat) (column : list t_grid_tile) :
  Forall (fun cell => points_to EMPTY_TYPE (type cell) = true \/ 0 < offset cell) column ->
  forall (iy : nat) (counts : list Z),
    count_column_pins device_size grid ix iy column counts = Ret counts.
Proof.
  induction 1 as [|cell rest Hcell Hrest IH]; intros iy counts; simpl; [reflexivity|].
  unfold count_cell_pins. destruct Hcell as [-> | Hoff].
  - rewrite bind_Ret. apply IH.
  - destruct (points_to EMPTY_TYPE (type cell)); [rewrite bind_Ret; apply IH|].
    destruct (0 <? offset cell) eqn:E; [|apply Z.ltb_ge in E; lia].
    rewrite bind_Ret. apply IH.
Qed.

Lemma count_grid_pins_skipped (device_size : DeviceCoordinator)
    (grid : list (list t_grid_tile)) (grids : list (list t_grid_tile)) :
  Forall (Forall (fun cell => points_to EMPTY_TYPE (type cell) = true \/ 0 < offset cell))
         grids ->
  forall (ix : nat) (counts : list Z),
    count_grid_pins device_size grid ix grids counts = Ret counts.
Proof.
  induction 1 as [|column rest Hcolumn Hrest IH]; intros ix counts; simpl; [reflexivity|].
  rewrite count_column_pins_skipped by assumption. rewrite bind_Ret. apply IH.
Qed.

Lemma to_size_t_add_l (a b : Z) : to_size_t (to_size_t a + b) = to_size_t (a + b).
Proof. unfold to_size_t. apply Z.add_mod_idemp_l. unfold SIZE_T_MODULUS. lia. Qed.

(** A loop of additions, as one assignment. *)
Lemma add_each_trip_insert (trips : N) (t : t_rr_type) (k x : Z) (counts : list Z) :
  counts !! rr_type_index t = Some x -> 0 <= x < SIZE_T_MODULUS ->
  add_each_trip trips t k counts
    = <[rr_type_index t := to_size_t (x + Z.of_N trips * k)]> counts.
Proof.
  intros Hx Hrange. apply list_eq. intros i.
  destruct (decide (i = rr_type_index t)) as [-> | Hne].
  - rewrite (add_each_trip_total trips t k x) by assumption.
    symmetry. apply list_lookup_insert_eq. now apply lookup_lt_is_Some_1.
  - rewrite list_lookup_insert_ne by congruence.
    now apply add_each_trip_keeps.
Qed.

(** The channel part on a rectangular grid, from the six representatives. *)
Lemma count_channels_rectangular (fuel nx ny : nat) (device_x device_y : Z)
    (grids : list (list t_grid_tile)) (w0 w1 : Z) (segment_infs : list t_segment_inf)
    (left_x right_x core_x top_y bottom_y core_y : ChanNodeDetails.t)
    (opins ipins : Z) :
  let build := ChannelBuilder.build_unidir_chan_node_details fuel in
  let starts := ChanNodeDetails.get_num_starting_tracks in
  let core := Z.of_nat ((nx - 3) * (ny - 3)) in
  List.length grids = nx -> Forall (fun column => List.length column = ny) grids ->
  (2 <= nx)%nat -> (2 <= ny)%nat ->
  Z.of_nat nx < SIZE_T_MODULUS -> Z.of_nat ny < SIZE_T_MODULUS ->
  1 <= device_x < SIZE_T_MODULUS -> 1 <= device_y < SIZE_T_MODULUS ->
  build w0 (size_sub device_x 2) LEFT segment_infs = Ret left_x ->
  build w0 (size_sub device_x 2) RIGHT segment_infs = Ret right_x ->
  build w1 (size_sub device_x 2) NUM_SIDES segment_infs = Ret core_x ->
  build w1 (size_sub device_y 2) TOP segment_infs = Ret top_y ->
  build w1 (size_sub device_y 2) BOTTOM segment_infs = Ret bottom_y ->
  build w1 (size_sub device_y 2) NUM_SIDES segment_infs = Ret core_y ->
  count_channels fuel (Coordinator device_x device_y) grids [w0; w1] segment_infs
                 [opins; ipins; ipins; opins; 0; 0; 0]
    = Ret [opins; ipins; ipins; opins;
           to_size_t ((device_y - 1) * (starts left_x + starts right_x) + core * starts core_x);
           to_size_t ((device_x - 1) * (starts top_y + starts bottom_y) + core * starts core_y);
           0].
Proof.
  intros build starts core Hnx Hny Hx Hy Hxm Hym Hdx Hdy Hl Hr Hc Ht Hb Hcy.
  assert (Hzero : 0 <= 0 < SIZE_T_MODULUS) by (unfold SIZE_T_MODULUS; lia).
  unfold count_channels. cbv zeta. cbn [get_x get_y].
  fold build. fold starts.
  rewrite (vector_at_Some [w0; w1] 0 w0 eq_refl), (vector_at_Some [w0; w1] 1 w1 eq_refl).
  rewrite ?bind_Ret, Hl, ?bind_Ret, Hr, ?bind_Ret, Hc, ?bind_Ret.
  rewrite (add_each_trip_insert _ CHANX _ 0 [_; _; _; _; _; _; _]) by (reflexivity || exact Hzero).
  cbn [rr_type_index]. simpl (<[4%nat := _]> _).
  erewrite (add_each_trip_insert _ CHANX _ _ [_; _; _; _; _; _; _]) by (reflexivity || apply to_size_t_range).
  cbn [rr_type_index]. simpl (<[4%nat := _]> _).
  rewrite (add_core_channels_rectangular nx ny) by assumption. rewrite ?bind_Ret.
  erewrite (add_each_trip_insert _ CHANX _ _ [_; _; _; _; _; _; _]) by (reflexivity || apply to_size_t_range).
  cbn [rr_type_index]. simpl (<[4%nat := _]> _).
  rewrite Ht, ?bind_Ret, Hb, ?bind_Ret, Hcy, ?bind_Ret.
  rewrite (add_each_trip_insert _ CHANY _ 0 [_; _; _; _; _; _; _]) by (reflexivity || exact Hzero).
  cbn [rr_type_index]. simpl (<[5%nat := _]> _).
  erewrite (add_each_trip_insert _ CHANY _ _ [_; _; _; _; _; _; _]) by (reflexivity || apply to_size_t_range).
  cbn [rr_type_index]. simpl (<[5%nat := _]> _).
  rewrite (add_core_channels_rectangular nx ny) by assumption.
  erewrite (add_each_trip_insert _ CHANY _ _ [_; _; _; _; _; _; _]) by (reflexivity || apply to_size_t_range).
  cbn [rr_type_index]. simpl (<[5%nat := _]> _).
  unfold trip_count. rewrite !size_sub_small, !nat_N_Z, !Z2N.id by lia.
  rewrite !to_size_t_add_l, <- !Z.add_assoc, !to_size_t_add_l. unfold core.
  do 5 f_equal. f_equal; [f_equal; ring | do 2 f_equal; ring].
Qed.

(** Of the pins on one side, the drivers and the receivers are different
    pins. *)
Lemma filter_two_classes {A : Type} (f g : A -> bool) (l : list A) :
  (forall a, f a = true -> g a = false) ->
  (List.length (List.filter f l) + List.length (List.filter g l) <= List.length l)%nat.
Proof.
  intros Hfg. induction l as [|a l IH]; simpl; [lia|].
  destruct (f a) eqn:Ef.
  - rewrite (Hfg a Ef). simpl. lia.
  - destruct (g a); simpl; lia.
Qed.

End CensusMore.

(** X6.  The census gets through the pin loops only if every counted cell
    (not of the empty type, offset not positive) that the global grid marks
    as IO lies in row 0 or in column 0 of the device: for any other cell
    inside the device [determine_io_grid_pin_side] finds no side and the run
    ends. *)
Theorem census_returns_only_with_io_in_row_or_column_zero
    (fuel : nat) (device_size : NodeCensus.DeviceCoordinator)
    (grid grids : list (list NodeCensus.t_grid_tile)) (chan_width : list Z)
    (segment_infs : list t_segment_inf) (counts : list Z)
    (ix iy : nat) (column global_column : list NodeCensus.t_grid_tile)
    (cell global_cell : NodeCensus.t_grid_tile) :
  NodeCensus.estimate_num_rr_nodes_per_type fuel device_size grid grids chan_width segment_infs
    = Ret counts ->
  grids !! ix = Some column -> column !! iy = Some cell ->
  NodeCensus.points_to NodeCensus.EMPTY_TYPE (NodeCensus.type cell) = false ->
  NodeCensus.offset cell <= 0 ->
  grid !! ix = Some global_column -> global_column !! iy = Some global_cell ->
  NodeCensus.points_to NodeCensus.IO_TYPE (NodeCensus.type global_cell) = true ->
  Z.of_nat ix < NodeCensus.get_x device_size ->
  Z.of_nat iy < NodeCensus.get_y device_size ->
  iy = 0%nat \/ ix = 0%nat.
Proof.
  intros Hrun Hcolumn Hcell Hempty Hoffset Hgcolumn Hgcell Hio Hx Hy.
  unfold NodeCensus.estimate_num_rr_nodes_per_type in Hrun.
  apply CensusMore.bind_Ret_inv in Hrun as (pins & Hpins & _).
  unfold NodeCensus.count_pins in Hpins.
  apply CensusMore.bind_Ret_inv in Hpins as (c0 & Hgrid & _).
  destruct (CensusMore.count_grid_pins_column _ _ _ _ _ _ _ _ Hgrid Hcolumn)
    as (c1 & c1' & Hcol).
  destruct (CensusMore.count_column_pins_cell _ _ _ _ _ _ _ _ _ Hcol Hcell)
    as (c2 & c2' & Hc).
  simpl in Hc.
  assert (Hglobal : NodeCensus.grid_at grid ix iy = Ret global_cell).
  { unfold NodeCensus.grid_at. rewrite (vector_at_Some _ _ _ Hgcolumn), bind_Ret.
    now apply vector_at_Some. }
  destruct (CensusMore.count_cell_pins_io _ _ _ _ _ _ _ _ Hc Hempty Hoffset Hglobal Hio)
    as (side & Hside).
  apply CensusMore.determine_io_grid_pin_side_returns in Hside.
  simpl in Hside. lia.
Qed.

Lemma census_returns_only_with_io_in_row_or_column_zero_witness :
  (1 = 0)%nat \/ (0 = 0)%nat.
Proof.
  apply (census_returns_only_with_io_in_row_or_column_zero
           0 (NodeCensus.Coordinator 3 3) Examples.io_low_edges_3x3 Examples.io_low_edges_3x3
           [0; 0] [] [3; 3; 3; 3; 0; 0; 0] 0 1
           [Examples.empty_tile; Examples.io_tile; Examples.empty_tile]
           [Examples.empty_tile; Examples.io_tile; Examples.empty_tile]
           Examples.io_tile Examples.io_tile).
  - vm_compute. reflexivity.
  - reflexivity.
  - reflexivity.
  - reflexivity.
  - simpl. lia.
  - reflexivity.
  - reflexivity.
  - reflexivity.
  - simpl. lia.
  - simpl. lia.
Defined.

(** X7.  Whatever the device, a census that returns has one entry per
    category, reports as many SOURCE nodes as OPIN nodes and as many SINK
    nodes as IPIN nodes, and reports no INTRA_CLUSTER_EDGE node. *)
Theorem estimate_num_rr_nodes_per_type_shape
    (fuel : nat) (device_size : NodeCensus.DeviceCoordinator)
    (grid grids : list (list NodeCensus.t_grid_tile)) (chan_width : list Z)
    (segment_infs : list t_segment_inf) (counts : list Z) :
  NodeCensus.estimate_num_rr_nodes_per_type fuel device_size grid grids chan_width segment_infs
    = Ret counts ->
  List.length counts = NUM_RR_TYPES /\
  NodeCensus.counts_get SOURCE counts = NodeCensus.counts_get OPIN counts /\
  NodeCensus.counts_get SINK counts = NodeCensus.counts_get IPIN counts /\
  NodeCensus.counts_get INTRA_CLUSTER_EDGE counts = 0.
Proof.
  intros Hrun. unfold NodeCensus.estimate_num_rr_nodes_per_type in Hrun.
  apply CensusMore.bind_Ret_inv in Hrun as (pins & Hpins & Hchan).
  apply CensusMore.count_pins_shape in Hpins as (opins & ipins & ->).
  apply CensusMore.count_channels_keeps in Hchan as [Hlen Hother].
  unfold NodeCensus.counts_get. cbn [rr_type_index].
  rewrite (Hother 0%nat), (Hother 1%nat), (Hother 2%nat), (Hother 3%nat), (Hother 6%nat)
    by discriminate.
  split; [exact Hlen|]. repeat split.
Qed.

Lemma estimate_num_rr_nodes_per_type_shape_witness :
  List.length [1; 1; 1; 1; 0; 0; 0] = NUM_RR_TYPES /\
  NodeCensus.counts_get SOURCE [1; 1; 1; 1; 0; 0; 0]
    = NodeCensus.counts_get OPIN [1; 1; 1; 1; 0; 0; 0] /\
  NodeCensus.counts_get SINK [1; 1; 1; 1; 0; 0; 0]
    = NodeCensus.counts_get IPIN [1; 1; 1; 1; 0; 0; 0] /\
  NodeCensus.counts_get INTRA_CLUSTER_EDGE [1; 1; 1; 1; 0; 0; 0] = 0.
Proof.
  apply (estimate_num_rr_nodes_per_type_shape
           0 (NodeCensus.Coordinator 3 3) Examples.lone_clb_3x3 Examples.lone_clb_3x3
           [0; 0] [] [1; 1; 1; 1; 0; 0; 0]).
  vm_compute. reflexivity.
Defined.

(** X8.  Cells of the empty type and cells with a positive offset are
    skipped before anything else is read: on a grid made of such cells the
    pin part of the census returns all zeros for every device size and every
    global grid, even one without any tile. *)
Theorem count_pins_skips_empty_and_offset_cells
    (device_size : NodeCensus.DeviceCoordinator)
    (grid grids : list (list NodeCensus.t_grid_tile)) :
  Forall (Forall (fun cell =>
                    NodeCensus.points_to NodeCensus.EMPTY_TYPE (NodeCensus.type cell) = true \/
                    0 < NodeCensus.offset cell)) grids ->
  NodeCensus.count_pins device_size grid grids = Ret (replicate NUM_RR_TYPES 0).
Proof.
  intros Hskip. unfold NodeCensus.count_pins.
  rewrite CensusMore.count_grid_pins_skipped by assumption. reflexivity.
Qed.

Lemma count_pins_skips_empty_and_offset_cells_witness :
  NodeCensus.count_pins (NodeCensus.Coordinator 2 2) []
    [ [Examples.empty_tile; NodeCensus.GridTile (Some Examples.clb_type) 1];
      [NodeCensus.GridTile None 2; Examples.empty_tile] ]
  = Ret (replicate NUM_RR_TYPES 0).
Proof.
  apply (count_pins_skips_empty_and_offset_cells (NodeCensus.Coordinator 2 2) []
           [ [Examples.empty_tile; NodeCensus.GridTile (Some Examples.clb_type) 1];
             [NodeCensus.GridTile None 2; Examples.empty_tile] ]).
  repeat constructor; simpl; lia.
Defined.

(** X9.  On a grid of [nx] columns of [ny] cells each (both at least 2)
    the census is the pin counts with two entries filled in.  The core
    loops run over [ix = 1 .. nx - 3] and [iy = 1 .. ny - 3]: they make
    [max (nx - 3) 0 * max (ny - 3) 0] passes, none at all when [nx] or [ny]
    is 2 or 3.  CHANX is, in [size_t], the device height minus one times the
    starting tracks of the left and right representatives, plus that number
    of core passes times the starting tracks of the core representative;
    CHANY likewise from the device width and the top, bottom and core
    representatives.  The two border CHANX representatives are built from
    [chan_width[0]]; the core CHANX one and all three CHANY ones from
    [chan_width[1]]. *)
Theorem estimate_num_rr_nodes_per_type_rectangular
    (fuel nx ny : nat) (device_x device_y : Z)
    (grid grids : list (list NodeCensus.t_grid_tile)) (w0 w1 : Z)
    (segment_infs : list t_segment_inf)
    (left_x right_x core_x top_y bottom_y core_y : ChanNodeDetails.t) (pins : list Z) :
  let build := ChannelBuilder.build_unidir_chan_node_details fuel in
  let starts := ChanNodeDetails.get_num_starting_tracks in
  let core := Z.max (Z.of_nat nx - 3) 0 * Z.max (Z.of_nat ny - 3) 0 in
  List.length grids = nx -> Forall (fun column => List.length column = ny) grids ->
  (2 <= nx)%nat -> (2 <= ny)%nat ->
  Z.of_nat nx < SIZE_T_MODULUS -> Z.of_nat ny < SIZE_T_MODULUS ->
  1 <= device_x < SIZE_T_MODULUS -> 1 <= device_y < SIZE_T_MODULUS ->
  NodeCensus.count_pins (NodeCensus.Coordinator device_x device_y) grid grids = Ret pins ->
  build w0 (size_sub device_x 2) LEFT segment_infs = Ret left_x ->
  build w0 (size_sub device_x 2) RIGHT segment_infs = Ret right_x ->
  build w1 (size_sub device_x 2) NUM_SIDES segment_infs = Ret core_x ->
  build w1 (size_sub device_y 2) TOP segment_infs = Ret top_y ->
  build w1 (size_sub device_y 2) BOTTOM segment_infs = Ret bottom_y ->
  build w1 (size_sub device_y 2) NUM_SIDES segment_infs = Ret core_y ->
  NodeCensus.estimate_num_rr_nodes_per_type
    fuel (NodeCensus.Coordinator device_x device_y) grid grids [w0; w1] segment_infs
  = Ret (<[rr_type_index CHANX :=
             to_size_t ((device_y - 1) * (starts left_x + starts right_x)
                        + core * starts core_x)]>
           (<[rr_type_index CHANY :=
                to_size_t ((device_x - 1) * (starts top_y + starts bottom_y)
                           + core * starts core_y)]> pins)).
Proof.
  intros build starts core Hnx Hny Hx Hy Hxm Hym Hdx Hdy Hpins Hl Hr Hc Ht Hb Hcy.
  unfold NodeCensus.estimate_num_rr_nodes_per_type. rewrite Hpins, bind_Ret.
  apply CensusMore.count_pins_shape in Hpins as (opins & ipins & ->).
  assert (Hcore : core = Z.of_nat ((nx - 3) * (ny - 3))).
  { unfold core. rewrite Nat2Z.inj_mul. f_equal; lia. }
  rewrite Hcore.
  apply (CensusMore.count_channels_rectangular fuel nx ny); assumption.
Qed.

Lemma estimate_num_rr_nodes_per_type_rectangular_witness :
  NodeCensus.estimate_num_rr_nodes_per_type
    1 (NodeCensus.Coordinator 4 4) Examples.empty_4x4 Examples.empty_4x4 [0; 2]
    Examples.unit_segments
  = Ret [0; 0; 0; 0; 2; 8; 0].
Proof.
  eapply eq_trans.
  - apply (estimate_num_rr_nodes_per_type_rectangular
             1 4 4 4 4 Examples.empty_4x4 Examples.empty_4x4 0 2 Examples.unit_segments).
    + reflexivity.
    + repeat constructor.
    + lia.
    + lia.
    + unfold SIZE_T_MODULUS. lia.
    + unfold SIZE_T_MODULUS. lia.
    + unfold SIZE_T_MODULUS. lia.
    + unfold SIZE_T_MODULUS. lia.
    + vm_compute. reflexivity.
    + vm_compute. reflexivity.
    + vm_compute. reflexivity.
    + vm_compute. reflexivity.
    + vm_compute. reflexivity.
    + vm_compute. reflexivity.
    + vm_compute. reflexivity.
  - vm_compute. reflexivity.
Defined.

(** X10.  On one side and at one height, [get_grid_side_pins] lists each
    pin at most once and under one class only: the driver pins and the
    receiver pins are disjoint, and together they are no more than the pins
    of the type. *)
Theorem get_grid_side_pins_classes_are_disjoint
    (ty : NodeCensus.t_type_descriptor) (pin_side : e_side) (pin_height : nat) :
  (List.length (NodeCensus.get_grid_side_pins ty NodeCensus.DRIVER pin_side pin_height)
   + List.length (NodeCensus.get_grid_side_pins ty NodeCensus.RECEIVER pin_side pin_height)
   <= Z.to_nat (NodeCensus.num_pins ty))%nat /\
  (forall ipin,
     In ipin (NodeCensus.get_grid_side_pins ty NodeCensus.DRIVER pin_side pin_height) ->
     ~ In ipin (NodeCensus.get_grid_side_pins ty NodeCensus.RECEIVER pin_side pin_height)) /\
  List.NoDup (NodeCensus.get_grid_side_pins ty NodeCensus.DRIVER pin_side pin_height) /\
  List.NoDup (NodeCensus.get_grid_side_pins ty NodeCensus.RECEIVER pin_side pin_height).
Proof.
  unfold NodeCensus.get_grid_side_pins. split; [|split; [|split]].
  - etransitivity; [apply CensusMore.filter_two_classes | now rewrite List.length_seq].
    intros ipin H. apply andb_true_iff in H as [-> H].
    destruct (NodeCensus.pin_class ty ipin); simpl in *; congruence.
  - intros ipin Hd Hr. apply List.filter_In in Hd as [_ Hd], Hr as [_ Hr].
    apply andb_true_iff in Hd as [_ Hd], Hr as [_ Hr].
    destruct (NodeCensus.pin_class ty ipin); simpl in *; congruence.
  - apply List.NoDup_filter, List.seq_NoDup.
  - apply List.NoDup_filter, List.seq_NoDup.
Qed.

Module PinCountFacts.
Import NodeCensus.

(** A loop of [size_t] additions of bounded terms is exact while the bound
    on the total fits. *)
Lemma fold_size_add_exact {A : Type} (f : A -> Z) (bound : Z) (l : list A) :
  (forall a, 0 <= f a <= bound) ->
  forall acc, 0 <= acc -> acc + Z.of_nat (List.length l) * bound < SIZE_T_MODULUS ->
    fold_left (fun acc a => size_add acc (f a)) l acc = acc + sum_counts (map f l) /\
    0 <= sum_counts (map f l) <= Z.of_nat (List.length l) * bound.
Proof.
  intros Hf. induction l as [|a l IH]; intros acc Hacc Hfit; simpl fold_left; simpl map;
    simpl sum_counts; [simpl; lia|].
  pose proof (Hf a) as Ha.
  assert (Hlen : Z.of_nat (List.length (a :: l)) * bound
                 = bound + Z.of_nat (List.length l) * bound) by (simpl List.length; lia).
  rewrite Hlen in *.
  assert (Hrest : 0 <= Z.of_nat (List.length l) * bound) by (apply Z.mul_nonneg_nonneg; lia).
  rewrite size_add_small by lia.
  destruct (IH (acc + f a)) as [Heq Hbound]; [lia|lia|].
  rewrite Heq. lia.
Qed.

Lemma get_grid_side_pins_length (ty : t_type_descriptor) (pin_type : e_pin_type)
    (side : e_side) (h : nat) :
  0 <= num_pins ty ->
  0 <= Z.of_nat (List.length (get_grid_side_pins ty pin_type side h)) <= num_pins ty.
Proof.
  intros Hpins. unfold get_grid_side_pins. split; [lia|].
  pose proof (List.filter_length_le
                (fun ipin => (pinloc ty h side ipin =? 1)
                             && e_pin_type_eqb pin_type (pin_class ty ipin))
                (seq 0 (Z.to_nat (num_pins ty)))) as Hle.
  rewrite List.length_seq in Hle. lia.
Qed.

Lemma sides_fold_exact (ty : t_type_descriptor) (pin_type : e_pin_type) (sides : list e_side) :
  0 <= num_pins ty -> 0 <= height ty ->
  forall acc, 0 <= acc ->
    acc + Z.of_nat (List.length sides) * (height ty * num_pins ty) < SIZE_T_MODULUS ->
    fold_left (fun acc side => side_num_pins ty pin_type side acc) sides acc
      = acc + exact_grid_num_pins ty pin_type sides /\
    0 <= exact_grid_num_pins ty pin_type sides
      <= Z.of_nat (List.length sides) * (height ty * num_pins ty).
Proof.
  intros Hpins Hheight. unfold exact_grid_num_pins.
  assert (Hunit : 0 <= height ty * num_pins ty) by (apply Z.mul_nonneg_nonneg; lia).
  induction sides as [|side sides IH]; intros acc Hacc Hfit; simpl fold_left; simpl map;
    simpl sum_counts; [simpl; lia|].
  assert (Hlen : Z.of_nat (List.length (side :: sides)) * (height ty * num_pins ty)
                 = height ty * num_pins ty
                   + Z.of_nat (List.length sides) * (height ty * num_pins ty))
    by (simpl List.length; lia).
  rewrite Hlen in *.
  assert (Hrest : 0 <= Z.of_nat (List.length sides) * (height ty * num_pins ty))
    by (apply Z.mul_nonneg_nonneg; lia).
  destruct (fold_size_add_exact
              (fun h => Z.of_nat (List.length (get_grid_side_pins ty pin_type side h)))
              (num_pins ty) (seq 0 (Z.to_nat (height ty)))
              (fun h => get_grid_side_pins_length ty pin_type side h Hpins) acc Hacc)
    as [Hside Hbound].
  { rewrite List.length_seq, Z2Nat.id by lia. lia. }
  rewrite List.length_seq, Z2Nat.id in Hbound by lia.
  unfold side_num_pins at 2. rewrite Hside.
  destruct (IH (acc + sum_counts
                        (map (fun h => Z.of_nat (List.length
                                                   (get_grid_side_pins ty pin_type side h)))
                             (seq 0 (Z.to_nat (height ty)))))) as [Heq Hb]; [lia|lia|].
  rewrite Heq. lia.
Qed.

Lemma counted_sides_length (cur_grid : t_grid_tile) (io_side : e_side) :
  (List.length (counted_sides cur_grid io_side) <= 4)%nat.
Proof. unfold counted_sides. apply (List.filter_length_le _ all_sides). Qed.

End PinCountFacts.

(** X14.  While four times height times pins of the type fits a [size_t],
    no addition of [get_grid_num_pins] wraps: the count it returns is the
    exact number of (side, height, pin) triples of the wanted class over the
    sides it does not skip, a pin placed on several sides being counted once
    per side, and it is at most [4 * height * num_pins]. *)
Theorem get_grid_num_pins_is_exact
    (cur_grid : NodeCensus.t_grid_tile) (ty : NodeCensus.t_type_descriptor)
    (pin_type : NodeCensus.e_pin_type) (io_side : e_side) :
  NodeCensus.type cur_grid = Some ty ->
  0 <= NodeCensus.num_pins ty -> 0 <= NodeCensus.height ty ->
  4 * (NodeCensus.height ty * NodeCensus.num_pins ty) < SIZE_T_MODULUS ->
  NodeCensus.get_grid_num_pins cur_grid pin_type io_side
    = Ret (exact_grid_num_pins ty pin_type (NodeCensus.counted_sides cur_grid io_side)) /\
  0 <= exact_grid_num_pins ty pin_type (NodeCensus.counted_sides cur_grid io_side)
    <= 4 * (NodeCensus.height ty * NodeCensus.num_pins ty).
Proof.
  intros Hty Hpins Hheight Hfit. unfold NodeCensus.get_grid_num_pins. rewrite Hty.
  pose proof (PinCountFacts.counted_sides_length cur_grid io_side) as Hlen.
  assert (Hunit : 0 <= NodeCensus.height ty * NodeCensus.num_pins ty)
    by (apply Z.mul_nonneg_nonneg; lia).
  destruct (PinCountFacts.sides_fold_exact ty pin_type
              (NodeCensus.counted_sides cur_grid io_side) Hpins Hheight 0)
    as [Heq Hbound]; [lia|nia|].
  rewrite Heq. split; [reflexivity|nia].
Qed.

Lemma get_grid_num_pins_is_exact_witness :
  NodeCensus.get_grid_num_pins Examples.io_tile NodeCensus.RECEIVER RIGHT
    = Ret (exact_grid_num_pins Examples.io_type NodeCensus.RECEIVER
             (NodeCensus.counted_sides Examples.io_tile RIGHT)) /\
  0 <= exact_grid_num_pins Examples.io_type NodeCensus.RECEIVER
         (NodeCensus.counted_sides Examples.io_tile RIGHT)
    <= 4 * (NodeCensus.height Examples.io_type * NodeCensus.num_pins Examples.io_type).
Proof.
  apply (get_grid_num_pins_is_exact Examples.io_tile Examples.io_type
           NodeCensus.RECEIVER RIGHT).
  - reflexivity.
  - simpl. lia.
  - simpl. lia.
  - unfold SIZE_T_MODULUS. simpl. lia.
Defined.

(** ** GraphAssembler *)

Module AssemblerMore.
Import NodeCensus GraphAssembler.

(** A store on the global grid either goes through or leaves the array. *)
Lemma grid_store_outcome (grid : list (list t_grid_tile)) (ix iy : Z) (tile : t_grid_tile) :
  (exists grid', grid_store grid ix iy tile = Ret grid') \/
  grid_store grid ix iy tile = Undefined.
Proof.
  unfold grid_store, vector_at. destruct ((ix <? 0) || (iy <? 0)); [now right|].
  destruct (grid !! Z.to_nat ix) as [column|]; [|now right]. simpl.
  destruct (column !! Z.to_nat iy); [|now right]. simpl. eauto.
Qed.

(** With its test on [ix], the inner loop walks [iy] up column [ix] of
    [L_grid] until it reads past the end of an array. *)
Lemma copy_column_leaves_arrays (fuel : nat) :
  forall (L_ny ix : Z) (n : nat) (L_grid grid : list (list t_grid_tile)),
    0 <= ix < L_ny + 2 ->
    (List.length (default [] (L_grid !! Z.to_nat ix)) - n < fuel)%nat ->
    copy_column fuel L_ny ix (Z.of_nat n) L_grid grid = Undefined.
Proof.
  induction fuel as [|fuel IH]; intros L_ny ix n L_grid grid Hix Hfuel; [lia|].
  simpl. destruct (ix <? L_ny + 2) eqn:E; [|apply Z.ltb_ge in E; lia].
  unfold raw_grid_at, grid_at, vector_at.
  destruct (ix <? 0) eqn:E1; [apply Z.ltb_lt in E1; lia|].
  destruct (Z.of_nat n <? 0) eqn:E2; [apply Z.ltb_lt in E2; lia|].
  simpl orb. cbv iota. rewrite Nat2Z.id.
  destruct (L_grid !! Z.to_nat ix) as [column|] eqn:Ecolumn; [|reflexivity]. simpl in *.
  destruct (column !! n) as [tile|] eqn:Etile; [|reflexivity]. simpl.
  apply lookup_lt_Some in Etile.
  destruct (grid_store_outcome grid ix (Z.of_nat n) tile) as [[grid' ->] | ->];
    [|reflexivity].
  simpl. destruct (Z.of_nat n =? INT_MAX); [reflexivity|].
  replace (Z.of_nat n + 1) with (Z.of_nat (S n)) by lia.
  apply IH; [assumption|]. rewrite Ecolumn. simpl. lia.
Qed.

Lemma build_grids_leaves_arrays (fuel : nat) (L_nx L_ny : Z)
    (L_grid grid : list (list t_grid_tile)) :
  -2 < L_nx -> L_nx + 2 < SIZE_T_MODULUS -> -2 < L_ny ->
  (List.length (default [] (L_grid !! 0%nat)) < fuel)%nat ->
  build_grids fuel L_nx L_ny L_grid grid = Undefined.
Proof.
  intros Hx Hxm Hy Hfuel. unfold build_grids.
  rewrite AssemblerFacts.resize_count_nonneg, bind_Ret by lia.
  destruct (Z.to_nat (L_nx + 2)) as [|count] eqn:E; [lia|].
  cbn [fill_columns]. change (Z.to_nat 0) with 0%nat.
  rewrite (vector_at_Some _ 0%nat []), bind_Ret.
  - rewrite AssemblerFacts.resize_count_nonneg, bind_Ret by lia.
    rewrite (copy_column_leaves_arrays fuel L_ny 0 0); [reflexivity|lia|].
    change (Z.to_nat 0) with 0%nat. lia.
  - apply lookup_replicate_2. lia.
Qed.

End AssemblerMore.

(** X11.  As soon as the device has a column and a row ([L_nx + 2] and
    [L_ny + 2] positive) the assembler never returns a graph, whatever the
    grids, the segments, the fuel and the collaborators: the
    grid-construction loops in front of the census have no exit. *)
Theorem build_tileable_unidir_rr_graph_never_returns {Fc directs_table : Type}
    (alloc_and_load_actual_fc : Z -> bool -> Fc * bool)
    (alloc_and_load_clb_to_clb_directs : Z -> directs_table)
    (RR_GRAPH_NO_WARN RR_GRAPH_WARN_FC_CLIPPED : Z)
    (fuel : nat) (L_nx L_ny : Z) (L_grid grid : list (list NodeCensus.t_grid_tile))
    (chan_width : Z) (segment_inf : list t_segment_inf) (num_seg_types num_directs : Z)
    (r : GraphAssembler.t_rr_graph * Z) :
  -2 < L_nx -> -2 < L_ny ->
  GraphAssembler.build_tileable_unidir_rr_graph
    alloc_and_load_actual_fc alloc_and_load_clb_to_clb_directs
    RR_GRAPH_NO_WARN RR_GRAPH_WARN_FC_CLIPPED
    fuel L_nx L_ny L_grid grid chan_width segment_inf num_seg_types num_directs <> Ret r.
Proof.
  intros Hx Hy. unfold GraphAssembler.build_tileable_unidir_rr_graph.
  destruct (GraphAssembler.build_grids fuel L_nx L_ny L_grid grid) as [g| | |] eqn:E;
    try discriminate.
  exfalso. revert E. now apply AssemblerFacts.build_grids_no_return.
Qed.

Lemma build_tileable_unidir_rr_graph_never_returns_witness :
  GraphAssembler.build_tileable_unidir_rr_graph
    (fun _ _ => (tt, false)) (fun _ => tt) 0 1
    5 1 1 Examples.lone_clb_3x3 Examples.lone_clb_3x3 0 [] 0 0
  <> Ret (GraphAssembler.empty_rr_graph, 0).
Proof.
  apply (build_tileable_unidir_rr_graph_never_returns
           (fun _ _ => (tt, false)) (fun _ => tt) 0 1
           5 1 1 Examples.lone_clb_3x3 Examples.lone_clb_3x3 0 [] 0 0
           (GraphAssembler.empty_rr_graph, 0)).
  - lia.
  - lia.
Defined.

(** X12.  What the assembler does instead: with fuel for one more pass
    than column 0 of [L_grid] has cells, the run ends in undefined behaviour,
    the first inner loop having walked [iy] off an array.  The census, the
    allocation and the collaborators are never reached. *)
Theorem build_tileable_unidir_rr_graph_leaves_the_arrays {Fc directs_table : Type}
    (alloc_and_load_actual_fc : Z -> bool -> Fc * bool)
    (alloc_and_load_clb_to_clb_directs : Z -> directs_table)
    (RR_GRAPH_NO_WARN RR_GRAPH_WARN_FC_CLIPPED : Z)
    (fuel : nat) (L_nx L_ny : Z) (L_grid grid : list (list NodeCensus.t_grid_tile))
    (chan_width : Z) (segment_inf : list t_segment_inf) (num_seg_types num_directs : Z) :
  -2 < L_nx -> L_nx + 2 < SIZE_T_MODULUS -> -2 < L_ny ->
  (List.length (default [] (L_grid !! 0%nat)) < fuel)%nat ->
  GraphAssembler.build_tileable_unidir_rr_graph
    alloc_and_load_actual_fc alloc_and_load_clb_to_clb_directs
    RR_GRAPH_NO_WARN RR_GRAPH_WARN_FC_CLIPPED
    fuel L_nx L_ny L_grid grid chan_width segment_inf num_seg_types num_directs = Undefined.
Proof.
  intros Hx Hxm Hy Hfuel. unfold GraphAssembler.build_tileable_unidir_rr_graph.
  now rewrite AssemblerMore.build_grids_leaves_arrays.
Qed.

Lemma build_tileable_unidir_rr_graph_leaves_the_arrays_witness :
  GraphAssembler.build_tileable_unidir_rr_graph
    (fun _ _ => (tt, false)) (fun _ => tt) 0 1
    4 1 1 Examples.io_ring_3x3 Examples.io_ring_3x3 2 Examples.unit_segments 1 0
  = Undefined.
Proof.
  apply (build_tileable_unidir_rr_graph_leaves_the_arrays
           (fun _ _ => (tt, false)) (fun _ => tt) 0 1
           4 1 1 Examples.io_ring_3x3 Examples.io_ring_3x3 2 Examples.unit_segments 1 0).
  - lia.
  - unfold SIZE_T_MODULUS. lia.
  - lia.
  - simpl. lia.
Defined.

(** ** MuxPathResolver and MuxBitstreamEncoder *)

(** X13.  For a model that adds a constant input the implemented
    multiplexer has [mux_size + 1] inputs, numbered from 0, the constant one
    last.  A run of the encoder that returns bits decoded them for an input
    below [mux_size] (an explicit path id) or for [mux_size + 1] (the default
    path): never for input [mux_size], the constant input. *)
Theorem build_cmos_mux_bitstream_never_selects_constant_input
    (DEFAULT_PATH_ID DEFAULT_MUX_PATH_ID : Z) {MuxGraph MuxOutputId : Type}
    (mux_lib : Mux.circuit_model -> Z -> option MuxGraph)
    (outputs : MuxGraph -> list MuxOutputId)
    (decode_memory_bits : MuxGraph -> Z -> MuxOutputId -> list bool)
    (mux_model : Mux.circuit_model) (mux_size path_id : Z) (bits : list bool) :
  Mux.mux_add_const_input mux_model = true ->
  0 <= mux_size -> mux_size + 1 < SIZE_T_MODULUS ->
  Mux.build_cmos_mux_bitstream DEFAULT_PATH_ID DEFAULT_MUX_PATH_ID
    mux_lib outputs decode_memory_bits mux_model mux_size path_id = Ret bits ->
  exists mux_graph out datapath_id,
    mux_lib mux_model (mux_size + 1) = Some mux_graph /\
    outputs mux_graph = [out] /\
    Mux.resolve_datapath_id DEFAULT_PATH_ID DEFAULT_MUX_PATH_ID mux_model mux_size path_id
      = Ret datapath_id /\
    bits = decode_memory_bits mux_graph datapath_id out /\
    datapath_id <> mux_size /\
    ((path_id <> DEFAULT_PATH_ID /\ 0 <= datapath_id < mux_size) \/
     (path_id = DEFAULT_PATH_ID /\ datapath_id = mux_size + 1)).
Proof.
  intros Hconst Hsize Hroom Hrun.
  unfold Mux.build_cmos_mux_bitstream, Mux.lookup_mux_graph in Hrun.
  assert (Himpl : Mux.find_mux_implementation_num_inputs mux_model mux_size = mux_size + 1).
  { unfold Mux.find_mux_implementation_num_inputs. rewrite Hconst.
    apply size_add_small. lia. }
  rewrite Himpl in Hrun.
  destruct (mux_lib mux_model (mux_size + 1)) as [g|] eqn:Eg; [|discriminate].
  rewrite bind_Ret in Hrun.
  destruct (Mux.resolve_datapath_id DEFAULT_PATH_ID DEFAULT_MUX_PATH_ID mux_model
              mux_size path_id) as [id| | |] eqn:Eid; try discriminate.
  rewrite bind_Ret in Hrun.
  destruct (outputs g) as [|out [|out' rest]] eqn:Eout; try discriminate.
  injection Hrun as <-. exists g, out, id.
  split; [reflexivity|]. split; [exact Eout|]. split; [reflexivity|]. split; [reflexivity|].
  unfold Mux.resolve_datapath_id, Mux.find_mux_default_path_id in Eid.
  rewrite Himpl, Hconst in Eid.
  destruct (DEFAULT_PATH_ID =? path_id) eqn:Edefault.
  - apply Z.eqb_eq in Edefault. injection Eid as Hid. split; [lia|]. right. split; [|lia].
    congruence.
  - apply Z.eqb_neq in Edefault.
    destruct (to_size_t path_id <? mux_size) eqn:Elt; [|discriminate].
    apply Z.ltb_lt in Elt. injection Eid as Hid.
    pose proof (to_size_t_range path_id). split; [lia|]. left. split; [congruence|lia].
Qed.

Lemma build_cmos_mux_bitstream_never_selects_constant_input_witness :
  exists mux_graph out datapath_id,
    (fun (_ : Mux.circuit_model) (_ : Z) => Some 0%nat)
      (Mux.CircuitModel Mux.SPICE_MODEL_DESIGN_CMOS true) (4 + 1) = Some mux_graph /\
    (fun (_ : nat) => [0%nat]) mux_graph = [out] /\
    Mux.resolve_datapath_id (-1) 0 (Mux.CircuitModel Mux.SPICE_MODEL_DESIGN_CMOS true) 4 (-1)
      = Ret datapath_id /\
    [true; false; true]
      = (fun (_ : nat) (datapath_id : Z) (_ : nat) =>
           [Z.testbit datapath_id 0; Z.testbit datapath_id 1; Z.testbit datapath_id 2])
          mux_graph datapath_id out /\
    datapath_id <> 4 /\
    ((-1 <> -1 /\ 0 <= datapath_id < 4) \/ (-1 = -1 /\ datapath_id = 4 + 1)).
Proof.
  apply (build_cmos_mux_bitstream_never_selects_constant_input (-1) 0
           (fun (_ : Mux.circuit_model) (_ : Z) => Some 0%nat)
           (fun (_ : nat) => [0%nat])
           (fun (_ : nat) (datapath_id : Z) (_ : nat) =>
              [Z.testbit datapath_id 0; Z.testbit datapath_id 1; Z.testbit datapath_id 2])
           (Mux.CircuitModel Mux.SPICE_MODEL_DESIGN_CMOS true) 4 (-1) [true; false; true]).
  - reflexivity.
  - lia.
  - unfold SIZE_T_MODULUS. lia.
  - vm_compute. reflexivity.
Defined.

(** X15.  When [build_mux_bitstream] returns, and what.  For an RRAM
    model it returns the empty vector without looking at the size, the path
    or the library.  For a CMOS model it returns exactly when the library
    has the graph of the implemented size, that graph has one output, and
    the path id is the use-default marker or converts to a [size_t] below
    the declared size; the bits are those decoded for the resolved input.
    For any other technology it never returns. *)
Theorem build_mux_bitstream_returns_iff
    (DEFAULT_PATH_ID DEFAULT_MUX_PATH_ID : Z) {MuxGraph MuxOutputId : Type}
    (mux_lib : Mux.circuit_model -> Z -> option MuxGraph)
    (outputs : MuxGraph -> list MuxOutputId)
    (decode_memory_bits : MuxGraph -> Z -> MuxOutputId -> list bool)
    (mux_model : Mux.circuit_model) (mux_size path_id : Z) (bits : list bool) :
  let implemented_mux_size := Mux.find_mux_implementation_num_inputs mux_model mux_size in
  Mux.build_mux_bitstream DEFAULT_PATH_ID DEFAULT_MUX_PATH_ID
    mux_lib outputs decode_memory_bits mux_model mux_size path_id = Ret bits <->
  (Mux.design_tech_type mux_model = Mux.SPICE_MODEL_DESIGN_RRAM /\ bits = []) \/
  (Mux.design_tech_type mux_model = Mux.SPICE_MODEL_DESIGN_CMOS /\
   exists mux_graph out,
     mux_lib mux_model implemented_mux_size = Some mux_graph /\
     outputs mux_graph = [out] /\
     ((path_id = DEFAULT_PATH_ID /\
       bits = decode_memory_bits mux_graph
                (Mux.find_mux_default_path_id DEFAULT_MUX_PATH_ID mux_model
                   implemented_mux_size) out) \/
      (path_id <> DEFAULT_PATH_ID /\ to_size_t path_id < mux_size /\
       bits = decode_memory_bits mux_graph (to_size_t path_id) out))).
Proof.
  intros implemented_mux_size. unfold Mux.build_mux_bitstream.
  destruct (Mux.design_tech_type mux_model); cycle 1.
  - split; [intros [= <-]; left; auto|].
    intros [[_ ->] | [Hcmos _]]; [reflexivity|discriminate].
  - split; [discriminate|]. intros [[H _] | [H _]]; discriminate.
  - unfold Mux.build_cmos_mux_bitstream, Mux.lookup_mux_graph. fold implemented_mux_size.
    split.
    + intros Hrun. right. split; [reflexivity|].
      destruct (mux_lib mux_model implemented_mux_size) as [g|]; [|discriminate].
      rewrite bind_Ret in Hrun. exists g.
      destruct (decide (path_id = DEFAULT_PATH_ID)) as [-> | Hne].
      * rewrite MuxFacts.resolve_datapath_id_default, bind_Ret in Hrun.
        destruct (outputs g) as [|out [|out' rest]]; try discriminate.
        injection Hrun as <-. exists out. auto 10.
      * rewrite MuxFacts.resolve_datapath_id_explicit in Hrun by assumption.
        destruct (to_size_t path_id <? mux_size) eqn:Elt; [|discriminate].
        apply Z.ltb_lt in Elt. rewrite bind_Ret in Hrun.
        destruct (outputs g) as [|out [|out' rest]]; try discriminate.
        injection Hrun as <-. exists out. auto 10.
    + intros [[H _] | [_ (g & out & Hg & Hout & Hpath)]]; [discriminate|].
      rewrite Hg, bind_Ret.
      destruct Hpath as [[-> ->] | (Hne & Hlt & ->)].
      * rewrite MuxFacts.resolve_datapath_id_default, bind_Ret, Hout. reflexivity.
      * rewrite MuxFacts.resolve_datapath_id_explicit by assumption.
        apply Z.ltb_lt in Hlt. rewrite Hlt, bind_Ret, Hout. reflexivity.
Qed.
